(** * Check Parser: the extraction-and-aggregation pipeline of streamlit_app.py

    A shallow embedding of [src/streamlit_app.py] (v2.0) and of the parts of
    the Python library it calls, followed by what is proved of the
    extractor, the batch loop and the report writers.

    Python values are embedded as follows.
    - A [str] is the list of its Unicode code points.
    - A raised exception is the [Raise] branch of [res]; [try]/[except
      Exception] is the combinator [try_except].
    - A [float] is an IEEE-754 binary64 number, in the standard library's
      [spec_float]; an [int] is a [Z].
    - A [dict] is an association list kept in insertion order with one
      binding per key. *)

From Stdlib Require Import String Ascii.
From Stdlib Require Import ZArith NArith List Bool Lia DecimalPos.
From Stdlib Require Import SpecFloat Sorted.
Import ListNotations.

Local Open Scope Z_scope.

(** ** Strings *)

Definition char := N.
Definition str := list char.

(** A [bytes] object is the list of its bytes. *)
Definition bytes := list N.

Definition str_eqb (a b : str) : bool :=
  if list_eq_dec N.eq_dec a b then true else false.

(** [text "abc"] is the Python string ['abc']. *)
Definition text (s : string) : str :=
  map N_of_ascii (list_ascii_of_string s).
Arguments text s%_string.

(** [jtext] is [text] with every apostrophe read as a double quote, so that
    JSON documents can be written down legibly. *)
Definition jtext (s : string) : str :=
  map (fun c => if N.eqb c 39 then 34%N else c) (text s).
Arguments jtext s%_string.

(** [str.isspace] on one character. *)
Definition isspace (c : char) : bool :=
  ((9 <=? c) && (c <=? 13) || (28 <=? c) && (c <=? 32)
   || (c =? 133) || (c =? 160) || (c =? 5760)
   || (8192 <=? c) && (c <=? 8202)
   || (c =? 8232) || (c =? 8233) || (c =? 8239) || (c =? 8287)
   || (c =? 12288))%N.

Fixpoint lstrip (s : str) : str :=
  match s with
  | c :: s' => if isspace c then lstrip s' else s
  | [] => []
  end.

Definition rstrip (s : str) : str := rev (lstrip (rev s)).

(** [s.strip()] *)
Definition strip (s : str) : str := rstrip (lstrip s).

(** [s.startswith(p)] *)
Fixpoint startswith (s p : str) {struct p} : bool :=
  match p, s with
  | [], _ => true
  | _ :: _, [] => false
  | a :: p', b :: s' => N.eqb a b && startswith s' p'
  end.

(** [s.find(p)]: the least index at which [p] occurs in [s]. *)
Fixpoint find (s p : str) : option nat :=
  if startswith s p then Some O
  else match s with
       | [] => None
       | _ :: s' => option_map S (find s' p)
       end.

(** [s.rfind(p)]: the greatest index at which [p] occurs in [s]. *)
Fixpoint rfind (s p : str) : option nat :=
  match s with
  | [] => if startswith s p then Some O else None
  | _ :: s' =>
      match rfind s' p with
      | Some i => Some (S i)
      | None => if startswith s p then Some O else None
      end
  end.

(** [s.split(sep, 1)] for a non-empty [sep]: one or two pieces. *)
Definition split1 (s sep : str) : list str :=
  match find s sep with
  | Some i => [firstn i s; skipn (i + length sep) s]
  | None => [s]
  end.

(** [s.rsplit(sep, 1)] for a non-empty [sep]. *)
Definition rsplit1 (s sep : str) : list str :=
  match rfind s sep with
  | Some i => [firstn i s; skipn (i + length sep) s]
  | None => [s]
  end.

(** [s.replace(old, new)] for a non-empty [old]: every non-overlapping
    occurrence, scanning from the left. *)
Fixpoint replace_fuel (n : nat) (s old new : str) : str :=
  match n with
  | O => s
  | S n' =>
      if startswith s old then new ++ replace_fuel n' (skipn (length old) s) old new
      else match s with
           | [] => []
           | c :: s' => c :: replace_fuel n' s' old new
           end
  end.

Definition replace (s old new : str) : str :=
  replace_fuel (S (length s)) s old new.

(** ** Exceptions and results *)

(** The exception classes the program can meet.  [LibraryError] stands for
    any [Exception] subclass raised inside anthropic, pdf2image or PIL;
    [KeyboardInterrupt] derives from [BaseException] only. *)
Inductive exc : Type :=
| IndexError
| AttributeError
| TypeError
| ValueError
| JSONDecodeError
| OverflowError
| LibraryError (name : str)
| KeyboardInterrupt.

(** [isinstance(e, Exception)] *)
Definition is_Exception (e : exc) : bool :=
  match e with
  | KeyboardInterrupt => false
  | _ => true
  end.

Inductive res (A : Type) : Type :=
| Ok (a : A)
| Raise (e : exc).
Arguments Ok {A} a.
Arguments Raise {A} e.

Definition bind {A B : Type} (r : res A) (k : A -> res B) : res B :=
  match r with
  | Ok a => k a
  | Raise e => Raise e
  end.

Notation "x <- c1 ;; c2" := (bind c1 (fun x => c2))
  (at level 61, c1 at next level, right associativity).

(** [try: body / except Exception as e: handler(e)] *)
Definition try_except {A : Type} (body : res A) (handler : exc -> res A) : res A :=
  match body with
  | Ok a => Ok a
  | Raise e => if is_Exception e then handler e else Raise e
  end.

Definition is_ok {A : Type} (r : res A) : bool :=
  match r with Ok _ => true | Raise _ => false end.

(** ** Python values *)

Definition float := spec_float.

#[warnings="-register-all"]
Inductive pyval : Type :=
| PNone
| PBool (b : bool)
| PInt (z : Z)
| PFloat (f : float)
| PStr (s : str)
| PList (l : list pyval)
| PDict (d : list (str * pyval)).

Definition dict := list (str * pyval).

(** [d.get(k)], [None] of the option standing for an absent key *)
Fixpoint dict_lookup (d : dict) (k : str) : option pyval :=
  match d with
  | [] => None
  | (k', v) :: d' => if str_eqb k' k then Some v else dict_lookup d' k
  end.

(** [d.get(k, default)] *)
Definition dict_get (d : dict) (k : str) (default : pyval) : pyval :=
  match dict_lookup d k with
  | Some v => v
  | None => default
  end.

(** [d[k] = v]: an existing key keeps its place, a new one goes last. *)
Fixpoint dict_set (d : dict) (k : str) (v : pyval) : dict :=
  match d with
  | [] => [(k, v)]
  | (k', v') :: d' =>
      if str_eqb k' k then (k', v) :: d' else (k', v') :: dict_set d' k v
  end.

Definition dict_keys (d : dict) : list str := map fst d.

(** ** Floating-point numbers *)

Definition prec : Z := 53.
Definition emax : Z := 1024.

Definition float_add : float -> float -> float := SFadd prec emax.

(** The binary64 number nearest to the integer [z], ties to even. *)
Definition float_of_Z (z : Z) : float := binary_normalize prec emax z 0 false.

(** The binary64 number nearest to [(-1)^neg * m * 10^e], ties to even: the
    correctly rounded conversion of a decimal numeral. *)
Definition float_of_decimal (neg : bool) (m : Z) (e : Z) : float :=
  match m with
  | Zpos p =>
      if 0 <=? e then binary_round prec emax neg (p * Z.to_pos (10 ^ e)) 0
      else
        let '(q, e', l) := SFdiv_core_binary prec emax (Zpos p) 0 (10 ^ (- e)) 0 in
        binary_round_aux prec emax neg q e' l
  | _ => S754_zero neg
  end.

(** [float(n)] for an [int]: the nearest float, and [OverflowError] when
    that is beyond the largest one, which is from [2^1024 - 2^970] on. *)
Definition float_of_int (z : Z) : res float :=
  if Z.abs z <? 2 ^ 1024 - 2 ^ 970 then Ok (float_of_Z z)
  else Raise OverflowError.

(** Decimal digits of a natural number, most significant first. *)
Fixpoint uint_digits (u : Decimal.uint) : str :=
  match u with
  | Decimal.Nil => []
  | Decimal.D0 u' => 48%N :: uint_digits u'
  | Decimal.D1 u' => 49%N :: uint_digits u'
  | Decimal.D2 u' => 50%N :: uint_digits u'
  | Decimal.D3 u' => 51%N :: uint_digits u'
  | Decimal.D4 u' => 52%N :: uint_digits u'
  | Decimal.D5 u' => 53%N :: uint_digits u'
  | Decimal.D6 u' => 54%N :: uint_digits u'
  | Decimal.D7 u' => 55%N :: uint_digits u'
  | Decimal.D8 u' => 56%N :: uint_digits u'
  | Decimal.D9 u' => 57%N :: uint_digits u'
  end.

Definition digits_of_N (n : N) : str := uint_digits (N.to_uint n).

(** [n / d] rounded to the nearest integer, ties to even ([0 < d]). *)
Definition div_half_even (n d : Z) : Z :=
  let q := n / d in
  match (2 * (n mod d)) ?= d with
  | Lt => q
  | Gt => q + 1
  | Eq => if Z.even q then q else q + 1
  end.

(** The magnitude [m * 2^e] in hundredths, rounded to nearest, ties to even. *)
Definition hundredths (m : positive) (e : Z) : Z :=
  if 0 <=? e then Zpos m * 2 ^ e * 100
  else div_half_even (Zpos m * 100) (2 ^ (- e)).

Definition sign_str (s : bool) : str := if s then [45%N] else [].

Definition two_digits (n : N) : str :=
  digits_of_N (n / 10) ++ digits_of_N (n mod 10).

(** [f'{x:.2f}'] for a [float] *)
Definition format_2f (x : float) : str :=
  match x with
  | S754_nan => text "nan"
  | S754_infinity s => sign_str s ++ text "inf"
  | S754_zero s => sign_str s ++ text "0.00"
  | S754_finite s m e =>
      let h := Z.to_N (hundredths m e) in
      sign_str s ++ digits_of_N (h / 100) ++ [46%N] ++ two_digits (h mod 100)
  end.

(** ** Numbers: [+], [sum] and the format specification [.2f] *)

(** The integer a value stands for in arithmetic: [bool] is a subclass of
    [int]. *)
Definition as_int (v : pyval) : option Z :=
  match v with
  | PInt z => Some z
  | PBool b => Some (if b then 1 else 0)
  | _ => None
  end.

(** [a + b].  Mixed [int]/[float] operands convert the [int] first, which
    raises [OverflowError] beyond the range of binary64. *)
Definition py_add (a b : pyval) : res pyval :=
  match a, b with
  | PFloat x, PFloat y => Ok (PFloat (float_add x y))
  | PFloat x, _ =>
      match as_int b with
      | Some z => y <- float_of_int z ;; Ok (PFloat (float_add x y))
      | None => Raise TypeError
      end
  | _, PFloat y =>
      match as_int a with
      | Some z => x <- float_of_int z ;; Ok (PFloat (float_add x y))
      | None => Raise TypeError
      end
  | PStr x, PStr y => Ok (PStr (x ++ y))
  | PList x, PList y => Ok (PList (x ++ y))
  | _, _ =>
      match as_int a, as_int b with
      | Some x, Some y => Ok (PInt (x + y))
      | _, _ => Raise TypeError
      end
  end.

(** [sum(xs)] with its default start [0], adding from the left with [+],
    as CPython does up to version 3.11.  From 3.12 on, [sum] carries a
    correction term through the additions of floats; the result is the
    same whenever each of these additions is exact. *)
Fixpoint sum_from (acc : pyval) (xs : list pyval) : res pyval :=
  match xs with
  | [] => Ok acc
  | x :: xs' => acc' <- py_add acc x ;; sum_from acc' xs'
  end.

Definition sum (xs : list pyval) : res pyval := sum_from (PInt 0) xs.

(** [f'{v:.2f}']: an [int] is converted to [float] first; [str] rejects the
    format code with [ValueError], the other types with [TypeError]. *)
Definition format_spec_2f (v : pyval) : res str :=
  match v with
  | PFloat x => Ok (format_2f x)
  | PStr _ => Raise ValueError
  | _ =>
      match as_int v with
      | Some z => x <- float_of_int z ;; Ok (format_2f x)
      | None => Raise TypeError
      end
  end.

(** ** Numerals *)

Definition is_digit (c : char) : bool := ((48 <=? c) && (c <=? 57))%N.

Fixpoint take_digits (s : str) : str * str :=
  match s with
  | c :: s' =>
      if is_digit c then let (ds, r) := take_digits s' in (c :: ds, r)
      else ([], s)
  | [] => ([], [])
  end.

Definition Z_of_digits (ds : str) : Z :=
  fold_left (fun acc c => acc * 10 + Z.of_N (c - 48)) ds 0.

(** An optional sign: whether it is a minus, and the rest. *)
Definition take_sign (s : str) : bool * str :=
  match s with
  | c :: r => if (c =? 45)%N then (true, r)
              else if (c =? 43)%N then (false, r) else (false, s)
  | [] => (false, [])
  end.

(** The exponent part [[eE][-+]?[0-9]+]; when it is absent or cut short
    nothing is consumed. *)
Definition take_exponent (s : str) : option Z * str :=
  match s with
  | c :: r =>
      if ((c =? 101) || (c =? 69))%N then
        let (neg, r1) := take_sign r in
        let (es, r2) := take_digits r1 in
        match es with
        | [] => (None, s)
        | _ => (Some (if neg then - Z_of_digits es else Z_of_digits es), r2)
        end
      else (None, s)
  | [] => (None, [])
  end.

(** The fraction part [\.[0-9]+]; when it is absent or has no digit
    nothing is consumed. *)
Definition take_fraction (s : str) : option str * str :=
  match s with
  | c :: r =>
      if (c =? 46)%N then
        match take_digits r with
        | ([], _) => (None, s)
        | (fs, r') => (Some fs, r')
        end
      else (None, s)
  | [] => (None, [])
  end.

(** ** [json.loads]

    The decoder of CPython's [json] module with its defaults: the grammar of
    RFC 8259 extended with [NaN], [Infinity] and [-Infinity], control
    characters rejected inside strings, the last of several equal keys
    retained.  The model is the decoder within the limits of the
    interpreter, where every failure is a [JSONDecodeError], here [None].
    Beyond them [json.loads] raises exceptions of other classes, which are
    not modelled: [RecursionError] on a nesting deeper than the interpreter
    allows, [ValueError] on an integer literal of more than 4300 digits. *)

Definition is_json_ws (c : char) : bool :=
  ((c =? 32) || (c =? 9) || (c =? 10) || (c =? 13))%N.

Fixpoint skip_ws (s : str) : str :=
  match s with
  | c :: s' => if is_json_ws c then skip_ws s' else s
  | [] => []
  end.

Definition hex_val (c : char) : option N :=
  (if is_digit c then Some (c - 48)
   else if (97 <=? c) && (c <=? 102) then Some (c - 87)
   else if (65 <=? c) && (c <=? 70) then Some (c - 55)
   else None)%N.

Definition hex4 (s : str) : option (N * str) :=
  match s with
  | a :: b :: c :: d :: rest =>
      match hex_val a, hex_val b, hex_val c, hex_val d with
      | Some x, Some y, Some z, Some w =>
          Some ((((x * 16 + y) * 16 + z) * 16 + w)%N, rest)
      | _, _, _, _ => None
      end
  | _ => None
  end.

(** The character a one-letter escape stands for: quote, backslash and
    slash for themselves, then b, f, n, r and t. *)
Definition simple_escape (c : char) : option char :=
  (if c =? 34 then Some 34
   else if c =? 92 then Some 92
   else if c =? 47 then Some 47
   else if c =? 98 then Some 8
   else if c =? 102 then Some 12
   else if c =? 110 then Some 10
   else if c =? 114 then Some 13
   else if c =? 116 then Some 9
   else None)%N.

Definition is_high_surrogate (u : N) : bool := ((55296 <=? u) && (u <=? 56319))%N.
Definition is_low_surrogate (u : N) : bool := ((56320 <=? u) && (u <=? 57343))%N.
Definition join_surrogates (hi lo : N) : N :=
  (65536 + ((hi - 55296) * 1024 + (lo - 56320)))%N.

(** The code point of a [\u] escape whose four digits were [u], and the
    rest of the input: a high surrogate followed by an escaped low
    surrogate is one character. *)
Definition unicode_escape (u : N) (r : str) : option (char * str) :=
  if is_high_surrogate u && startswith r [92; 117]%N then
    match hex4 (skipn 2 r) with
    | Some (u2, r2) =>
        if is_low_surrogate u2 then Some (join_surrogates u u2, r2)
        else Some (u, r)
    | None => None
    end
  else Some (u, r).

(** The body of a string literal, from just after its opening quote: the
    decoded characters and what follows the closing quote. *)
Fixpoint scanstring (fuel : nat) (s : str) : option (str * str) :=
  match fuel with
  | O => None
  | S n =>
      match s with
      | [] => None
      | c :: s' =>
          if (c =? 34)%N then Some ([], s')
          else if (c =? 92)%N then
            match s' with
            | [] => None
            | e :: s'' =>
                if (e =? 117)%N then
                  match hex4 s'' with
                  | Some (u, r) =>
                      match unicode_escape u r with
                      | Some (ch, r') =>
                          match scanstring n r' with
                          | Some (t, rest) => Some (ch :: t, rest)
                          | None => None
                          end
                      | None => None
                      end
                  | None => None
                  end
                else
                  match simple_escape e with
                  | Some ch =>
                      match scanstring n s'' with
                      | Some (t, rest) => Some (ch :: t, rest)
                      | None => None
                      end
                  | None => None
                  end
            end
          else if (c <? 32)%N then None
          else
            match scanstring n s' with
            | Some (t, rest) => Some (c :: t, rest)
            | None => None
            end
      end
  end.

(** A JSON number: an optional minus, then a single zero or a digit string
    that does not start with zero, then an optional fraction and an optional
    exponent.  It is an [int] when it has neither fraction nor exponent,
    else a [float]. *)
Definition match_number (s : str) : option (pyval * str) :=
  let (neg, s1) :=
    match s with
    | c :: r => if (c =? 45)%N then (true, r) else (false, s)
    | [] => (false, [])
    end in
  match s1 with
  | [] => None
  | c :: r =>
      if is_digit c then
        let (ds, r1) := if (c =? 48)%N then ([], r) else take_digits r in
        let ipart := c :: ds in
        let (frac, r2) := take_fraction r1 in
        let (exp, r3) := take_exponent r2 in
        match frac, exp with
        | None, None =>
            Some (PInt (if neg then - Z_of_digits ipart else Z_of_digits ipart), r3)
        | _, _ =>
            let fs := match frac with Some fs => fs | None => [] end in
            let e := match exp with Some e => e | None => 0 end in
            Some (PFloat (float_of_decimal neg (Z_of_digits (ipart ++ fs))
                            (e - Z.of_nat (length fs))), r3)
        end
      else None
  end.

Definition nan : float := S754_nan.
Definition inf (neg : bool) : float := S754_infinity neg.

(** One JSON value at the head of [s], and the rest of the input.  Objects
    and arrays are read member by member; [fuel] bounds the nesting and the
    number of members, and more than twice the length of the input is
    always enough ([scan_once_fuel] below). *)
Fixpoint scan_once (fuel : nat) (s : str) {struct fuel} : option (pyval * str) :=
  match fuel with
  | O => None
  | S n =>
      match s with
      | [] => None
      | c :: r =>
          if (c =? 34)%N then
            match scanstring (S (length r)) r with
            | Some (t, r') => Some (PStr t, r')
            | None => None
            end
          else if (c =? 123)%N then
            match skip_ws r with
            | c1 :: r1 =>
                if (c1 =? 125)%N then Some (PDict [], r1)
                else if (c1 =? 34)%N then object_members n r1 []
                else None
            | [] => None
            end
          else if (c =? 91)%N then
            match skip_ws r with
            | c1 :: r1 =>
                if (c1 =? 93)%N then Some (PList [], r1)
                else array_items n (c1 :: r1) []
            | [] => None
            end
          else if startswith s (text "null") then Some (PNone, skipn 4 s)
          else if startswith s (text "true") then Some (PBool true, skipn 4 s)
          else if startswith s (text "false") then Some (PBool false, skipn 5 s)
          else
            match match_number s with
            | Some vr => Some vr
            | None =>
                if startswith s (text "NaN") then Some (PFloat nan, skipn 3 s)
                else if startswith s (text "Infinity") then
                  Some (PFloat (inf false), skipn 8 s)
                else if startswith s (text "-Infinity") then
                  Some (PFloat (inf true), skipn 9 s)
                else None
            end
      end
  end

(** The members of an object from just after the opening quote of a key,
    [acc] holding the members read so far. *)
with object_members (fuel : nat) (s : str) (acc : dict) {struct fuel}
  : option (pyval * str) :=
  match fuel with
  | O => None
  | S n =>
      match scanstring (S (length s)) s with
      | None => None
      | Some (key, r1) =>
          match skip_ws r1 with
          | c :: r2 =>
              if (c =? 58)%N then
                match scan_once n (skip_ws r2) with
                | None => None
                | Some (v, r3) =>
                    let acc' := dict_set acc key v in
                    match skip_ws r3 with
                    | c2 :: r4 =>
                        if (c2 =? 125)%N then Some (PDict acc', r4)
                        else if (c2 =? 44)%N then
                          match skip_ws r4 with
                          | c3 :: r5 =>
                              if (c3 =? 34)%N then object_members n r5 acc'
                              else None
                          | [] => None
                          end
                        else None
                    | [] => None
                    end
                end
              else None
          | [] => None
          end
      end
  end

(** The items of an array from the start of an item. *)
with array_items (fuel : nat) (s : str) (acc : list pyval) {struct fuel}
  : option (pyval * str) :=
  match fuel with
  | O => None
  | S n =>
      match scan_once n s with
      | None => None
      | Some (v, r) =>
          let acc' := acc ++ [v] in
          match skip_ws r with
          | c :: r1 =>
              if (c =? 93)%N then Some (PList acc', r1)
              else if (c =? 44)%N then array_items n (skip_ws r1) acc'
              else None
          | [] => None
          end
      end
  end.

(** [json.loads(s)] *)
Definition json_loads (s : str) : res pyval :=
  match scan_once (2 * length s + 2) (skip_ws s) with
  | Some (v, r) =>
      match skip_ws r with
      | [] => Ok v
      | _ :: _ => Raise JSONDecodeError
      end
  | None => Raise JSONDecodeError
  end.

(** ** [float(s)] for a string

    The text is stripped of surrounding white space, underscores are allowed
    between two digits, and what remains is a decimal numeral (digits with an
    optional point and exponent) or one of [inf], [infinity], [nan] in any
    case, each under an optional sign.  The value is correctly rounded and
    overflows to infinity.  Anything else raises [ValueError].  Before the
    numeral is read, every white space beyond ASCII is turned into a space
    and every decimal digit of another script into its ASCII digit. *)

(** The zeros of the decimal digits of Unicode 14.0, the version CPython
    3.11 carries: each is followed by the digits 1 to 9 of its script. *)
Definition decimal_zeros : list N :=
  [48; 1632; 1776; 1984; 2406; 2534; 2662; 2790; 2918; 3046; 3174; 3302;
   3430; 3558; 3664; 3792; 3872; 4160; 4240; 6112; 6160; 6470; 6608; 6784;
   6800; 6992; 7088; 7232; 7248; 42528; 43216; 43264; 43472; 43504; 43600;
   44016; 65296; 66720; 68912; 69734; 69872; 69942; 70096; 70384; 70736;
   70864; 71248; 71360; 71472; 71904; 72016; 72784; 73040; 73120; 92768;
   92864; 93008; 120782; 120792; 120802; 120812; 120822; 123200; 123632;
   125264; 130032]%N.

(** [Py_UNICODE_TODECIMAL(c)] *)
Definition decimal_value (c : char) : option N :=
  match List.find (fun z => (z <=? c) && (c <? z + 10))%N decimal_zeros with
  | Some z => Some (c - z)%N
  | None => None
  end.

(** What [float] makes of a character before it reads the numeral; a
    question mark is no part of any numeral. *)
Definition to_ascii (c : char) : char :=
  if (c <? 127)%N then c
  else if isspace c then 32%N
  else match decimal_value c with
       | Some d => (48 + d)%N
       | None => 63%N
       end.

Definition is_float_space (c : char) : bool :=
  ((9 <=? c) && (c <=? 13) || (c =? 32) || (127 <=? c) && isspace c)%N.

Fixpoint float_lstrip (s : str) : str :=
  match s with
  | c :: s' => if is_float_space c then float_lstrip s' else s
  | [] => []
  end.

Definition float_strip (s : str) : str :=
  rev (float_lstrip (rev (float_lstrip s))).

(** Removes the underscores of a numeral, each of which must stand between
    two digits; [prev] is the character before [s]. *)
Fixpoint drop_underscores (prev : char) (s : str) : option str :=
  match s with
  | [] => if (prev =? 95)%N then None else Some []
  | c :: s' =>
      if (c =? 95)%N then
        if is_digit prev then drop_underscores c s' else None
      else if (prev =? 95)%N && negb (is_digit c) then None
      else option_map (cons c) (drop_underscores c s')
  end.

Definition lower (c : char) : char :=
  (if (65 <=? c) && (c <=? 90) then c + 32 else c)%N.

(** A decimal numeral at the head of [s]: its value and the rest. *)
Definition parse_decimal (s : str) : option (float * str) :=
  let (neg, s1) := take_sign s in
  let (ds, r1) := take_digits s1 in
  let (fs, r2) :=
    match r1 with
    | c :: r1' => if (c =? 46)%N then take_digits r1' else ([], r1)
    | [] => ([], [])
    end in
  match ds ++ fs with
  | [] => None
  | m =>
      let (exp, r3) := take_exponent r2 in
      let e := match exp with Some e => e | None => 0 end in
      Some (float_of_decimal neg (Z_of_digits m) (e - Z.of_nat (length fs)), r3)
  end.

(** [inf], [infinity] or [nan] at the head of [s], in any case. *)
Definition parse_inf_or_nan (s : str) : option (float * str) :=
  let (neg, s1) := take_sign s in
  let l := map lower s1 in
  if startswith l (text "inf") then
    if startswith (skipn 3 l) (text "inity") then Some (inf neg, skipn 8 s1)
    else Some (inf neg, skipn 3 s1)
  else if startswith l (text "nan") then Some (nan, skipn 3 s1)
  else None.

Definition float_of_str (s : str) : res float :=
  match drop_underscores 0%N (float_strip (map to_ascii s)) with
  | None => Raise ValueError
  | Some t =>
      let r := match parse_decimal t with
               | Some fr => Some fr
               | None => parse_inf_or_nan t
               end in
      match r with
      | Some (f, []) => Ok f
      | _ => Raise ValueError
      end
  end.

(** [f'{x:,.2f}'] groups the integer digits in threes. *)
Fixpoint group3 (rev_digits : str) : str :=
  match rev_digits with
  | a :: b :: c :: rest =>
      match rest with
      | [] => [a; b; c]
      | _ :: _ => a :: b :: c :: 44%N :: group3 rest
      end
  | short => short
  end.

Definition format_comma_2f (x : float) : str :=
  match x with
  | S754_finite s m e =>
      let h := Z.to_N (hundredths m e) in
      sign_str s ++ rev (group3 (rev (digits_of_N (h / 100))))
        ++ [46%N] ++ two_digits (h mod 100)
  | _ => format_2f x
  end.

Definition format_spec_comma_2f (v : pyval) : res str :=
  match v with
  | PFloat x => Ok (format_comma_2f x)
  | PStr _ => Raise ValueError
  | _ =>
      match as_int v with
      | Some z => x <- float_of_int z ;; Ok (format_comma_2f x)
      | None => Raise TypeError
      end
  end.

(** [for x in xs: ...] with a body that can raise *)
Fixpoint map_res {A B : Type} (f : A -> res B) (xs : list A) : res (list B) :=
  match xs with
  | [] => Ok []
  | x :: xs' => y <- f x ;; ys <- map_res f xs' ;; Ok (y :: ys)
  end.

(** [enumerate(xs, start)] *)
Fixpoint enumerate {A : Type} (start : nat) (xs : list A) : list (nat * A) :=
  match xs with
  | [] => []
  | x :: xs' => (start, x) :: enumerate (S start) xs'
  end.

Definition str_of_nat (n : nat) : str := digits_of_N (N.of_nat n).
Definition int_of_nat (n : nat) : pyval := PInt (Z.of_nat n).

(** ** The report writers of streamlit_app.py *)

(** The keys of a check record. *)
Definition Payer : str := text "Payer".
Definition Date : str := text "Date".
Definition Amount : str := text "Amount".
Definition Bank : str := text "Bank".
Definition Check_Number : str := text "Check_Number".
Definition Account : str := text "Account".
Definition Routing : str := text "Routing".
Definition Claim : str := text "Claim".

Definition schema_fields : list str :=
  [Payer; Date; Amount; Bank; Check_Number; Account; Routing; Claim].

Definition empty : pyval := PStr [].

Definition headers : list pyval :=
  map PStr [text "#"; text "Payer"; text "Date"; text "Amount"; text "Bank";
            text "Check Number"; text "Account #"; text "Routing #";
            text "Claim #"].

(** [ck.get('Amount', 0)] *)
Definition amount_of (ck : dict) : pyval := dict_get ck Amount (PInt 0).

(** The row [generate_csv] writes for the [i]-th check. *)
Definition csv_row (ick : nat * dict) : res (list pyval) :=
  let (i, ck) := ick in
  amount <- format_spec_2f (amount_of ck) ;;
  Ok [int_of_nat i; dict_get ck Payer empty; dict_get ck Date empty;
      PStr amount; dict_get ck Bank empty;
      dict_get ck Check_Number empty; dict_get ck Account empty;
      dict_get ck Routing empty; dict_get ck Claim empty].

(** [generate_csv(checks)]: the rows handed to [csv.writer], in order.  How
    a row is rendered as a line of text is the [csv] module's business. *)
Definition generate_csv (checks : list dict) : res (list (list pyval)) :=
  rows <- map_res csv_row (enumerate 1 checks) ;;
  total <- sum (map amount_of checks) ;;
  total_text <- format_spec_2f total ;;
  Ok ([headers] ++ rows
      ++ [[empty; empty; PStr (text "TOTAL"); PStr total_text;
           empty; empty; empty; empty; empty]]).

(** *** The workbook

    A worksheet is the list of its cells in the order of their creation,
    each under its (row, column) address, with the sheet-level settings the
    writer touches.  Serialising the workbook to bytes is openpyxl's
    business: [wb.save] is an operation [generate_xlsx] is given. *)

Record font : Type := mkFont {
  font_bold : bool;
  font_color : option str;
  font_name : str;
  font_size : Z
}.

Record cell : Type := mkCell {
  cell_value : pyval;
  cell_font : option font;
  cell_fill : option str;
  cell_border : bool;
  cell_horizontal : option str;
  cell_vertical : option str;
  cell_number_format : option str
}.

Record worksheet : Type := mkSheet {
  ws_title : str;
  ws_cells : list ((nat * nat) * cell);
  ws_column_widths : list (str * Z);
  ws_auto_filter : str;
  ws_freeze_panes : str
}.

(** The characters openpyxl refuses in a string cell. *)
Definition illegal_character (c : char) : bool :=
  ((c <=? 8) || (11 <=? c) && (c <=? 12) || (14 <=? c) && (c <=? 31))%N.

(** The value a cell takes when [v] is assigned to it: a string is cut to
    32767 characters and must have no illegal character; a list or a dict
    cannot be converted. *)
Definition bind_value (v : pyval) : res pyval :=
  match v with
  | PStr s =>
      let s' := firstn (N.to_nat 32767) s in
      if existsb illegal_character s'
      then Raise (LibraryError (text "IllegalCharacterError"))
      else Ok (PStr s')
  | PList _ | PDict _ => Raise ValueError
  | _ => Ok v
  end.

Definition hdr_fill : str := text "1F4E79".
Definition alt_fill : str := text "D6E4F0".
Definition money_fmt : str := text "$#,##0.00".
Definition hdr_font : font := mkFont true (Some (text "FFFFFF")) (text "Arial") 10.
Definition bold_font : font := mkFont true None (text "Arial") 10.
Definition center : option str := Some (text "center").
Definition col_widths : list Z := [4; 45; 12; 13; 35; 16; 12; 12; 20].

(** [openpyxl.utils.get_column_letter(n)] for [1 <= n <= 26] *)
Definition get_column_letter (n : nat) : str := [(64 + N.of_nat n)%N].

Definition header_cell (colh : nat * pyval) : res ((nat * nat) * cell) :=
  let (col, h) := colh in
  v <- bind_value h ;;
  Ok ((1%nat, col), mkCell v (Some hdr_font) (Some hdr_fill) true center center None).

(** The cell of data row [r] (for check number [i]) in column [col]. *)
Definition data_cell (i r : nat) (colv : nat * pyval) : res ((nat * nat) * cell) :=
  let (col, v) := colv in
  v' <- bind_value v ;;
  Ok ((r, col),
      mkCell v' None
        (if Nat.even i then Some alt_fill else None)
        true
        (if ((col =? 1) || (col =? 3) || (col =? 6))%nat then center else None)
        None
        (if (col =? 4)%nat then Some money_fmt else None)).

Definition xlsx_row (ick : nat * dict) : res (list ((nat * nat) * cell)) :=
  let (i, ck) := ick in
  let r := (i + 1)%nat in
  let vals :=
    [int_of_nat i; dict_get ck Payer empty; dict_get ck Date empty;
     amount_of ck; dict_get ck Bank empty; dict_get ck Check_Number empty;
     dict_get ck Account empty; dict_get ck Routing empty;
     dict_get ck Claim empty] in
  map_res (data_cell i r) (enumerate 1 vals).

(** Lines 169-217 of [generate_xlsx]: the worksheet of the workbook, as it
    is when the workbook is saved. *)
Definition fill_worksheet (checks : list dict) : res worksheet :=
  hdr <- map_res header_cell (enumerate 1 headers) ;;
  rows <- map_res xlsx_row (enumerate 1 checks) ;;
  let tr := (length checks + 2)%nat in
  label <- bind_value (PStr (text "TOTAL")) ;;
  formula <- bind_value
    (PStr (text "=SUM(D2:D" ++ str_of_nat (tr - 1) ++ text ")")) ;;
  let total_cells :=
    [((tr, 3%nat), mkCell label (Some bold_font) None false None None None);
     ((tr, 4%nat), mkCell formula (Some bold_font) None true None None
                     (Some money_fmt))] in
  Ok (mkSheet (text "Check Register")
        (hdr ++ concat rows ++ total_cells)
        (map (fun iw => (get_column_letter (fst iw + 1), snd iw))
             (enumerate 0 col_widths))
        (text "A1:I" ++ str_of_nat (tr - 1))
        (text "A2")).

Section Workbook.

(** Lines 219-221, [wb.save(buf)] into a fresh buffer: the bytes openpyxl
    writes for the workbook, or the exception it raises while it
    serialises the cells (on an int beyond the range of a float, for
    one). *)
Variable wb_save : worksheet -> res bytes.

(** [generate_xlsx(checks)]: the content of the buffer it returns. *)
Definition generate_xlsx (checks : list dict) : res bytes :=
  ws <- fill_worksheet checks ;;
  wb_save ws.

End Workbook.

(** ** The page extractor *)

(** [re.search(r'\{[^{}]*\}', text, re.DOTALL)]

    [brace_free_block s] reads [[^{}]*\}] at the head of [s]: the characters
    up to the next brace, provided that brace closes. *)
Fixpoint brace_free_block (s : str) : option str :=
  match s with
  | [] => None
  | c :: s' =>
      if (c =? 125)%N then Some [c]
      else if (c =? 123)%N then None
      else option_map (cons c) (brace_free_block s')
  end.

(** The leftmost match of the pattern in [s] ([match.group(0)]), if any. *)
Fixpoint re_search_object (s : str) : option str :=
  match s with
  | [] => None
  | c :: s' =>
      if (c =? 123)%N then
        match brace_free_block s' with
        | Some m => Some (c :: m)
        | None => re_search_object s'
        end
      else re_search_object s'
  end.

(** [xs[i]] *)
Definition getitem {A : Type} (xs : list A) (i : nat) : res A :=
  match nth_error xs i with
  | Some x => Ok x
  | None => Raise IndexError
  end.

Definition fence : str := text "```".
Definition newline : str := [10%N].

(** Lines 152-155: the clean-up of markdown fencing. *)
Definition strip_fence (t : str) : res str :=
  if startswith t fence then
    t1 <- getitem (split1 t newline) 1 ;;
    t2 <- getitem (rsplit1 t1 fence) 0 ;;
    Ok (strip t2)
  else Ok t.

(** Lines 157-159: the JSON object found in the response, else the text. *)
Definition find_object (t : str) : str :=
  match re_search_object t with
  | Some m => m
  | None => t
  end.

(** [data.get] exists on a [dict] only. *)
Definition as_dict (v : pyval) : res dict :=
  match v with
  | PDict d => Ok d
  | _ => Raise AttributeError
  end.

(** Lines 161-164: a string amount loses its commas and dollar signs and
    becomes a [float]. *)
Definition ensure_amount (data : dict) : res dict :=
  match dict_lookup data Amount with
  | Some (PStr s) =>
      x <- float_of_str (replace (replace s (text ",") []) (text "$") []) ;;
      Ok (dict_set data Amount (PFloat x))
  | _ => Ok data
  end.

(** Lines 150-164 of [parse_check]: from the text of the response to the
    record. *)
Definition parse_response_text (raw : str) : res dict :=
  t <- strip_fence (strip raw) ;;
  v <- json_loads (find_object t) ;;
  data <- as_dict v ;;
  ensure_amount data.

(** *** The inference service

    A response is a list of content blocks, of which text blocks carry a
    [text] attribute.  The client is an object with state of its own: a
    call returns a response or raises, and leaves the client in a new
    state. *)

Inductive block : Type :=
| TextBlock (t : str)
| OtherBlock.

Record response : Type := mkResponse { content : list block }.

Definition block_text (b : block) : res str :=
  match b with
  | TextBlock t => Ok t
  | OtherBlock => Raise AttributeError
  end.

Record request : Type := mkRequest {
  req_model : str;
  req_max_tokens : Z;
  req_media_type : str;
  req_data : str;
  req_prompt : str
}.

Section Extraction.

Variable Client : Type.
Variable messages_create : Client -> request -> res response * Client.
Variable EXTRACTION_PROMPT : str.

(** [parse_check(client, img_b64, media_type)], with the client's next
    state. *)
Definition parse_check (client : Client) (img_b64 media_type : str)
  : res dict * Client :=
  let (r, client') :=
    messages_create client
      (mkRequest (text "claude-sonnet-4-5-20250929") 2048 media_type img_b64
         EXTRACTION_PROMPT) in
  (response <- r ;;
   b <- getitem (content response) 0 ;;
   raw <- block_text b ;;
   parse_response_text raw,
   client').

(** What the page shows for a page that failed: the call
    [st.error(f'Error parsing check {idx + 1}: {e}')]. *)
Record page_error : Type := mkPageError {
  error_page : nat;
  error_exc : exc
}.

(** Lines 252-261: the batch loop, from page [idx] on, with the records
    and the error messages so far.  The calls that only draw on the page
    (the progress bar, the spinner, the info line) are left out. *)
Fixpoint parse_loop (client : Client) (idx : nat) (images : list (str * str))
  (checks : list dict) (errors : list page_error)
  : res (list dict * list page_error) :=
  match images with
  | [] => Ok (checks, errors)
  | (img_b64, media_type) :: rest =>
      let (r, client') := parse_check client img_b64 media_type in
      st <- try_except
              (check_data <- r ;; Ok (checks ++ [check_data], errors))
              (fun e => Ok (checks, errors ++ [mkPageError (idx + 1) e])) ;;
      parse_loop client' (S idx) rest (fst st) (snd st)
  end.

Definition parse_all (client : Client) (images : list (str * str))
  : res (list dict * list page_error) :=
  parse_loop client 0 images [] [].

End Extraction.

(** ** Decomposition of the uploads into page images *)

Record upload : Type := mkUpload {
  upload_raw : bytes;
  upload_type : str
}.

Definition pdf_type : str := text "application/pdf".
Definition png_type : str := text "image/png".

Section Decomposition.

(** PIL, pdf2image and base64. *)
Variable Image : Type.
Variable convert_from_bytes : bytes -> Z -> res (list Image).
Variable Image_open : bytes -> res Image.
Variable image_mode : Image -> str.
Variable image_convert : Image -> str -> res Image.
Variable enhance_contrast : Image -> float -> res Image.
Variable enhance_sharpness : Image -> float -> res Image.
Variable save_png : Image -> res bytes.
Variable b64encode : bytes -> str.

Definition enhance_image (img : Image) : res Image :=
  img1 <- (if str_eqb (image_mode img) (text "RGB") then Ok img
           else image_convert img (text "RGB")) ;;
  img2 <- enhance_contrast img1 (float_of_decimal false 15 (-1)) ;;
  enhance_sharpness img2 (float_of_decimal false 20 (-1)).

Definition image_to_base64 (img : Image) : res str :=
  img' <- enhance_image img ;;
  png <- save_png img' ;;
  Ok (b64encode png).

Definition bytes_to_base64 (data : bytes) (mime : str) : res (str * str) :=
  try_except
    (img <- Image_open data ;;
     b64 <- image_to_base64 img ;;
     Ok (b64, png_type))
    (fun _ => Ok (b64encode data, mime)).

(** The images one upload contributes. *)
Definition images_of_upload (f : upload) : res (list (str * str)) :=
  if str_eqb (upload_type f) pdf_type then
    pages <- convert_from_bytes (upload_raw f) 300 ;;
    map_res (fun page => b64 <- image_to_base64 page ;; Ok (b64, png_type)) pages
  else
    b64mime <- bytes_to_base64 (upload_raw f)
                 (match upload_type f with [] => png_type | t => t end) ;;
    Ok [b64mime].

(** The loop of [get_images_from_uploads], with the images so far. *)
Fixpoint get_images_loop (files : list upload) (images : list (str * str))
  : res (list (str * str)) :=
  match files with
  | [] => Ok images
  | f :: rest =>
      new <- images_of_upload f ;;
      get_images_loop rest (images ++ new)
  end.

Definition get_images_from_uploads (files : list upload) : res (list (str * str)) :=
  get_images_loop files [].

(** ** The processing block, lines 243-303 *)

Variable Client : Type.
Variable messages_create : Client -> request -> res response * Client.
Variable EXTRACTION_PROMPT : str.

(** [st.table(display_data)]: of the calls that draw on the page, the one
    that is handed values of the records, and that raises on a value it
    cannot display. *)
Variable st_table : list dict -> res unit.

(** [wb.save], as [generate_xlsx] uses it. *)
Variable wb_save : worksheet -> res bytes.

(** A row of the table the page displays. *)
Definition display_row (ick : nat * dict) : res dict :=
  let (i, ck) := ick in
  amount <- format_spec_comma_2f (dict_get ck Amount (PInt 0)) ;;
  Ok [(text "#", int_of_nat i);
      (text "Payer", dict_get ck Payer empty);
      (text "Date", dict_get ck Date empty);
      (text "Amount", PStr (text "$" ++ amount));
      (text "Bank", dict_get ck Bank empty);
      (text "Check #", dict_get ck Check_Number empty)].

Record results : Type := mkResults {
  res_total : pyval;
  res_metric : str;
  res_table : list dict;
  res_xlsx : bytes;
  res_csv : list (list pyval)
}.

(** Lines 265-303: what is shown and offered for download; nothing when
    no check was parsed.  The calls that draw a text or a button of the
    program's own making (the subheader, the metric, the columns and the
    download buttons) are left out. *)
Definition results_block (checks : list dict) : res (option results) :=
  match checks with
  | [] => Ok None
  | _ :: _ =>
      total <- sum (map (fun c => dict_get c Amount (PInt 0)) checks) ;;
      metric <- format_spec_comma_2f total ;;
      display_data <- map_res display_row (enumerate 1 checks) ;;
      shown <- st_table display_data ;;
      xlsx_buf <- generate_xlsx wb_save checks ;;
      csv_data <- generate_csv checks ;;
      Ok (Some (mkResults total (text "$" ++ metric) display_data xlsx_buf csv_data))
  end.

Record outcome : Type := mkOutcome {
  out_images : list (str * str);
  out_checks : list dict;
  out_errors : list page_error;
  out_results : option results
}.

(** One press of the button: decomposition, the batch loop, the results. *)
Definition process (client : Client) (uploaded_files : list upload) : res outcome :=
  images <- get_images_from_uploads uploaded_files ;;
  st <- parse_all Client messages_create EXTRACTION_PROMPT client images ;;
  r <- results_block (fst st) ;;
  Ok (mkOutcome images (fst st) (snd st) r).

End Decomposition.

(** * Notions the statements use *)

Section Outcomes.

Variable Client : Type.
Variable messages_create : Client -> request -> res response * Client.
Variable EXTRACTION_PROMPT : str.

(** What [parse_check] does on each page in turn, the client going from
    one call to the next. *)
Fixpoint page_outcomes (client : Client) (images : list (str * str))
  : list (res dict) :=
  match images with
  | [] => []
  | (img_b64, media_type) :: rest =>
      let (r, client') :=
        parse_check Client messages_create EXTRACTION_PROMPT client img_b64 media_type in
      r :: page_outcomes client' rest
  end.

(** The service fails with ordinary errors only. *)
Definition service_errors_are_Exceptions : Prop :=
  forall client req e client',
    messages_create client req = (Raise e, client') -> is_Exception e = true.

End Outcomes.

(** The records of the pages that succeeded, in page order. *)
Fixpoint successes (outs : list (res dict)) : list dict :=
  match outs with
  | [] => []
  | Ok d :: outs' => d :: successes outs'
  | Raise _ :: outs' => successes outs'
  end.

(** The failed pages, in page order, each with its number counted from
    [first] and the exception it raised. *)
Fixpoint failures (first : nat) (outs : list (res dict)) : list page_error :=
  match outs with
  | [] => []
  | Ok _ :: outs' => failures (S first) outs'
  | Raise e :: outs' => mkPageError first e :: failures (S first) outs'
  end.

(** A service for experiments: it answers the successive calls with the
    successive entries of a script, and fails once the script is used up. *)
Definition scripted_client : Type := list (res response).

Definition scripted_create (c : scripted_client) (_ : request)
  : res response * scripted_client :=
  match c with
  | r :: c' => (r, c')
  | [] => (Raise (LibraryError (text "APIError")), [])
  end.

Definition reply (t : str) : res response := Ok (mkResponse [TextBlock t]).

(** Imaging libraries for experiments: an image is its bytes, a document
    rasterizes to a single page when it starts with the PDF signature and
    is refused otherwise, and every other operation is the identity. *)
Definition toy_convert_from_bytes (raw : bytes) (_ : Z) : res (list bytes) :=
  if startswith raw (text "%PDF") then Ok [raw]
  else Raise (LibraryError (text "PDFPageCountError")).

(** A page and a workbook writer for experiments: the table takes any
    rows, and a saved workbook is the signature of its archive. *)
Definition toy_st_table (_ : list dict) : res unit := Ok tt.
Definition toy_wb_save (_ : worksheet) : res bytes := Ok (text "PK").

Definition toy_process : scripted_client -> list upload -> res outcome :=
  process bytes toy_convert_from_bytes
    (fun raw => Ok raw) (fun _ => text "RGB") (fun img _ => Ok img)
    (fun img _ => Ok img) (fun img _ => Ok img) (fun img => Ok img)
    (fun raw => raw)
    scripted_client scripted_create [] toy_st_table toy_wb_save.

Definition toy_decompose : list upload -> res (list (str * str)) :=
  get_images_from_uploads bytes toy_convert_from_bytes
    (fun raw => Ok raw) (fun _ => text "RGB") (fun img _ => Ok img)
    (fun img _ => Ok img) (fun img _ => Ok img) (fun img => Ok img)
    (fun raw => raw).

(** No brace occurs in [s]. *)
Definition brace_free (s : str) : Prop :=
  forall c, In c s -> c <> 123%N /\ c <> 125%N.

(** [m] is an opening brace, brace-free text and a closing brace. *)
Definition flat_object_text (m : str) : Prop :=
  exists mid, m = 123%N :: mid ++ [125%N] /\ brace_free mid.

(** The first balanced brace-delimited substring, as the specification
    words it: from the first opening brace to the closing brace that
    brings the nesting depth back to zero. *)
Fixpoint balanced_tail (depth : nat) (s : str) : option str :=
  match s with
  | [] => None
  | c :: s' =>
      if (c =? 123)%N then option_map (cons c) (balanced_tail (S depth) s')
      else if (c =? 125)%N then
        match depth with
        | O => Some [c]
        | S d => option_map (cons c) (balanced_tail d s')
        end
      else option_map (cons c) (balanced_tail depth s')
  end.

Fixpoint first_balanced_object (s : str) : option str :=
  match s with
  | [] => None
  | c :: s' =>
      if (c =? 123)%N then
        match balanced_tail 0 s' with
        | Some m => Some (c :: m)
        | None => first_balanced_object s'
        end
      else first_balanced_object s'
  end.

(** The characters of [s] other than the comma and the dollar sign. *)
Definition without_commas_and_dollars (s : str) : str :=
  filter (fun c => negb ((c =? 44)%N || (c =? 36)%N)) s.

(** An amount as a number of hundredths, read back from its two-decimal
    text. *)
Definition hundredths_of_text (t : str) : Z :=
  let (neg, t1) := take_sign t in
  let h := Z_of_digits (filter is_digit t1) in
  if neg then - h else h.

Definition cell_hundredths (v : pyval) : Z :=
  match v with
  | PStr t => hundredths_of_text t
  | _ => 0
  end.

(** Column 4 of a row, the amount column. *)
Definition amount_column (row : list pyval) : pyval := nth 3 row PNone.

(** The sum of floats from the left, starting from zero. *)
Definition float_sum (xs : list float) : float :=
  fold_left float_add xs (S754_zero false).

(** The float an amount stands for when it is a float or is absent. *)
Definition amount_float (ck : dict) : float :=
  match dict_lookup ck Amount with
  | Some (PFloat x) => x
  | _ => S754_zero false
  end.

Definition total_float (v : pyval) : float :=
  match v with
  | PFloat x => x
  | _ => S754_zero false
  end.

(** The amount of the record is a float or an int, or is absent. *)
Definition number_amount (ck : dict) : Prop :=
  match dict_lookup ck Amount with
  | Some (PFloat _) | Some (PInt _) | None => True
  | Some _ => False
  end.

(** The absolute value of an int amount, 0 for any other. *)
Definition amount_magnitude (ck : dict) : Z :=
  match dict_lookup ck Amount with
  | Some (PInt z) => Z.abs z
  | _ => 0
  end.

Definition int_bound : Z := 2 ^ 1000.

(** The amounts are numbers or absent, and the int amounts are not beyond
    all bounds: in absolute value they add up to less than [2^1000], so
    that each of them, and each sum of them, converts to a float. *)
Definition amounts_in_range (checks : list dict) : Prop :=
  Forall number_amount checks
  /\ fold_right Z.add 0 (map amount_magnitude checks) < int_bound.

(** The float a number stands for. *)
Definition value_float (v : pyval) : float :=
  match v with
  | PFloat x => x
  | PInt z => float_of_Z z
  | _ => S754_zero false
  end.

(** The amount of the record is a float, or is absent. *)
Definition float_amount (ck : dict) : Prop :=
  match dict_lookup ck Amount with
  | Some (PFloat _) | None => True
  | Some _ => False
  end.

(** The amount of the record is an int, or is absent. *)
Definition int_amount (ck : dict) : Prop :=
  match dict_lookup ck Amount with
  | Some (PInt _) | None => True
  | Some _ => False
  end.

Definition amount_int (ck : dict) : Z :=
  match dict_lookup ck Amount with
  | Some (PInt z) => z
  | _ => 0
  end.

(** Every field of the record that is present is one a worksheet cell
    accepts. *)
Definition cells_accept (ck : dict) : Prop :=
  forall k v, In k schema_fields -> dict_lookup ck k = Some v ->
              exists v', bind_value v = Ok v'.

(** Every page that failed did so with an ordinary error, one that derives
    from [Exception]. *)
Definition ordinary_failures (outs : list (res dict)) : bool :=
  forallb (fun r => match r with
                    | Ok _ => true
                    | Raise e => is_Exception e
                    end) outs.

(** ** Sample inputs *)

Definition three_pages : list (str * str) :=
  [(text "page-1", png_type); (text "page-2", png_type); (text "page-3", png_type)].

Definition answer_1 : str := jtext "{'Payer': 'A', 'Amount': 10.5}".
Definition answer_2 : str := text "Sorry, I cannot read this check.".
Definition answer_3 : str := jtext "{'Payer': 'C', 'Amount': 20}".

Definition three_answers : scripted_client :=
  [reply answer_1; reply answer_2; reply answer_3].

Definition record_1 : dict :=
  [(Payer, PStr (text "A")); (Amount, PFloat (float_of_decimal false 105 (-1)))].
Definition record_3 : dict :=
  [(Payer, PStr (text "C")); (Amount, PInt 20)].

Definition three_uploads : list upload :=
  [mkUpload (text "page-1") png_type; mkUpload (text "page-2") png_type;
   mkUpload (text "page-3") png_type].

Definition torn_pdf : upload := mkUpload (text "not a pdf at all") pdf_type.
Definition good_scan : upload := mkUpload (text "page-1") png_type.

Definition dollar_answer : str := jtext "{'Amount': '$1,204.50'}".
Definition euro_answer : str := jtext "{'Amount': '\u20ac1,204.50'}".
Definition null_answer : str := jtext "{'Amount': null}".
Definition empty_answer : str := jtext "{}".
Definition nested_answer : str := jtext "{'check': {'Payer': 'A'}}".
Definition braces_answer : str := jtext "{'Payer': 'ACME {East}', 'Amount': 5}".
Definition chatty_answer : str :=
  jtext "Here is the data: {'Payer': 'A', 'Amount': 7} I hope this helps.".

(** 1204.5 as a binary64 number: 5297447022624768 / 2^42. *)
Definition float_1204_50 : float := S754_finite false 5297447022624768 (-42).

(** ** The rows of the report, as the statements describe them *)

(** The data row of check number [i], its amount a number or absent. *)
Definition csv_line (ick : nat * dict) : list pyval :=
  let (i, ck) := ick in
  [int_of_nat i; dict_get ck Payer empty; dict_get ck Date empty;
   PStr (format_2f (value_float (amount_of ck))); dict_get ck Bank empty;
   dict_get ck Check_Number empty; dict_get ck Account empty;
   dict_get ck Routing empty; dict_get ck Claim empty].

(** The total row for the total [x]. *)
Definition total_line (x : float) : list pyval :=
  [empty; empty; PStr (text "TOTAL"); PStr (format_2f x);
   empty; empty; empty; empty; empty].

(** The text fields with the position of their column in a row, counted
    from zero. *)
Definition text_columns : list (str * nat) :=
  [(Payer, 1%nat); (Date, 2%nat); (Bank, 4%nat); (Check_Number, 5%nat);
   (Account, 6%nat); (Routing, 7%nat); (Claim, 8%nat)].

(** A two-decimal text: digits, a point and two digits, under an optional
    minus sign. *)
Definition two_decimal_text (t : str) : Prop :=
  exists (neg : bool) (whole : str) (d1 d2 : char),
    t = sign_str neg ++ whole ++ [46%N; d1; d2]
    /\ whole <> [] /\ forallb is_digit whole = true
    /\ is_digit d1 = true /\ is_digit d2 = true.

Definition is_finite (x : float) : bool :=
  match x with
  | S754_zero _ | S754_finite _ _ _ => true
  | _ => false
  end.

Definition eighth : float := float_of_decimal false 125 (-3).
Definition two_eighths : list dict := [[(Amount, PFloat eighth)]; [(Amount, PFloat eighth)]].
Definition eighth_answer : str := jtext "{'Amount': 0.125}".

(** The running total of a sum of amounts that are floats or absent: the
    int 0 until a float comes, a float from then on. *)
Definition zero_or_float (v : pyval) : Prop :=
  v = PInt 0 \/ exists x, v = PFloat x.

(** A running total of amounts in range: a float, or an int within the
    bound [b]. *)
Definition float_or_within (b : Z) (v : pyval) : Prop :=
  (exists x, v = PFloat x) \/ (exists z, v = PInt z /\ Z.abs z <= b).


(** The values [generate_xlsx] puts in the row of a check. *)
Definition xlsx_values (i : nat) (ck : dict) : list pyval :=
  [int_of_nat i; dict_get ck Payer empty; dict_get ck Date empty;
   amount_of ck; dict_get ck Bank empty; dict_get ck Check_Number empty;
   dict_get ck Account empty; dict_get ck Routing empty;
   dict_get ck Claim empty].


(** A record with a payer and nothing else. *)
Definition payer_only : dict := [(Payer, PStr (text "A"))].

(** A response whose amount is the integer 10^400, and one whose payer
    holds the control character U+0001. *)
Definition huge_amount_answer : str :=
  jtext "{'Amount': 1" ++ repeat 48%N 400 ++ jtext "}".
Definition control_payer_answer : str := jtext "{'Payer': 'A\u0001'}".

(** ** Notions for the further properties *)

(** A result that is a value or an ordinary error. *)
Definition ordinary {A : Type} (r : res A) : bool :=
  match r with
  | Ok _ => true
  | Raise e => is_Exception e
  end.

(** The media type an image upload is sent under when it cannot be
    decoded: its declared type, or PNG when it declares none. *)
Definition declared_type (f : upload) : str :=
  match upload_type f with
  | [] => png_type
  | t => t
  end.

Definition toy_images_of : upload -> res (list (str * str)) :=
  images_of_upload bytes toy_convert_from_bytes
    (fun raw => Ok raw) (fun _ => text "RGB") (fun img _ => Ok img)
    (fun img _ => Ok img) (fun img _ => Ok img) (fun img => Ok img)
    (fun raw => raw).

Definition one_page_pdf : upload := mkUpload (text "%PDF-1.7 one page") pdf_type.

(** A fenced answer, and the same without its fence. *)
Definition fenced_body : str := jtext "{'Payer': 'A', 'Amount': '7'}".
Definition fenced_answer : str :=
  fence ++ text "json" ++ newline ++ fenced_body ++ newline ++ fence.

(** A response that gives the payer twice. *)
Definition repeated_key_answer : str :=
  jtext "{'Payer': 'A', 'Amount': 1, 'Payer': 'B'}".

(** The text has no backquote. *)
Definition backquote_free (s : str) : Prop := ~ In 96%N s.

(** The text with its commas taken out. *)
Definition without_commas (s : str) : str :=
  filter (fun c => negb (c =? 44)%N) s.

(** The two records have the same eight fields. *)
Definition same_fields (a b : dict) : Prop :=
  forall k, In k schema_fields -> dict_lookup a k = dict_lookup b k.

(** The first sample record with a key of its own before and after. *)
Definition annotated_record_1 : dict :=
  [(text "Memo", PStr (text "rent")); (Amount, PFloat (float_of_decimal false 105 (-1)));
   (Payer, PStr (text "A")); (text "confidence", PFloat eighth)].

(** The worksheet of the first and the third sample record. *)
Definition two_checks_sheet : worksheet :=
  match fill_worksheet [record_1; record_3] with
  | Ok ws => ws
  | Raise _ => mkSheet [] [] [] [] []
  end.

(** The looks of a cell of the header row, of the row of a check and of
    the total row. *)
Definition header_style (cl : cell) : Prop :=
  cell_font cl = Some hdr_font /\ cell_fill cl = Some hdr_fill
  /\ cell_border cl = true
  /\ cell_horizontal cl = center /\ cell_vertical cl = center
  /\ cell_number_format cl = None.

Definition data_style (r c : nat) (cl : cell) : Prop :=
  cell_font cl = None
  /\ cell_fill cl = (if Nat.odd r then Some alt_fill else None)
  /\ cell_border cl = true
  /\ cell_horizontal cl
     = (if ((c =? 1) || (c =? 3) || (c =? 6))%nat then center else None)
  /\ cell_vertical cl = None
  /\ cell_number_format cl = (if (c =? 4)%nat then Some money_fmt else None).

Definition total_style (c : nat) (cl : cell) : Prop :=
  cell_font cl = Some bold_font /\ cell_fill cl = None
  /\ cell_border cl = (c =? 4)%nat
  /\ cell_horizontal cl = None /\ cell_vertical cl = None
  /\ cell_number_format cl = (if (c =? 4)%nat then Some money_fmt else None).

(** A record whose claim is a list, as the JSON object with the member
    [Claim: [1, 2]] gives it. *)
Definition list_claim_record : dict :=
  [(Payer, PStr (text "A")); (Claim, PList [PInt 1; PInt 2])].

(** The value is an [int], a [bool] or a [float]. *)
Definition is_number (v : pyval) : bool :=
  match v with
  | PInt _ | PBool _ | PFloat _ => true
  | _ => false
  end.

(** The record of a response whose amount is [null]. *)
Definition null_amount_record : dict :=
  [(Payer, PStr (text "B")); (Amount, PNone)].

(** What the page shows for the first and the third sample record. *)
Definition two_checks_results : results :=
  match results_block toy_st_table toy_wb_save [record_1; record_3] with
  | Ok (Some r) => r
  | _ => mkResults PNone [] [] [] []
  end.

(** ** The requests of a batch *)

Section Requests.

Variable Client : Type.
Variable messages_create : Client -> request -> res response * Client.
Variable EXTRACTION_PROMPT : str.

(** The request [parse_check] sends for an image. *)
Definition request_of (image : str * str) : request :=
  mkRequest (text "claude-sonnet-4-5-20250929") 2048 (snd image) (fst image)
    EXTRACTION_PROMPT.

(** The client after the requests, sent one after the other. *)
Definition client_after (client : Client) (reqs : list request) : Client :=
  fold_left (fun c req => snd (messages_create c req)) reqs client.

End Requests.

(** The first failure that does not derive from [Exception], if any. *)
Fixpoint first_fatal (outs : list (res dict)) : option exc :=
  match outs with
  | [] => None
  | Raise e :: outs' => if is_Exception e then first_fatal outs' else Some e
  | Ok _ :: outs' => first_fatal outs'
  end.

(** A script in which the second call is interrupted from the keyboard. *)
Definition interrupted_answers : scripted_client :=
  [reply answer_1; Raise KeyboardInterrupt; reply answer_3].

(** The outcome of the run over the three sample uploads. *)
Definition three_uploads_outcome : outcome :=
  match toy_process three_answers three_uploads with
  | Ok out => out
  | Raise _ => mkOutcome [] [] [] None
  end.

(** * Lemmas *)

Ltac case_match :=
  match goal with
  | H : context [match ?x with _ => _ end] |- _ => destruct x eqn:?
  | |- context [match ?x with _ => _ end] => destruct x eqn:?
  end.

Ltac inv H := inversion H; subst; clear H.

(** ** The decoder never runs out of fuel *)

Lemma skip_ws_length s : (length (skip_ws s) <= length s)%nat.
Proof.
  induction s as [|c s IH]; simpl; [lia|].
  destruct (is_json_ws c); simpl; lia.
Qed.

Lemma hex4_length s u r : hex4 s = Some (u, r) -> (length r + 4 = length s)%nat.
Proof.
  unfold hex4. intros H.
  do 4 (destruct s as [|? s]; [discriminate|]).
  repeat case_match; try discriminate. inv H. simpl. lia.
Qed.

Lemma unicode_escape_length u r ch r' :
  unicode_escape u r = Some (ch, r') -> (length r' <= length r)%nat.
Proof.
  unfold unicode_escape. intros H.
  destruct (is_high_surrogate u && startswith r [92%N; 117%N]).
  - destruct (hex4 (skipn 2 r)) as [[u2 r2]|] eqn:E; [|discriminate].
    apply hex4_length in E. rewrite length_skipn in E.
    destruct (is_low_surrogate u2); inv H; lia.
  - inv H. lia.
Qed.

Lemma scanstring_rest n : forall s t r,
  scanstring n s = Some (t, r) -> (length r < length s)%nat.
Proof.
  induction n as [|n IH]; intros s t r H; simpl in H; [discriminate|].
  destruct s as [|c s]; [discriminate|].
  destruct (c =? 34)%N.
  { inv H. simpl. lia. }
  destruct (c =? 92)%N.
  - destruct s as [|e s]; [discriminate|].
    destruct (e =? 117)%N.
    + destruct (hex4 s) as [[u r0]|] eqn:E1; [|discriminate].
      destruct (unicode_escape u r0) as [[ch r1]|] eqn:E2; [|discriminate].
      destruct (scanstring n r1) as [[t0 rest]|] eqn:E3; [|discriminate].
      inv H. apply IH in E3. apply hex4_length in E1.
      apply unicode_escape_length in E2. simpl. lia.
    + destruct (simple_escape e); [|discriminate].
      destruct (scanstring n s) as [[t0 rest]|] eqn:E3; [|discriminate].
      inv H. apply IH in E3. simpl. lia.
  - destruct (c <? 32)%N; [discriminate|].
    destruct (scanstring n s) as [[t0 rest]|] eqn:E3; [|discriminate].
    inv H. apply IH in E3. simpl. lia.
Qed.

(** With fuel beyond the length of the input, [scanstring] does not depend
    on the fuel. *)
Lemma scanstring_fuel n : forall s m,
  (length s < n)%nat -> (n <= m)%nat -> scanstring m s = scanstring n s.
Proof.
  induction n as [|n IH]; intros s m Hs Hm; [lia|].
  destruct m as [|m]; [lia|]. simpl.
  destruct s as [|c s]; [reflexivity|]. simpl in Hs.
  destruct (c =? 34)%N; [reflexivity|].
  destruct (c =? 92)%N.
  - destruct s as [|e s]; [reflexivity|]. simpl in Hs.
    destruct (e =? 117)%N.
    + destruct (hex4 s) as [[u r0]|] eqn:E1; [|reflexivity].
      destruct (unicode_escape u r0) as [[ch r1]|] eqn:E2; [|reflexivity].
      apply hex4_length in E1. apply unicode_escape_length in E2.
      rewrite (IH r1 m) by lia. reflexivity.
    + destruct (simple_escape e); [|reflexivity].
      rewrite (IH s m) by lia. reflexivity.
  - destruct (c <? 32)%N; [reflexivity|].
    rewrite (IH s m) by lia. reflexivity.
Qed.

Lemma take_digits_length s ds r :
  take_digits s = (ds, r) -> (length ds + length r = length s)%nat.
Proof.
  revert ds r. induction s as [|c s IH]; intros ds r H; simpl in H.
  - inv H. reflexivity.
  - destruct (is_digit c).
    + destruct (take_digits s) as [ds0 r0]. inv H.
      specialize (IH _ _ eq_refl). simpl. lia.
    + inv H. reflexivity.
Qed.

Lemma take_sign_length s neg r :
  take_sign s = (neg, r) -> (length r <= length s)%nat.
Proof.
  unfold take_sign. destruct s as [|c s]; intros H.
  - inv H. lia.
  - destruct (c =? 45)%N; [inv H; simpl; lia|].
    destruct (c =? 43)%N; inv H; simpl; lia.
Qed.

Lemma take_exponent_length s e r :
  take_exponent s = (e, r) -> (length r <= length s)%nat.
Proof.
  unfold take_exponent. destruct s as [|c s]; intros H.
  - inv H. lia.
  - destruct ((c =? 101) || (c =? 69))%N; [|inv H; lia].
    destruct (take_sign s) as [neg r1] eqn:E1.
    destruct (take_digits r1) as [es r2] eqn:E2.
    apply take_sign_length in E1. apply take_digits_length in E2.
    destruct es; inv H; simpl in *; lia.
Qed.

Lemma take_fraction_length s f r :
  take_fraction s = (f, r) -> (length r <= length s)%nat.
Proof.
  unfold take_fraction. destruct s as [|c s]; intros H.
  - inv H. lia.
  - destruct (c =? 46)%N; [|inv H; lia].
    destruct (take_digits s) as [fs r'] eqn:E. apply take_digits_length in E.
    destruct fs; inv H; simpl in *; lia.
Qed.

Lemma match_number_rest s v r :
  match_number s = Some (v, r) -> (length r < length s)%nat.
Proof.
  unfold match_number. intros H.
  destruct (match s with
            | [] => (false, [])
            | c :: r0 => if (c =? 45)%N then (true, r0) else (false, s)
            end) as [neg s1] eqn:E0.
  assert (length s1 <= length s)%nat as Hs1.
  { destruct s as [|c s]; [inv E0; lia|].
    destruct (c =? 45)%N; inv E0; simpl; lia. }
  destruct s1 as [|c r0]; [discriminate|].
  destruct (is_digit c); [|discriminate].
  destruct (if (c =? 48)%N then ([], r0) else take_digits r0) as [ds r1] eqn:E1.
  assert (length r1 <= length r0)%nat as Hr1.
  { destruct (c =? 48)%N; [inv E1; lia|]. apply take_digits_length in E1. lia. }
  destruct (take_fraction r1) as [frac r2] eqn:E2. apply take_fraction_length in E2.
  destruct (take_exponent r2) as [exp r3] eqn:E3. apply take_exponent_length in E3.
  simpl in Hs1.
  destruct frac, exp; inv H; lia.
Qed.

Lemma skip_ws_cons r c1 r1 :
  skip_ws r = c1 :: r1 -> (length r1 < length r)%nat.
Proof.
  intros H. pose proof (skip_ws_length r) as L. rewrite H in L. simpl in L. lia.
Qed.

(** What is left after some characters of a non-empty text were skipped
    is shorter than the text. *)
Ltac skipped :=
  match goal with
  | |- context [length (_ :: ?s)] =>
      simpl; repeat (destruct s as [|? s]; simpl; try lia)
  end.

(** Whatever is decoded, something of the input is consumed. *)
Lemma scan_rest n :
  (forall s v r, scan_once n s = Some (v, r) -> (length r < length s)%nat)
  /\ (forall s acc v r,
        object_members n s acc = Some (v, r) -> (length r < length s)%nat)
  /\ (forall s acc v r,
        array_items n s acc = Some (v, r) -> (length r < length s)%nat).
Proof.
  induction n as [|n (IHs & IHo & IHa)].
  { repeat split; intros; discriminate. }
  split; [|split].
  - intros s v r H. cbn [scan_once object_members array_items] in H.
    destruct s as [|c s0]; [discriminate|].
    destruct (c =? 34)%N.
    { destruct (scanstring (S (length s0)) s0) as [[t r']|] eqn:E; [|discriminate].
      inv H. apply scanstring_rest in E. simpl. lia. }
    destruct (c =? 123)%N.
    { destruct (skip_ws s0) as [|c1 r1] eqn:E; [discriminate|].
      apply skip_ws_cons in E.
      destruct (c1 =? 125)%N; [inv H; simpl; lia|].
      destruct (c1 =? 34)%N; [|discriminate].
      apply IHo in H. simpl. lia. }
    destruct (c =? 91)%N.
    { destruct (skip_ws s0) as [|c1 r1] eqn:E; [discriminate|].
      pose proof (skip_ws_length s0) as L. rewrite E in L.
      destruct (c1 =? 93)%N; [inv H; simpl in *; lia|].
      apply IHa in H. simpl in *. lia. }
    destruct (startswith (c :: s0) (text "null"));
      [injection H as _ <-; skipped|].
    destruct (startswith (c :: s0) (text "true"));
      [injection H as _ <-; skipped|].
    destruct (startswith (c :: s0) (text "false"));
      [injection H as _ <-; skipped|].
    destruct (match_number (c :: s0)) as [[v0 r0]|] eqn:E.
    { inv H. now apply match_number_rest in E. }
    destruct (startswith (c :: s0) (text "NaN"));
      [injection H as _ <-; skipped|].
    destruct (startswith (c :: s0) (text "Infinity"));
      [injection H as _ <-; skipped|].
    destruct (startswith (c :: s0) (text "-Infinity"));
      [injection H as _ <-; skipped|].
    discriminate.
  - intros s acc v r H. cbn [scan_once object_members array_items] in H.
    destruct (scanstring (S (length s)) s) as [[key r1]|] eqn:E1; [|discriminate].
    apply scanstring_rest in E1.
    destruct (skip_ws r1) as [|c r2] eqn:E2; [discriminate|].
    apply skip_ws_cons in E2.
    destruct (c =? 58)%N; [|discriminate].
    destruct (scan_once n (skip_ws r2)) as [[v0 r3]|] eqn:E3; [|discriminate].
    apply IHs in E3. pose proof (skip_ws_length r2) as L2.
    destruct (skip_ws r3) as [|c2 r4] eqn:E4; [discriminate|].
    apply skip_ws_cons in E4.
    destruct (c2 =? 125)%N; [inv H; lia|].
    destruct (c2 =? 44)%N; [|discriminate].
    destruct (skip_ws r4) as [|c3 r5] eqn:E5; [discriminate|].
    apply skip_ws_cons in E5.
    destruct (c3 =? 34)%N; [|discriminate].
    apply IHo in H. lia.
  - intros s acc v r H. cbn [scan_once object_members array_items] in H.
    destruct (scan_once n s) as [[v0 r0]|] eqn:E1; [|discriminate].
    apply IHs in E1.
    destruct (skip_ws r0) as [|c r1] eqn:E2; [discriminate|].
    apply skip_ws_cons in E2.
    destruct (c =? 93)%N; [inv H; lia|].
    destruct (c =? 44)%N; [|discriminate].
    apply IHa in H. pose proof (skip_ws_length r1). lia.
Qed.

(** With fuel beyond twice the length of the input, the decoder does not
    depend on the fuel: it never runs out of it. *)
Lemma scan_fuel n :
  (forall s m, (2 * length s < n)%nat -> (n <= m)%nat ->
               scan_once m s = scan_once n s)
  /\ (forall s acc m, (2 * length s + 1 < n)%nat -> (n <= m)%nat ->
                      object_members m s acc = object_members n s acc)
  /\ (forall s acc m, (2 * length s + 1 < n)%nat -> (n <= m)%nat ->
                      array_items m s acc = array_items n s acc).
Proof.
  induction n as [|n (IHs & IHo & IHa)].
  { repeat split; intros; lia. }
  split; [|split].
  - intros s [|m] Hs Hm; [lia|]. cbn [scan_once object_members array_items].
    destruct s as [|c s0]; [reflexivity|]. simpl in Hs.
    destruct (c =? 34)%N; [reflexivity|].
    destruct (c =? 123)%N.
    { destruct (skip_ws s0) as [|c1 r1] eqn:E; [reflexivity|].
      apply skip_ws_cons in E.
      destruct (c1 =? 125)%N; [reflexivity|].
      destruct (c1 =? 34)%N; [|reflexivity].
      apply IHo; lia. }
    destruct (c =? 91)%N; [|reflexivity].
    destruct (skip_ws s0) as [|c1 r1] eqn:E; [reflexivity|].
    pose proof (skip_ws_length s0) as L. rewrite E in L.
    destruct (c1 =? 93)%N; [reflexivity|].
    apply IHa; simpl in *; lia.
  - intros s acc [|m] Hs Hm; [lia|]. cbn [scan_once object_members array_items].
    destruct (scanstring (S (length s)) s) as [[key r1]|] eqn:E1; [|reflexivity].
    apply scanstring_rest in E1.
    destruct (skip_ws r1) as [|c r2] eqn:E2; [reflexivity|].
    apply skip_ws_cons in E2.
    destruct (c =? 58)%N; [|reflexivity].
    pose proof (skip_ws_length r2) as L2.
    rewrite (IHs (skip_ws r2) m) by lia.
    destruct (scan_once n (skip_ws r2)) as [[v0 r3]|] eqn:E3; [|reflexivity].
    apply (proj1 (scan_rest n)) in E3.
    destruct (skip_ws r3) as [|c2 r4] eqn:E4; [reflexivity|].
    apply skip_ws_cons in E4.
    destruct (c2 =? 125)%N; [reflexivity|].
    destruct (c2 =? 44)%N; [|reflexivity].
    destruct (skip_ws r4) as [|c3 r5] eqn:E5; [reflexivity|].
    apply skip_ws_cons in E5.
    destruct (c3 =? 34)%N; [|reflexivity].
    apply IHo; lia.
  - intros s acc [|m] Hs Hm; [lia|]. cbn [scan_once object_members array_items].
    rewrite (IHs s m) by lia.
    destruct (scan_once n s) as [[v0 r0]|] eqn:E1; [|reflexivity].
    apply (proj1 (scan_rest n)) in E1.
    destruct (skip_ws r0) as [|c r1] eqn:E2; [reflexivity|].
    apply skip_ws_cons in E2.
    destruct (c =? 93)%N; [reflexivity|].
    destruct (c =? 44)%N; [|reflexivity].
    pose proof (skip_ws_length r1). apply IHa; lia.
Qed.

(** [json_loads] is what the decoder gives with any larger fuel. *)
Lemma json_loads_fuel s m :
  (2 * length s + 2 <= m)%nat ->
  scan_once m (skip_ws s) = scan_once (2 * length s + 2) (skip_ws s).
Proof.
  intros H. apply (proj1 (scan_fuel (2 * length s + 2))); [|exact H].
  pose proof (skip_ws_length s). lia.
Qed.

(** ** Exceptions of the page extractor *)

Lemma json_loads_raises s e : json_loads s = Raise e -> e = JSONDecodeError.
Proof.
  unfold json_loads; intros H.
  repeat case_match; congruence.
Qed.

Lemma float_of_str_raises s e : float_of_str s = Raise e -> e = ValueError.
Proof.
  unfold float_of_str; intros H.
  repeat case_match; congruence.
Qed.

Lemma getitem_raises {A} (xs : list A) i e : getitem xs i = Raise e -> e = IndexError.
Proof.
  unfold getitem; intros H; case_match; congruence.
Qed.

Lemma strip_fence_raises t e : strip_fence t = Raise e -> e = IndexError.
Proof.
  unfold strip_fence, bind; intros H.
  destruct (startswith t fence); [|discriminate].
  destruct (getitem (split1 t newline) 1) eqn:E1.
  - destruct (getitem (rsplit1 a fence) 0) eqn:E2; [discriminate|].
    inv H. eauto using getitem_raises.
  - inv H. eauto using getitem_raises.
Qed.

Lemma as_dict_raises v e : as_dict v = Raise e -> e = AttributeError.
Proof. destruct v; simpl; congruence. Qed.

Lemma ensure_amount_raises d e : ensure_amount d = Raise e -> e = ValueError.
Proof.
  unfold ensure_amount, bind; intros H.
  destruct (dict_lookup d Amount) as [[]|]; try discriminate.
  destruct (float_of_str _) eqn:E; [discriminate|].
  inv H. eauto using float_of_str_raises.
Qed.

(** Whatever the response text, the extractor fails with one of four
    ordinary errors only, as long as the decoder stays within the limits
    of the interpreter. *)
Lemma parse_response_text_raises raw e :
  parse_response_text raw = Raise e ->
  e = IndexError \/ e = JSONDecodeError \/ e = AttributeError \/ e = ValueError.
Proof.
  unfold parse_response_text, bind; intros H.
  destruct (strip_fence (strip raw)) eqn:E1.
  - destruct (json_loads (find_object a)) eqn:E2.
    + destruct (as_dict a0) eqn:E3.
      * right; right; right. eauto using ensure_amount_raises.
      * inv H. right; right; left. eauto using as_dict_raises.
    + inv H. right; left. eauto using json_loads_raises.
  - inv H. left. eauto using strip_fence_raises.
Qed.

Lemma parse_response_text_ordinary raw e :
  parse_response_text raw = Raise e -> is_Exception e = true.
Proof.
  intros H. apply parse_response_text_raises in H.
  destruct H as [->|[->|[->| ->]]]; reflexivity.
Qed.

Section LoopFacts.

Variable Client : Type.
Variable messages_create : Client -> request -> res response * Client.
Variable EXTRACTION_PROMPT : str.

Local Notation "'check'" := (parse_check Client messages_create EXTRACTION_PROMPT).
Local Notation "'loop'" := (parse_loop Client messages_create EXTRACTION_PROMPT).
Local Notation "'outcomes'" := (page_outcomes Client messages_create EXTRACTION_PROMPT).

(** When the service answers with a text block first, [parse_check] is
    [parse_response_text] of that text. *)
Lemma parse_check_text client img media raw blocks client' :
  messages_create client
    (mkRequest (text "claude-sonnet-4-5-20250929") 2048 media img EXTRACTION_PROMPT)
  = (Ok (mkResponse (TextBlock raw :: blocks)), client') ->
  check client img media = (parse_response_text raw, client').
Proof. unfold parse_check. intros ->. reflexivity. Qed.

(** A service that raises ordinary errors only makes every page failure
    ordinary. *)
Lemma parse_check_ordinary client img media e client' :
  service_errors_are_Exceptions Client messages_create ->
  check client img media = (Raise e, client') ->
  is_Exception e = true.
Proof.
  intros Hs. unfold parse_check.
  destruct (messages_create _ _) as [r c] eqn:E. intros H. inv H.
  destruct r as [resp|e0]; simpl in *.
  - destruct (getitem (content resp) 0) eqn:E1; simpl in *.
    + destruct (block_text a) eqn:E2; simpl in *.
      * eauto using parse_response_text_ordinary.
      * destruct a; simpl in *; [discriminate|]. inv E2. inv H1. reflexivity.
    + inv H1. apply getitem_raises in E1. subst. reflexivity.
  - inv H1. eauto.
Qed.

Lemma service_ordinary_failures client images :
  service_errors_are_Exceptions Client messages_create ->
  ordinary_failures (outcomes client images) = true.
Proof.
  intros Hs. revert client.
  induction images as [|[img media] rest IH]; intros client; simpl; [reflexivity|].
  destruct (check client img media) as [r c] eqn:E. simpl.
  rewrite IH, andb_true_r.
  destruct r; [reflexivity|]. eauto using parse_check_ordinary.
Qed.

Lemma page_outcomes_length client images :
  length (outcomes client images) = length images.
Proof.
  revert client. induction images as [|[img media] rest IH]; intros client; simpl.
  - reflexivity.
  - destruct (check client img media). simpl. now rewrite IH.
Qed.

(** The loop, started anywhere, appends the successes to the records and
    the numbered failures to the messages. *)
Lemma parse_loop_spec images : forall client idx checks errors,
  ordinary_failures (outcomes client images) = true ->
  loop client idx images checks errors
  = Ok (checks ++ successes (outcomes client images),
        errors ++ failures (idx + 1) (outcomes client images)).
Proof.
  induction images as [|[img media] rest IH]; intros client idx checks errors Hord; simpl.
  - now rewrite !app_nil_r.
  - simpl in Hord.
    destruct (check client img media) as [r c] eqn:E.
    simpl in Hord. apply andb_true_iff in Hord as [Hr Hrest].
    destruct r as [d|e]; simpl.
    + rewrite IH by assumption. rewrite <- app_assoc. simpl.
      now replace (S idx + 1)%nat with (S (idx + 1)) by lia.
    + rewrite Hr. simpl. rewrite IH by assumption. rewrite <- app_assoc. simpl.
      now replace (S idx + 1)%nat with (S (idx + 1)) by lia.
Qed.

Lemma parse_all_spec client images :
  ordinary_failures (outcomes client images) = true ->
  parse_all Client messages_create EXTRACTION_PROMPT client images
  = Ok (successes (outcomes client images),
        failures 1 (outcomes client images)).
Proof.
  intros H. unfold parse_all. now rewrite (parse_loop_spec images client 0 [] [] H).
Qed.

End LoopFacts.

Lemma successes_failures_length outs first :
  (length (successes outs) + length (failures first outs))%nat = length outs.
Proof.
  revert first. induction outs as [|[d|e] outs IH]; intros first; simpl.
  - reflexivity.
  - now rewrite IH.
  - rewrite Nat.add_succ_r. now rewrite IH.
Qed.

Lemma failures_from outs : forall first pe,
  In pe (failures first outs) -> (first <= error_page pe)%nat.
Proof.
  induction outs as [|[d|e] outs IH]; intros first pe H; simpl in H.
  - contradiction.
  - apply IH in H. lia.
  - destruct H as [<-|H]; simpl; [lia|]. apply IH in H. lia.
Qed.

(** The message for the page at position [k] carries the number
    [first + k], and every message comes from a page that failed. *)
Lemma failures_pages outs : forall first k e,
  nth_error outs k = Some (Raise e)
  <-> In (mkPageError (first + k) e) (failures first outs).
Proof.
  induction outs as [|r outs IH]; intros first k e.
  - split; intros H; [destruct k; discriminate | contradiction].
  - destruct k as [|k].
    + rewrite Nat.add_0_r. destruct r as [d|e']; simpl.
      * split; [discriminate|]. intros H. apply failures_from in H. simpl in H. lia.
      * split.
        -- intros H. inv H. now left.
        -- intros [H|H]; [now inv H|]. apply failures_from in H. simpl in H. lia.
    + simpl nth_error. rewrite (IH (S first) k e).
      replace (S first + k)%nat with (first + S k)%nat by lia.
      destruct r as [d|e']; simpl; [tauto|].
      split; [tauto|]. intros [H|H]; [inv H; lia|assumption].
Qed.

Lemma successes_In outs : forall k d,
  nth_error outs k = Some (Ok d) -> In d (successes outs).
Proof.
  induction outs as [|r outs IH]; intros k d H.
  - destruct k; discriminate.
  - destruct k as [|k]; simpl in H.
    + inv H. now left.
    + apply IH in H. destruct r; simpl; auto.
Qed.

(** * The batch loop *)

(** C1, as amended.  For every batch of N pages whose failures are ordinary
    errors, the loop returns the records of the pages that succeeded, in
    page order, and one error message per failed page, in page order, each
    carrying the 1-based number of its page and the exception; records and
    messages together number N.  The records themselves carry no page
    number. *)
Theorem C1_records_and_messages
  (Client : Type) (messages_create : Client -> request -> res response * Client)
  (EXTRACTION_PROMPT : str) (client : Client) (images : list (str * str)) :
  let outs := page_outcomes Client messages_create EXTRACTION_PROMPT client images in
  ordinary_failures outs = true ->
  parse_all Client messages_create EXTRACTION_PROMPT client images
  = Ok (successes outs, failures 1 outs)
  /\ length outs = length images
  /\ (length (successes outs) + length (failures 1 outs))%nat = length images
  /\ (forall k e, nth_error outs k = Some (Raise e)
                  <-> In (mkPageError (S k) e) (failures 1 outs)).
Proof.
  intros outs Hord. subst outs. repeat split.
  - now apply parse_all_spec.
  - apply page_outcomes_length.
  - rewrite successes_failures_length. apply page_outcomes_length.
  - intros H. now apply (failures_pages _ 1 k e).
  - intros H. now apply (failures_pages _ 1 k e).
Qed.

Lemma C1_records_and_messages_witness :
  ordinary_failures
    (page_outcomes scripted_client scripted_create [] three_answers three_pages) = true
  /\ parse_all scripted_client scripted_create [] three_answers three_pages
     = Ok ([record_1; record_3], [mkPageError 2 JSONDecodeError]).
Proof.
  split.
  - vm_compute. reflexivity.
  - destruct (C1_records_and_messages scripted_client scripted_create []
                three_answers three_pages) as [H _].
    + vm_compute. reflexivity.
    + rewrite H. vm_compute. reflexivity.
Defined.

(** C1, as stated, fails.  Of three pages whose second answer is not JSON,
    the result holds two records, not three entries, and the record of
    page 3 is row number 2 of the report. *)
Lemma C1_three_pages_two_records :
  parse_all scripted_client scripted_create [] three_answers three_pages
  = Ok ([record_1; record_3], [mkPageError 2 JSONDecodeError])
  /\ length [record_1; record_3] <> length three_pages
  /\ exists rows,
       generate_csv [record_1; record_3] = Ok rows
       /\ nth 2 rows []
          = [PInt 2; PStr (text "C"); empty; PStr (text "20.00");
             empty; empty; empty; empty; empty].
Proof.
  split; [vm_compute; reflexivity|].
  split; [simpl; discriminate|].
  eexists. split; vm_compute; reflexivity.
Qed.

Section Batch.

Variable Image : Type.
Variable convert_from_bytes : bytes -> Z -> res (list Image).
Variable Image_open : bytes -> res Image.
Variable image_mode : Image -> str.
Variable image_convert : Image -> str -> res Image.
Variable enhance_contrast : Image -> float -> res Image.
Variable enhance_sharpness : Image -> float -> res Image.
Variable save_png : Image -> res bytes.
Variable b64encode : bytes -> str.
Variable Client : Type.
Variable messages_create : Client -> request -> res response * Client.
Variable EXTRACTION_PROMPT : str.
Variable st_table : list dict -> res unit.
Variable wb_save : worksheet -> res bytes.

Local Notation "'outcomes'" :=
  (page_outcomes Client messages_create EXTRACTION_PROMPT).
Local Notation "'run'" :=
  (process Image convert_from_bytes Image_open image_mode image_convert
     enhance_contrast enhance_sharpness save_png b64encode
     Client messages_create EXTRACTION_PROMPT st_table wb_save).
Local Notation "'decompose'" :=
  (get_images_from_uploads Image convert_from_bytes Image_open image_mode
     image_convert enhance_contrast enhance_sharpness save_png b64encode).

(** C2.  In every batch whose page failures are ordinary errors, be they
    raised by the service call, by the JSON decoder or by the conversion
    of the amount, the loop ends normally: each page is processed, a
    page that fails leaves an error message with its number, a page that
    succeeds leaves its record, and the results are then built from the
    records of the successful pages. *)
Theorem C2_page_failures_stay_in_the_loop
  (client : Client) (files : list upload) (images : list (str * str)) :
  let outs := outcomes client images in
  decompose files = Ok images ->
  ordinary_failures outs = true ->
  parse_all Client messages_create EXTRACTION_PROMPT client images
  = Ok (successes outs, failures 1 outs)
  /\ (forall k page, nth_error images k = Some page ->
        exists r, nth_error outs k = Some r
                  /\ match r with
                     | Ok d => In d (successes outs)
                     | Raise e => In (mkPageError (S k) e) (failures 1 outs)
                     end)
  /\ run client files
     = (r <- results_block st_table wb_save (successes outs) ;;
        Ok (mkOutcome images (successes outs) (failures 1 outs) r)).
Proof.
  intros outs Hdec Hord. subst outs.
  pose proof (parse_all_spec _ _ _ client images Hord) as Hall.
  split; [exact Hall|]. split.
  - intros k page Hk.
    destruct (nth_error (outcomes client images) k) as [r|] eqn:E.
    + exists r. split; [reflexivity|]. destruct r as [d|e].
      * eauto using successes_In.
      * now apply (failures_pages _ 1 k e).
    + apply nth_error_None in E. rewrite page_outcomes_length in E.
      assert (nth_error images k <> None) as Hs by congruence.
      apply nth_error_Some in Hs. lia.
  - unfold process. fold decompose. rewrite Hdec. simpl. rewrite Hall. reflexivity.
Qed.

Lemma get_images_loop_app before : forall rest acc,
  get_images_loop Image convert_from_bytes Image_open image_mode image_convert
    enhance_contrast enhance_sharpness save_png b64encode (before ++ rest) acc
  = (imgs <- get_images_loop Image convert_from_bytes Image_open image_mode
               image_convert enhance_contrast enhance_sharpness save_png
               b64encode before acc ;;
     get_images_loop Image convert_from_bytes Image_open image_mode image_convert
       enhance_contrast enhance_sharpness save_png b64encode rest imgs).
Proof.
  induction before as [|f before IH]; intros rest acc; simpl.
  - reflexivity.
  - destruct (images_of_upload _ _ _ _ _ _ _ _ _ f); simpl; [apply IH|reflexivity].
Qed.

(** C3, as amended.  When the rasterizer refuses a PDF, and the documents
    before it were decomposed, its exception leaves
    [get_images_from_uploads] and ends the run: no list of images is
    returned, and no page of any document, earlier or later, is
    processed. *)
Theorem C3_unreadable_pdf_ends_the_run
  (client : Client) (before after : list upload) (f : upload) (e : exc) :
  is_ok (decompose before) = true ->
  upload_type f = pdf_type ->
  convert_from_bytes (upload_raw f) 300 = Raise e ->
  decompose (before ++ f :: after) = Raise e
  /\ run client (before ++ f :: after) = Raise e.
Proof.
  intros Hbefore Hpdf Hconv.
  assert (decompose (before ++ f :: after) = Raise e) as H.
  { unfold get_images_from_uploads in *. rewrite get_images_loop_app.
    destruct (get_images_loop _ _ _ _ _ _ _ _ _ before []); [|discriminate].
    simpl. unfold images_of_upload. rewrite Hpdf. simpl.
    rewrite Hconv. reflexivity. }
  split; [exact H|]. unfold process. fold decompose. now rewrite H.
Qed.

End Batch.

Lemma C2_page_failures_stay_in_the_loop_witness :
  toy_decompose three_uploads = Ok three_pages
  /\ ordinary_failures
       (page_outcomes scripted_client scripted_create [] three_answers three_pages)
     = true
  /\ toy_process three_answers three_uploads
     = (r <- results_block toy_st_table toy_wb_save [record_1; record_3] ;;
        Ok (mkOutcome three_pages [record_1; record_3]
              [mkPageError 2 JSONDecodeError] r)).
Proof.
  assert (toy_decompose three_uploads = Ok three_pages) as Hdec
    by (vm_compute; reflexivity).
  assert (ordinary_failures
            (page_outcomes scripted_client scripted_create [] three_answers
               three_pages) = true) as Hord
    by (vm_compute; reflexivity).
  split; [exact Hdec|]. split; [exact Hord|].
  destruct (C2_page_failures_stay_in_the_loop bytes toy_convert_from_bytes
              (fun raw => Ok raw) (fun _ => text "RGB") (fun img _ => Ok img)
              (fun img _ => Ok img) (fun img _ => Ok img) (fun img => Ok img)
              (fun raw => raw) scripted_client scripted_create []
              toy_st_table toy_wb_save
              three_answers three_uploads three_pages Hdec Hord) as (_ & _ & H).
  unfold toy_process. rewrite H. vm_compute. reflexivity.
Defined.

Lemma C3_unreadable_pdf_ends_the_run_witness :
  is_ok (toy_decompose [good_scan]) = true
  /\ upload_type torn_pdf = pdf_type
  /\ toy_convert_from_bytes (upload_raw torn_pdf) 300
     = Raise (LibraryError (text "PDFPageCountError"))
  /\ toy_process [reply answer_1] ([good_scan] ++ torn_pdf :: [good_scan])
     = Raise (LibraryError (text "PDFPageCountError")).
Proof.
  assert (is_ok (toy_decompose [good_scan]) = true) as H1 by (vm_compute; reflexivity).
  assert (toy_convert_from_bytes (upload_raw torn_pdf) 300
          = Raise (LibraryError (text "PDFPageCountError"))) as H3
    by (vm_compute; reflexivity).
  split; [exact H1|]. split; [reflexivity|]. split; [exact H3|].
  exact (proj2 (C3_unreadable_pdf_ends_the_run bytes toy_convert_from_bytes
                  (fun raw => Ok raw) (fun _ => text "RGB") (fun img _ => Ok img)
                  (fun img _ => Ok img) (fun img _ => Ok img) (fun img => Ok img)
                  (fun raw => raw) scripted_client scripted_create []
                  toy_st_table toy_wb_save
                  [reply answer_1] [good_scan] [good_scan] torn_pdf
                  (LibraryError (text "PDFPageCountError")) H1 eq_refl H3)).
Defined.

(** C3, as stated, fails.  A batch of an unreadable PDF and a good scan
    yields no result at all, although the scan alone yields its record. *)
Lemma C3_one_bad_pdf_loses_the_batch :
  toy_process [reply answer_1] [torn_pdf; good_scan]
  = Raise (LibraryError (text "PDFPageCountError"))
  /\ exists out,
       toy_process [reply answer_1] [good_scan] = Ok out
       /\ out_checks out = [record_1].
Proof.
  split; [vm_compute; reflexivity|].
  eexists. split; vm_compute; reflexivity.
Qed.

(** * The page extractor *)

Lemma str_eqb_eq a b : str_eqb a b = true <-> a = b.
Proof.
  unfold str_eqb. destruct (list_eq_dec N.eq_dec a b); split; congruence.
Qed.

Lemma str_eqb_refl a : str_eqb a a = true.
Proof. now apply str_eqb_eq. Qed.

Lemma dict_set_keys d k v v' :
  dict_lookup d k = Some v -> dict_keys (dict_set d k v') = dict_keys d.
Proof.
  induction d as [|[k0 v0] d IH]; simpl; [discriminate|].
  destruct (str_eqb k0 k) eqn:E; simpl; [reflexivity|].
  intros H. unfold dict_keys in *. now rewrite IH.
Qed.

Lemma dict_lookup_set d k v k' :
  dict_lookup (dict_set d k v) k'
  = if str_eqb k k' then Some v else dict_lookup d k'.
Proof.
  induction d as [|[k0 v0] d IH]; simpl.
  - reflexivity.
  - destruct (str_eqb k0 k) eqn:E; simpl.
    + apply str_eqb_eq in E. subst k0.
      destruct (str_eqb k k'); reflexivity.
    + rewrite IH. destruct (str_eqb k0 k') eqn:E'; [|reflexivity].
      destruct (str_eqb k k') eqn:E''; [|reflexivity].
      apply str_eqb_eq in E', E''. subst. now rewrite str_eqb_refl in E.
Qed.

(** *** The two replacements remove the commas and the dollar signs *)

Lemma replace_fuel_char c s : forall n,
  (length s < n)%nat ->
  replace_fuel n s [c] [] = filter (fun x => negb (x =? c)%N) s.
Proof.
  induction s as [|b s IH]; intros n Hn.
  - destruct n; [simpl in Hn; lia|reflexivity].
  - destruct n; [simpl in Hn; lia|]. simpl in Hn. simpl.
    rewrite andb_true_r, N.eqb_sym.
    destruct (b =? c)%N; simpl; rewrite IH by lia; reflexivity.
Qed.

Lemma replace_char s c :
  replace s [c] [] = filter (fun x => negb (x =? c)%N) s.
Proof. unfold replace. apply replace_fuel_char. lia. Qed.

Lemma replace_commas_and_dollars s :
  replace (replace s (text ",") []) (text "$") [] = without_commas_and_dollars s.
Proof.
  change (text ",") with [44%N]. change (text "$") with [36%N].
  rewrite !replace_char. unfold without_commas_and_dollars.
  induction s as [|c s IH]; simpl; [reflexivity|].
  destruct (c =? 44)%N eqn:E1; simpl; [exact IH|].
  destruct (c =? 36)%N; simpl; now rewrite IH.
Qed.

(** *** The regular expression *)

Lemma brace_free_nil : brace_free [].
Proof. intros c []. Qed.

Lemma brace_free_cons c s :
  brace_free (c :: s) <-> (c <> 123%N /\ c <> 125%N) /\ brace_free s.
Proof.
  unfold brace_free. split.
  - intros H. split; [apply H; now left|]. intros x Hx. apply H. now right.
  - intros [Hc Hs] x [<-|Hx]; auto.
Qed.

Lemma brace_free_block_Some s m :
  brace_free_block s = Some m ->
  exists mid rest, s = mid ++ 125%N :: rest /\ m = mid ++ [125%N] /\ brace_free mid.
Proof.
  revert m. induction s as [|c s IH]; intros m H; simpl in H; [discriminate|].
  destruct (c =? 125)%N eqn:E1.
  - apply N.eqb_eq in E1. subst c. inv H.
    exists [], s. auto using brace_free_nil.
  - destruct (c =? 123)%N eqn:E2; [discriminate|].
    destruct (brace_free_block s) as [m0|] eqn:E; [|discriminate].
    inv H. destruct (IH m0 eq_refl) as (mid & rest & -> & -> & Hfree).
    exists (c :: mid), rest. split; [reflexivity|]. split; [reflexivity|].
    apply brace_free_cons. split; [|assumption].
    apply N.eqb_neq in E1, E2. auto.
Qed.

Lemma brace_free_block_None s :
  brace_free_block s = None ->
  forall mid rest, brace_free mid -> s <> mid ++ 125%N :: rest.
Proof.
  induction s as [|c s IH]; intros H mid rest Hfree Heq; simpl in H.
  - destruct mid; discriminate.
  - destruct (c =? 125)%N eqn:E1; [discriminate|].
    destruct mid as [|c' mid]; simpl in Heq; inv Heq.
    + discriminate.
    + apply brace_free_cons in Hfree as [[Hc1 Hc2] Hfree].
      apply N.eqb_neq in Hc1. rewrite Hc1 in H.
      destruct (brace_free_block (mid ++ 125%N :: rest)) eqn:E; [discriminate|].
      now apply (IH eq_refl mid rest).
Qed.

(** A match is a flat object of the text, and none starts to its left. *)
Lemma re_search_object_Some t m :
  re_search_object t = Some m ->
  exists pre post,
    t = pre ++ m ++ post /\ flat_object_text m
    /\ forall pre' m' post',
         t = pre' ++ m' ++ post' -> flat_object_text m' ->
         (length pre <= length pre')%nat.
Proof.
  revert m. induction t as [|c t IH]; intros m H; simpl in H; [discriminate|].
  destruct (c =? 123)%N eqn:E1.
  - apply N.eqb_eq in E1. subst c.
    destruct (brace_free_block t) as [m0|] eqn:E.
    + inv H. destruct (brace_free_block_Some _ _ E) as (mid & rest & -> & -> & Hfree).
      exists [], rest. split; [|split].
      * simpl. now rewrite <- app_assoc.
      * now exists mid.
      * intros. simpl. lia.
    + destruct (IH _ H) as (pre & post & -> & Hflat & Hleft).
      exists (123%N :: pre), post. split; [reflexivity|]. split; [assumption|].
      intros pre' m' post' Heq Hflat'.
      destruct pre' as [|c' pre']; simpl in Heq.
      * exfalso. destruct Hflat' as (mid' & -> & Hfree'). simpl in Heq. inv Heq.
        rewrite <- app_assoc in H1. simpl in H1.
        exact (brace_free_block_None _ E mid' post' Hfree' H1).
      * inv Heq. simpl. apply le_n_S. eauto.
  - destruct (IH _ H) as (pre & post & -> & Hflat & Hleft).
    exists (c :: pre), post. split; [reflexivity|]. split; [assumption|].
    intros pre' m' post' Heq Hflat'.
    destruct pre' as [|c' pre']; simpl in Heq.
    + exfalso. destruct Hflat' as (mid' & -> & Hfree'). simpl in Heq. inv Heq.
      discriminate.
    + inv Heq. simpl. apply le_n_S. eauto.
Qed.

(** Without a match the text has no flat object. *)
Lemma re_search_object_None t :
  re_search_object t = None ->
  forall pre m post, flat_object_text m -> t <> pre ++ m ++ post.
Proof.
  induction t as [|c t IH]; intros H pre m post Hflat Heq; simpl in H.
  - destruct Hflat as (mid & -> & _). destruct pre; discriminate.
  - destruct pre as [|c' pre]; simpl in Heq.
    + destruct Hflat as (mid & -> & Hfree). simpl in Heq. inv Heq.
      simpl in H. destruct (brace_free_block _) eqn:E; [discriminate|].
      rewrite <- app_assoc in E. simpl in E.
      exact (brace_free_block_None _ E mid post Hfree eq_refl).
    + inv Heq. destruct (c' =? 123)%N.
      * destruct (brace_free_block _); [discriminate|]. now apply (IH H pre m post).
      * now apply (IH H pre m post).
Qed.

(** C4, as amended.  When the parsed Amount is a string, [parse_check]
    removes every comma and every dollar sign from it, and no other
    character, and converts what is left with [float]: the string
    [$1,204.50] yields the float 1204.5, which prints as [1204.50].  When
    what is left is not a numeral that [float] accepts, [parse_check] raises
    [ValueError]. *)
Theorem C4_string_amount :
  (forall (raw t : str) (d : dict) (s : str),
      strip_fence (strip raw) = Ok t ->
      json_loads (find_object t) = Ok (PDict d) ->
      dict_lookup d Amount = Some (PStr s) ->
      parse_response_text raw
      = match float_of_str (without_commas_and_dollars s) with
        | Ok x => Ok (dict_set d Amount (PFloat x))
        | Raise _ => Raise ValueError
        end)
  /\ parse_response_text dollar_answer = Ok [(Amount, PFloat float_1204_50)]
  /\ (Z.pos 5297447022624768 = 2409 * 2 ^ 41
      /\ format_2f float_1204_50 = text "1204.50").
Proof.
  split; [|split; [vm_compute; reflexivity | split; vm_compute; reflexivity]].
  intros raw t d s Ht Hd Hs.
  unfold parse_response_text. rewrite Ht. simpl. rewrite Hd. simpl.
  unfold ensure_amount. rewrite Hs. rewrite replace_commas_and_dollars.
  destruct (float_of_str _) eqn:E; simpl; [reflexivity|].
  apply float_of_str_raises in E. now subst.
Qed.

Lemma C4_string_amount_witness :
  strip_fence (strip dollar_answer) = Ok dollar_answer
  /\ json_loads (find_object dollar_answer)
     = Ok (PDict [(Amount, PStr (text "$1,204.50"))])
  /\ dict_lookup [(Amount, PStr (text "$1,204.50"))] Amount
     = Some (PStr (text "$1,204.50"))
  /\ parse_response_text dollar_answer = Ok [(Amount, PFloat float_1204_50)].
Proof.
  split; [vm_compute; reflexivity|].
  split; [vm_compute; reflexivity|].
  split; [vm_compute; reflexivity|].
  rewrite (proj1 C4_string_amount dollar_answer dollar_answer
             [(Amount, PStr (text "$1,204.50"))] (text "$1,204.50")).
  - vm_compute. reflexivity.
  - vm_compute. reflexivity.
  - vm_compute. reflexivity.
  - vm_compute. reflexivity.
Defined.

(** C4, as stated, fails.  The euro sign is a currency symbol and the
    parsed Amount is a string, yet nothing strips the sign and the page
    fails, although the string without its currency symbol and its comma
    is a valid number. *)
Lemma C4_euro_sign_is_not_stripped :
  json_loads (find_object euro_answer)
  = Ok (PDict [(Amount, PStr (8364%N :: text "1,204.50"))])
  /\ parse_response_text euro_answer = Raise ValueError
  /\ float_of_str (text "1204.50") = Ok float_1204_50.
Proof. repeat split; vm_compute; reflexivity. Qed.

(** C5.  What the extractor does with an Amount that is [null]: the record
    keeps [None] as its amount, and the results block then raises
    [TypeError] when it sums the amounts. *)
Theorem C5_null_amount_stays_null :
  parse_response_text null_answer = Ok [(Amount, PNone)]
  /\ (forall st_table wb_save,
        results_block st_table wb_save [[(Amount, PNone)]] = Raise TypeError)
  /\ generate_csv [[(Amount, PNone)]] = Raise TypeError.
Proof.
  split; [vm_compute; reflexivity|].
  split; [intros st_table wb_save|]; vm_compute; reflexivity.
Qed.

(** C6, as amended.  The record [parse_check] returns has exactly the keys
    of the parsed object, in the same order; a field absent from the
    object is absent from the record, and reads as the empty string or as
    zero only through the [get] with a default that the report writers
    use. *)
Theorem C6_record_keeps_the_keys_of_the_object (raw : str) (data : dict) :
  parse_response_text raw = Ok data ->
  exists t d,
    strip_fence (strip raw) = Ok t
    /\ json_loads (find_object t) = Ok (PDict d)
    /\ dict_keys data = dict_keys d
    /\ forall k, dict_lookup d k = None ->
                 dict_lookup data k = None
                 /\ dict_get data k empty = empty
                 /\ dict_get data k (PInt 0) = PInt 0.
Proof.
  unfold parse_response_text, bind. intros H.
  destruct (strip_fence (strip raw)) as [t|] eqn:Ht; [|discriminate].
  destruct (json_loads (find_object t)) as [v|] eqn:Hv; [|discriminate].
  destruct v; try discriminate. simpl in H.
  exists t, d. split; [reflexivity|]. split; [assumption|].
  assert (dict_keys data = dict_keys d
          /\ forall k, dict_lookup d k = None -> dict_lookup data k = None) as [Hk Hl].
  { unfold ensure_amount, bind in H.
    destruct (dict_lookup d Amount) as [a|] eqn:Ha.
    - destruct a; try (inv H; now split).
      destruct (float_of_str _); [|discriminate]. inv H. split.
      + eauto using dict_set_keys.
      + intros k Hk. rewrite dict_lookup_set.
        destruct (str_eqb Amount k) eqn:E; [|assumption].
        apply str_eqb_eq in E. subst k. congruence.
    - inv H. now split. }
  split; [assumption|]. intros k Hnone. apply Hl in Hnone.
  unfold dict_get. rewrite Hnone. auto.
Qed.

Lemma C6_record_keeps_the_keys_of_the_object_witness :
  parse_response_text empty_answer = Ok []
  /\ exists t d,
       strip_fence (strip empty_answer) = Ok t
       /\ json_loads (find_object t) = Ok (PDict d)
       /\ dict_keys (@nil (str * pyval)) = dict_keys d
       /\ forall k, dict_lookup d k = None ->
                    dict_lookup [] k = None
                    /\ dict_get [] k empty = empty
                    /\ dict_get [] k (PInt 0) = PInt 0.
Proof.
  split; [vm_compute; reflexivity|].
  apply (C6_record_keeps_the_keys_of_the_object empty_answer []).
  vm_compute. reflexivity.
Defined.

(** C6, as stated, fails.  From the empty object the extractor returns the
    empty record: none of the eight fields is in it. *)
Lemma C6_empty_object_gives_empty_record :
  parse_response_text empty_answer = Ok []
  /\ forall k, In k schema_fields -> dict_lookup [] k = None.
Proof. split; [vm_compute; reflexivity|]. reflexivity. Qed.

(** C7, as amended.  After the clean-up of the code fence, the extractor
    takes the leftmost substring made of an opening brace, text without
    braces and a closing brace, wherever commentary surrounds it, and
    decodes that substring; when the text has no such substring it decodes
    the whole text.  When decoding fails the extractor fails with the
    exception of the decoder, whichever it is; when the decoded value is
    not an object it raises [AttributeError]; and whatever it raises is an
    ordinary error, which the batch loop catches. *)
Theorem C7_leftmost_flat_object (raw t : str) :
  strip_fence (strip raw) = Ok t ->
  (forall m, re_search_object t = Some m ->
     (exists pre post,
        t = pre ++ m ++ post /\ flat_object_text m
        /\ forall pre' m' post',
             t = pre' ++ m' ++ post' -> flat_object_text m' ->
             (length pre <= length pre')%nat)
     /\ parse_response_text raw
        = (v <- json_loads m ;; data <- as_dict v ;; ensure_amount data))
  /\ (re_search_object t = None ->
      (forall pre m post, flat_object_text m -> t <> pre ++ m ++ post)
      /\ parse_response_text raw
         = (v <- json_loads t ;; data <- as_dict v ;; ensure_amount data))
  /\ (forall e, json_loads (find_object t) = Raise e ->
                parse_response_text raw = Raise e)
  /\ (forall v, json_loads (find_object t) = Ok v ->
                (forall d, v <> PDict d) ->
                parse_response_text raw = Raise AttributeError)
  /\ (forall e, parse_response_text raw = Raise e -> is_Exception e = true).
Proof.
  intros Ht.
  assert (parse_response_text raw
          = (v <- json_loads (find_object t) ;; data <- as_dict v ;; ensure_amount data))
    as Hparse by (unfold parse_response_text; now rewrite Ht).
  split; [|split; [|split; [|split]]].
  - intros m Hm. split; [now apply re_search_object_Some|].
    rewrite Hparse. unfold find_object. now rewrite Hm.
  - intros Hnone. split; [now apply re_search_object_None|].
    rewrite Hparse. unfold find_object. now rewrite Hnone.
  - intros e He. rewrite Hparse, He. reflexivity.
  - intros v Hv Hnot. rewrite Hparse, Hv. simpl.
    destruct v; try reflexivity. now destruct (Hnot d).
  - intros e. apply parse_response_text_ordinary.
Qed.

Lemma C7_leftmost_flat_object_witness :
  strip_fence (strip chatty_answer) = Ok chatty_answer
  /\ re_search_object chatty_answer = Some (jtext "{'Payer': 'A', 'Amount': 7}")
  /\ parse_response_text chatty_answer
     = Ok [(Payer, PStr (text "A")); (Amount, PInt 7)].
Proof.
  split; [vm_compute; reflexivity|].
  split; [vm_compute; reflexivity|].
  destruct (C7_leftmost_flat_object chatty_answer chatty_answer) as [H _].
  - vm_compute. reflexivity.
  - destruct (H (jtext "{'Payer': 'A', 'Amount': 7}")) as [_ ->].
    + vm_compute. reflexivity.
    + vm_compute. reflexivity.
Defined.

(** C7, as stated, fails.  In a response that is one object holding
    another, the first balanced substring is the whole response, but the
    record returned is the inner object.  In a response whose payer name
    holds braces, the first balanced substring is again the whole
    response and it is valid JSON, but the page fails. *)
Lemma C7_first_balanced_object_is_not_taken :
  (first_balanced_object nested_answer = Some nested_answer
   /\ json_loads nested_answer
      = Ok (PDict [(text "check", PDict [(Payer, PStr (text "A"))])])
   /\ parse_response_text nested_answer = Ok [(Payer, PStr (text "A"))])
  /\ (first_balanced_object braces_answer = Some braces_answer
      /\ json_loads braces_answer
         = Ok (PDict [(Payer, PStr (text "ACME {East}")); (Amount, PInt 5)])
      /\ parse_response_text braces_answer = Raise JSONDecodeError).
Proof. repeat split; vm_compute; reflexivity. Qed.

(** * The report *)

(** ** Decimal texts *)

Lemma uint_digits_are_digits u : forallb is_digit (uint_digits u) = true.
Proof. induction u; simpl; auto. Qed.

Lemma uint_digits_nonempty u : u <> Decimal.Nil -> uint_digits u <> [].
Proof. destruct u; simpl; congruence. Qed.

Lemma digits_of_N_are_digits n : forallb is_digit (digits_of_N n) = true.
Proof. apply uint_digits_are_digits. Qed.

Lemma digits_of_N_nonempty n : digits_of_N n <> [].
Proof.
  unfold digits_of_N. apply uint_digits_nonempty.
  destruct n as [|p]; simpl; [discriminate|].
  apply DecimalPos.Unsigned.to_uint_nonnil.
Qed.

Lemma digits_of_small n : (n < 10)%N -> digits_of_N n = [(48 + n)%N].
Proof.
  intros H. destruct n as [|p]; [reflexivity|].
  repeat (destruct p as [p|p|]; try reflexivity; try lia).
Qed.

Lemma two_digits_shape n :
  (n < 100)%N ->
  exists d1 d2, two_digits n = [d1; d2] /\ is_digit d1 = true /\ is_digit d2 = true.
Proof.
  intros H. unfold two_digits.
  assert (n / 10 < 10)%N by (apply N.Div0.div_lt_upper_bound; lia).
  assert (n mod 10 < 10)%N by (apply N.mod_lt; lia).
  rewrite !digits_of_small by assumption.
  exists (48 + n / 10)%N, (48 + n mod 10)%N. split; [reflexivity|]. clear H.
  generalize dependent (n / 10)%N. generalize dependent (n mod 10)%N.
  intros r Hr q Hq.
  unfold is_digit. split; apply andb_true_iff; split; apply N.leb_le; lia.
Qed.

(** A finite float prints with exactly two decimals. *)
Lemma format_2f_two_decimals x :
  is_finite x = true -> two_decimal_text (format_2f x).
Proof.
  destruct x as [s|s| |s m e]; try discriminate; intros _.
  - exists s, [48%N], 48%N, 48%N. repeat split. discriminate.
  - simpl. set (h := Z.to_N (hundredths m e)).
    destruct (two_digits_shape (h mod 100)) as (d1 & d2 & -> & H1 & H2).
    { apply N.mod_lt. lia. }
    exists s, (digits_of_N (h / 100)), d1, d2.
    split; [reflexivity|].
    split; [apply digits_of_N_nonempty|].
    split; [apply digits_of_N_are_digits|]. now split.
Qed.

(** ** Sums and rows *)

Lemma float_of_int_0 : float_of_int 0 = Ok (S754_zero false).
Proof. reflexivity. Qed.

(** The bound of [float_of_int] is where rounding first reaches infinity. *)
Lemma float_of_int_edge :
  float_of_Z (2 ^ 1024 - 2 ^ 970 - 1) = S754_finite false 9007199254740991 971
  /\ float_of_Z (2 ^ 1024 - 2 ^ 970) = S754_infinity false.
Proof. split; vm_compute; reflexivity. Qed.

Lemma float_of_int_within z :
  Z.abs z < int_bound -> float_of_int z = Ok (float_of_Z z).
Proof.
  intros H. unfold float_of_int. unfold int_bound in H.
  assert (2 ^ 1000 < 2 ^ 1024 - 2 ^ 970) as Hb by (vm_compute; reflexivity).
  destruct (Z.ltb_spec (Z.abs z) (2 ^ 1024 - 2 ^ 970)); [reflexivity|].
  exfalso. apply (Z.lt_irrefl (Z.abs z)).
  eapply Z.lt_le_trans; [|eassumption]. eapply Z.lt_trans; eassumption.
Qed.

Lemma float_amount_cases ck :
  float_amount ck ->
  (exists x, dict_lookup ck Amount = Some (PFloat x)
             /\ amount_of ck = PFloat x /\ amount_float ck = x)
  \/ (dict_lookup ck Amount = None
      /\ amount_of ck = PInt 0 /\ amount_float ck = S754_zero false).
Proof.
  unfold float_amount, amount_of, amount_float, dict_get.
  destruct (dict_lookup ck Amount) as [[]|]; try contradiction; intros _.
  - left. eauto.
  - right. auto.
Qed.

Lemma number_amount_cases ck :
  number_amount ck ->
  (exists x, amount_of ck = PFloat x /\ amount_magnitude ck = 0)
  \/ (exists z, amount_of ck = PInt z /\ amount_magnitude ck = Z.abs z).
Proof.
  unfold number_amount, amount_of, amount_magnitude, dict_get.
  destruct (dict_lookup ck Amount) as [[]|]; try contradiction; intros _.
  - right. eauto.
  - left. eauto.
  - right. exists 0. auto.
Qed.

Lemma amount_magnitude_nonneg ck : 0 <= amount_magnitude ck.
Proof.
  unfold amount_magnitude. destruct (dict_lookup ck Amount) as [[]|]; lia.
Qed.

Lemma total_magnitude_nonneg checks :
  0 <= fold_right Z.add 0 (map amount_magnitude checks).
Proof.
  induction checks as [|ck checks IH]; simpl; [lia|].
  pose proof (amount_magnitude_nonneg ck). lia.
Qed.

Lemma amount_magnitude_In ck checks :
  In ck checks ->
  amount_magnitude ck <= fold_right Z.add 0 (map amount_magnitude checks).
Proof.
  induction checks as [|ck' checks IH]; simpl; [contradiction|].
  intros [->|H].
  - pose proof (total_magnitude_nonneg checks). lia.
  - apply IH in H. pose proof (amount_magnitude_nonneg ck'). lia.
Qed.

Lemma float_amounts_in_range checks :
  Forall float_amount checks -> amounts_in_range checks.
Proof.
  intros H. split.
  - eapply Forall_impl; [|exact H]. intros ck. unfold float_amount, number_amount.
    destruct (dict_lookup ck Amount) as [[]|]; auto.
  - assert (fold_right Z.add 0 (map amount_magnitude checks) = 0) as ->.
    { induction H as [|ck checks Hck _ IH]; simpl; [reflexivity|]. rewrite IH.
      unfold float_amount in Hck. unfold amount_magnitude.
      destruct (dict_lookup ck Amount) as [[]|]; try contradiction; reflexivity. }
    vm_compute. reflexivity.
Qed.

Lemma format_number v b :
  float_or_within b v -> b < int_bound ->
  format_spec_2f v = Ok (format_2f (value_float v)).
Proof.
  intros [[x ->]|(z & -> & Hz)] Hb; simpl; [reflexivity|].
  rewrite float_of_int_within by lia. reflexivity.
Qed.

Lemma csv_row_line i ck :
  number_amount ck -> amount_magnitude ck < int_bound ->
  csv_row (i, ck) = Ok (csv_line (i, ck)).
Proof.
  intros H Hm. unfold csv_row, csv_line.
  rewrite (format_number (amount_of ck) (amount_magnitude ck)); [reflexivity| |exact Hm].
  destruct (number_amount_cases ck H) as [(x & -> & _)|(z & -> & Hz)].
  - left. eauto.
  - right. exists z. split; [reflexivity|lia].
Qed.

Lemma map_res_ok {A B : Type} (f : A -> res B) (g : A -> B) xs :
  (forall x, In x xs -> f x = Ok (g x)) -> map_res f xs = Ok (map g xs).
Proof.
  induction xs as [|x xs IH]; intros H; simpl; [reflexivity|].
  rewrite H by now left. simpl. rewrite IH; [reflexivity|].
  intros y Hy. apply H. now right.
Qed.

Lemma enumerate_In {A : Type} (xs : list A) : forall start i x,
  In (i, x) (enumerate start xs) -> In x xs.
Proof.
  induction xs as [|y xs IH]; intros start i x H; simpl in *; [contradiction|].
  destruct H as [H|H]; [inv H; now left|right; eauto].
Qed.

Lemma enumerate_length {A : Type} (xs : list A) start :
  length (enumerate start xs) = length xs.
Proof. revert start. induction xs; intros; simpl; auto. Qed.

Lemma enumerate_nth {A : Type} (xs : list A) : forall start i x,
  nth_error xs i = Some x ->
  nth_error (enumerate start xs) i = Some ((start + i)%nat, x).
Proof.
  induction xs as [|y xs IH]; intros start i x H; destruct i; simpl in *;
    try discriminate.
  - inv H. now rewrite Nat.add_0_r.
  - rewrite (IH (S start) i x H). f_equal. f_equal. lia.
Qed.

Lemma py_add_float_amount acc ck :
  zero_or_float acc -> float_amount ck ->
  exists acc',
    py_add acc (amount_of ck) = Ok acc' /\ zero_or_float acc'
    /\ total_float acc' = float_add (total_float acc) (amount_float ck).
Proof.
  intros Hacc Hck.
  destruct (float_amount_cases ck Hck) as [(x & _ & -> & ->)|(_ & -> & ->)];
    destruct Hacc as [->|[a ->]].
  - exists (PFloat (float_add (S754_zero false) x)).
    split; [reflexivity|]. split; [right; eauto|reflexivity].
  - exists (PFloat (float_add a x)).
    split; [reflexivity|]. split; [right; eauto|reflexivity].
  - exists (PInt 0). split; [reflexivity|]. split; [now left|reflexivity].
  - exists (PFloat (float_add a (S754_zero false))).
    split; [reflexivity|]. split; [right; eauto|reflexivity].
Qed.

Lemma sum_from_float_amounts checks : forall acc,
  Forall float_amount checks -> zero_or_float acc ->
  exists total,
    sum_from acc (map amount_of checks) = Ok total /\ zero_or_float total
    /\ total_float total
       = fold_left float_add (map amount_float checks) (total_float acc).
Proof.
  induction checks as [|ck checks IH]; intros acc Hall Hacc; simpl.
  - eauto.
  - inv Hall.
    destruct (py_add_float_amount acc ck Hacc H1) as (acc' & -> & Hacc' & Hf).
    simpl. destruct (IH acc' H2 Hacc') as (total & -> & Htot & Hfold).
    exists total. split; [reflexivity|]. split; [assumption|]. now rewrite Hfold, Hf.
Qed.

Lemma sum_float_amounts checks :
  Forall float_amount checks ->
  exists total,
    sum (map amount_of checks) = Ok total /\ zero_or_float total
    /\ total_float total = float_sum (map amount_float checks).
Proof.
  intros H. apply (sum_from_float_amounts checks (PInt 0) H). now left.
Qed.

Lemma py_add_number acc ck b :
  float_or_within b acc -> number_amount ck ->
  0 <= b -> b + amount_magnitude ck < int_bound ->
  exists acc',
    py_add acc (amount_of ck) = Ok acc'
    /\ float_or_within (b + amount_magnitude ck) acc'.
Proof.
  intros Hacc Hck Hb Hbound.
  destruct (number_amount_cases ck Hck) as [(x & Hx & Hm)|(z & Hx & Hm)];
    rewrite Hx; rewrite Hm in *;
    destruct Hacc as [[a ->]|(a & -> & Ha)]; simpl.
  - eexists. split; [reflexivity|]. left. eauto.
  - rewrite float_of_int_within by lia. simpl.
    eexists. split; [reflexivity|]. left. eauto.
  - rewrite float_of_int_within by lia. simpl.
    eexists. split; [reflexivity|]. left. eauto.
  - eexists. split; [reflexivity|]. right. exists (a + z). split; [reflexivity|lia].
Qed.

Lemma sum_from_numbers checks : forall acc b,
  Forall number_amount checks -> float_or_within b acc -> 0 <= b ->
  b + fold_right Z.add 0 (map amount_magnitude checks) < int_bound ->
  exists total,
    sum_from acc (map amount_of checks) = Ok total
    /\ float_or_within
         (b + fold_right Z.add 0 (map amount_magnitude checks)) total.
Proof.
  induction checks as [|ck checks IH]; intros acc b Hall Hacc Hb Hbound; simpl in *.
  - exists acc. split; [reflexivity|]. now rewrite Z.add_0_r.
  - inv Hall.
    pose proof (amount_magnitude_nonneg ck) as Hm.
    pose proof (total_magnitude_nonneg checks) as Ht.
    destruct (py_add_number acc ck b Hacc H1 Hb) as (acc' & -> & Hacc'); [lia|].
    simpl. destruct (IH acc' (b + amount_magnitude ck) H2 Hacc') as (total & -> & Htot);
      [lia|lia|].
    exists total. split; [reflexivity|]. now rewrite Z.add_assoc.
Qed.

Lemma sum_numbers checks :
  amounts_in_range checks ->
  exists total,
    sum (map amount_of checks) = Ok total
    /\ format_spec_2f total = Ok (format_2f (value_float total)).
Proof.
  intros [Hall Hbound].
  destruct (sum_from_numbers checks (PInt 0) 0 Hall) as (total & Hsum & Htot).
  - right. exists 0. split; [reflexivity|simpl; lia].
  - lia.
  - simpl. exact Hbound.
  - exists total. split; [exact Hsum|].
    eapply format_number; [exact Htot|]. simpl. exact Hbound.
Qed.

Lemma format_zero_or_float total :
  zero_or_float total -> format_spec_2f total = Ok (format_2f (total_float total)).
Proof. intros [->|[x ->]]; reflexivity. Qed.

Lemma sum_from_int_amounts checks : forall z,
  Forall int_amount checks ->
  sum_from (PInt z) (map amount_of checks)
  = Ok (PInt (z + fold_right Z.add 0 (map amount_int checks))).
Proof.
  induction checks as [|ck checks IH]; intros z Hall; simpl.
  - now rewrite Z.add_0_r.
  - inv Hall. unfold int_amount in H1.
    unfold amount_of, amount_int, dict_get in *.
    destruct (dict_lookup ck Amount) as [[]|]; try contradiction; simpl;
      rewrite IH by assumption; do 2 f_equal; lia.
Qed.

(** The rows of the CSV for amounts in range. *)
Lemma generate_csv_numbers checks :
  amounts_in_range checks ->
  exists total,
    sum (map amount_of checks) = Ok total
    /\ generate_csv checks
       = Ok ([headers] ++ map csv_line (enumerate 1 checks)
             ++ [total_line (value_float total)]).
Proof.
  intros Hrange. destruct (sum_numbers checks Hrange) as (total & Hsum & Hfmt).
  exists total. split; [exact Hsum|]. unfold generate_csv.
  rewrite (map_res_ok csv_row csv_line).
  - cbn [bind]. rewrite Hsum. cbn [bind]. rewrite Hfmt. reflexivity.
  - intros [i ck] Hin. apply enumerate_In in Hin. destruct Hrange as [Hall Hbound].
    apply csv_row_line.
    + rewrite Forall_forall in Hall. auto.
    + eapply Z.le_lt_trans; [apply amount_magnitude_In; eassumption|exact Hbound].
Qed.

(** What a CSV that was produced is made of. *)
Lemma generate_csv_Ok checks rows :
  generate_csv checks = Ok rows ->
  exists data total t,
    map_res csv_row (enumerate 1 checks) = Ok data
    /\ sum (map amount_of checks) = Ok total
    /\ format_spec_2f total = Ok t
    /\ rows = [headers] ++ data
              ++ [[empty; empty; PStr (text "TOTAL"); PStr t;
                   empty; empty; empty; empty; empty]].
Proof.
  unfold generate_csv, bind. intros H.
  destruct (map_res csv_row _) as [data|] eqn:E1; [|discriminate].
  destruct (sum _) as [total|] eqn:E2; [|discriminate].
  destruct (format_spec_2f total) as [t|] eqn:E3; [|discriminate].
  inv H. exists data, total, t. auto.
Qed.

Lemma map_res_length {A B : Type} (f : A -> res B) xs : forall ys,
  map_res f xs = Ok ys -> length ys = length xs.
Proof.
  induction xs as [|x xs IH]; intros ys H; simpl in H.
  - now inv H.
  - unfold bind in H. destruct (f x); [|discriminate].
    destruct (map_res f xs) as [ys'|]; [|discriminate].
    inv H. simpl. f_equal. now apply IH.
Qed.

(** C8, as amended.  For every list of N records whose amounts are in
    range (floats, ints that are not beyond all bounds, or absent and then
    counted as 0), [generate_csv] produces exactly N+2 rows: the header
    row, one data row per record whose amount column is the amount printed
    by [.2f] (two decimals whenever the amount is finite), and a last row
    with the label TOTAL in the date column, all other cells empty but the
    amount column, which holds the [.2f] text of [sum] over the records'
    amounts themselves, not over the rounded amount columns. *)
Theorem C8_csv_rows (checks : list dict) :
  amounts_in_range checks ->
  exists data total,
    sum (map amount_of checks) = Ok total
    /\ generate_csv checks
       = Ok ([headers] ++ data
             ++ [[empty; empty; PStr (text "TOTAL");
                  PStr (format_2f (value_float total));
                  empty; empty; empty; empty; empty]])
    /\ length ([headers] ++ data
               ++ [[empty; empty; PStr (text "TOTAL");
                    PStr (format_2f (value_float total));
                    empty; empty; empty; empty; empty]])
       = (length checks + 2)%nat
    /\ forall i ck,
         nth_error checks i = Some ck ->
         nth_error data i
         = Some [int_of_nat (S i); dict_get ck Payer empty; dict_get ck Date empty;
                 PStr (format_2f (value_float (amount_of ck)));
                 dict_get ck Bank empty;
                 dict_get ck Check_Number empty; dict_get ck Account empty;
                 dict_get ck Routing empty; dict_get ck Claim empty]
         /\ (is_finite (value_float (amount_of ck)) = true ->
             two_decimal_text (format_2f (value_float (amount_of ck)))).
Proof.
  intros Hrange. destruct (generate_csv_numbers checks Hrange) as (total & Hsum & Hcsv).
  exists (map csv_line (enumerate 1 checks)), total.
  split; [exact Hsum|]. split; [exact Hcsv|]. split.
  - simpl. rewrite length_app, length_map, enumerate_length. simpl. lia.
  - intros i ck Hi. split.
    + rewrite nth_error_map, (enumerate_nth checks 1 i ck Hi). reflexivity.
    + apply format_2f_two_decimals.
Qed.

Lemma C8_csv_rows_witness :
  amounts_in_range two_eighths
  /\ generate_csv two_eighths
     = Ok [headers;
           [PInt 1; empty; empty; PStr (text "0.12"); empty; empty; empty; empty; empty];
           [PInt 2; empty; empty; PStr (text "0.12"); empty; empty; empty; empty; empty];
           [empty; empty; PStr (text "TOTAL"); PStr (text "0.25");
            empty; empty; empty; empty; empty]].
Proof.
  assert (amounts_in_range two_eighths) as H
    by (split; [repeat constructor|vm_compute; reflexivity]).
  split; [exact H|].
  destruct (C8_csv_rows two_eighths H) as (data & total & _ & Hcsv & _ & _).
  vm_compute. reflexivity.
Defined.

(** C8, as stated, fails.  Two records of 0.125 each, as decoded from the
    response text, print as 0.12 and 0.12, and the total row shows 0.25:
    twenty-five hundredths, not the twenty-four that the amount columns
    of the data rows add up to. *)
Lemma C8_total_is_not_the_sum_of_the_columns :
  parse_response_text eighth_answer = Ok [(Amount, PFloat eighth)]
  /\ exists header row1 row2 total,
       generate_csv two_eighths = Ok [header; row1; row2; total]
       /\ amount_column row1 = PStr (text "0.12")
       /\ amount_column row2 = PStr (text "0.12")
       /\ amount_column total = PStr (text "0.25")
       /\ cell_hundredths (amount_column total)
          <> cell_hundredths (amount_column row1)
             + cell_hundredths (amount_column row2).
Proof.
  split; [vm_compute; reflexivity|].
  do 4 eexists. split; [vm_compute; reflexivity|].
  repeat split; vm_compute; congruence.
Qed.

Section Report.

Variable Image : Type.
Variable convert_from_bytes : bytes -> Z -> res (list Image).
Variable Image_open : bytes -> res Image.
Variable image_mode : Image -> str.
Variable image_convert : Image -> str -> res Image.
Variable enhance_contrast : Image -> float -> res Image.
Variable enhance_sharpness : Image -> float -> res Image.
Variable save_png : Image -> res bytes.
Variable b64encode : bytes -> str.
Variable Client : Type.
Variable messages_create : Client -> request -> res response * Client.
Variable EXTRACTION_PROMPT : str.
Variable st_table : list dict -> res unit.
Variable wb_save : worksheet -> res bytes.

Local Notation "'outcomes'" :=
  (page_outcomes Client messages_create EXTRACTION_PROMPT).
Local Notation "'run'" :=
  (process Image convert_from_bytes Image_open image_mode image_convert
     enhance_contrast enhance_sharpness save_png b64encode
     Client messages_create EXTRACTION_PROMPT st_table wb_save).
Local Notation "'decompose'" :=
  (get_images_from_uploads Image convert_from_bytes Image_open image_mode
     image_convert enhance_contrast enhance_sharpness save_png b64encode).

(** Whenever the loop ends normally, it has gathered the successes and
    the numbered failures. *)
Lemma parse_loop_Ok images : forall client idx checks errors st,
  parse_loop Client messages_create EXTRACTION_PROMPT client idx images checks errors
  = Ok st ->
  st = (checks ++ successes (outcomes client images),
        errors ++ failures (idx + 1) (outcomes client images)).
Proof.
  induction images as [|[img media] rest IH]; intros client idx checks errors st H;
    simpl in *.
  - inv H. now rewrite !app_nil_r.
  - destruct (parse_check _ _ _ client img media) as [r c] eqn:E.
    destruct r as [d|e]; simpl in H.
    + apply IH in H. subst st. simpl. rewrite <- !app_assoc. simpl.
      now replace (S idx + 1)%nat with (S (idx + 1)) by lia.
    + destruct (is_Exception e); simpl in H; [|discriminate].
      apply IH in H. subst st. simpl. rewrite <- !app_assoc. simpl.
      now replace (S idx + 1)%nat with (S (idx + 1)) by lia.
Qed.

Lemma results_block_total checks r :
  results_block st_table wb_save checks = Ok (Some r) ->
  sum (map amount_of checks) = Ok (res_total r)
  /\ generate_csv checks = Ok (res_csv r).
Proof.
  unfold results_block. destruct checks as [|ck checks]; [discriminate|].
  unfold bind. fold (amount_of).
  change (map (fun c => dict_get c Amount (PInt 0)) (ck :: checks))
    with (map amount_of (ck :: checks)).
  destruct (sum _) as [total|]; [|discriminate].
  destruct (format_spec_comma_2f total); [|discriminate].
  destruct (map_res display_row _); [|discriminate].
  destruct (st_table _); [|discriminate].
  destruct (generate_xlsx _ _); [|discriminate].
  destruct (generate_csv _) as [rows|]; [|discriminate].
  intros H. inv H. simpl. auto.
Qed.

(** C9, as amended.  Whenever results are shown, their total is the sum
    of the amounts of the records of the pages that succeeded, and of
    nothing else: the exact integer sum when the amounts are ints, the
    float sum taken from the left when they are floats, a missing amount
    counting as 0.  Both the results block and [generate_csv] compute it
    anew from the list of records, and agree.  With no record at all the
    results block shows nothing, neither total nor report; the sum over
    the empty list is 0 and [generate_csv] of the empty list shows
    0.00. *)
Theorem C9_report_total :
  (forall client files out r,
      run client files = Ok out -> out_results out = Some r ->
      exists images,
        decompose files = Ok images
        /\ out_checks out = successes (outcomes client images)
        /\ sum (map amount_of (successes (outcomes client images)))
           = Ok (res_total r)
        /\ exists data t,
             format_spec_2f (res_total r) = Ok t
             /\ res_csv r
                = [headers] ++ data
                  ++ [[empty; empty; PStr (text "TOTAL"); PStr t;
                       empty; empty; empty; empty; empty]])
  /\ (forall checks, Forall int_amount checks ->
        sum (map amount_of checks)
        = Ok (PInt (fold_right Z.add 0 (map amount_int checks))))
  /\ (forall checks, Forall float_amount checks ->
        exists total,
          sum (map amount_of checks) = Ok total
          /\ total_float total = float_sum (map amount_float checks))
  /\ results_block st_table wb_save [] = Ok None
  /\ sum (map amount_of []) = Ok (PInt 0)
  /\ generate_csv []
     = Ok [headers;
           [empty; empty; PStr (text "TOTAL"); PStr (text "0.00");
            empty; empty; empty; empty; empty]].
Proof.
  split; [|split; [|split; [|split; [|split]]]].
  - intros client files out r Hrun Hres. unfold process, bind in Hrun.
    destruct (decompose files) as [images|] eqn:Hdec; [|discriminate].
    destruct (parse_all _ _ _ client images) as [st|] eqn:Hall; [|discriminate].
    destruct (results_block _ _ (fst st)) as [rb|] eqn:Hrb; [|discriminate].
    inv Hrun. simpl in *. subst rb.
    apply parse_loop_Ok in Hall. subst st. simpl in *.
    exists images. split; [reflexivity|]. split; [reflexivity|].
    destruct (results_block_total _ _ Hrb) as [Hsum Hcsv].
    split; [exact Hsum|].
    destruct (generate_csv_Ok _ _ Hcsv) as (data & total & t & _ & Hsum' & Ht & Hrows).
    rewrite Hsum in Hsum'. inv Hsum'. exists data, t. split; assumption.
  - intros checks Hall. unfold sum. now rewrite sum_from_int_amounts.
  - intros checks Hall.
    destruct (sum_float_amounts checks Hall) as (total & Hs & _ & Hf). eauto.
  - reflexivity.
  - reflexivity.
  - reflexivity.
Qed.

End Report.

Lemma C9_report_total_witness :
  exists out r,
    toy_process three_answers three_uploads = Ok out
    /\ out_results out = Some r
    /\ out_checks out = [record_1; record_3]
    /\ sum (map amount_of [record_1; record_3]) = Ok (res_total r)
    /\ res_total r = PFloat (float_of_decimal false 305 (-1)).
Proof.
  destruct (toy_process three_answers three_uploads) as [out|] eqn:Hrun;
    [|vm_compute in Hrun; discriminate].
  destruct (out_results out) as [r|] eqn:Hres;
    [|vm_compute in Hrun; inv Hrun; discriminate].
  exists out, r.
  destruct (proj1 (C9_report_total bytes toy_convert_from_bytes
                     (fun raw => Ok raw) (fun _ => text "RGB") (fun img _ => Ok img)
                     (fun img _ => Ok img) (fun img _ => Ok img) (fun img => Ok img)
                     (fun raw => raw) scripted_client scripted_create []
                     toy_st_table toy_wb_save)
              three_answers three_uploads out r Hrun Hres)
    as (images & Hdec & Hchecks & Hsum & _).
  vm_compute in Hdec. inv Hdec.
  vm_compute in Hrun. inv Hrun. vm_compute in Hres. inv Hres.
  repeat split; vm_compute; reflexivity.
Defined.

(** C9, as stated, fails.  A batch whose only page fails has no successful
    record, and its run ends without any total: the results block is
    skipped. *)
Lemma C9_no_record_no_total :
  exists out,
    toy_process [reply answer_2] [good_scan] = Ok out
    /\ out_checks out = []
    /\ out_errors out = [mkPageError 1 JSONDecodeError]
    /\ out_results out = None.
Proof. eexists. repeat split; vm_compute; reflexivity. Qed.

(** ** The workbook *)

Lemma existsb_firstn {A : Type} (f : A -> bool) (s : list A) : forall n,
  existsb f s = false -> existsb f (firstn n s) = false.
Proof.
  induction s as [|c s IH]; intros n H; destruct n; simpl in *; try reflexivity.
  apply orb_false_iff in H as [Hc Hs]. rewrite Hc. simpl. auto.
Qed.

Lemma digits_are_legal s :
  forallb is_digit s = true -> existsb illegal_character s = false.
Proof.
  induction s as [|c s IH]; simpl; [reflexivity|].
  intros H. apply andb_true_iff in H as [Hc Hs]. rewrite (IH Hs), orb_false_r.
  unfold is_digit in Hc. apply andb_true_iff in Hc as [Hc _]. apply N.leb_le in Hc.
  unfold illegal_character.
  repeat (apply orb_false_iff; split); try (apply andb_false_iff; right);
    apply N.leb_gt; lia.
Qed.

Lemma bind_value_formula n :
  exists v, bind_value (PStr (text "=SUM(D2:D" ++ str_of_nat n ++ text ")")) = Ok v.
Proof.
  unfold bind_value. rewrite existsb_firstn; [eauto|].
  rewrite !existsb_app.
  rewrite (digits_are_legal (str_of_nat n)) by apply digits_of_N_are_digits.
  reflexivity.
Qed.

Lemma bind_value_empty v : bind_value empty = Ok v -> v = empty.
Proof. intros H. vm_compute in H. now inv H. Qed.

Lemma bind_value_zero v : bind_value (PInt 0) = Ok v -> v = PInt 0.
Proof. intros H. simpl in H. now inv H. Qed.

(** The cells of a row whose values a cell accepts: one per value, at the
    successive columns, each holding what [bind_value] makes of its
    value. *)
Lemma map_res_data_cells i r vals : forall start,
  (forall v, In v vals -> exists v', bind_value v = Ok v') ->
  exists cells,
    map_res (data_cell i r) (enumerate start vals) = Ok cells
    /\ forall j v, nth_error vals j = Some v ->
         exists c, nth_error cells j = Some ((r, (start + j)%nat), c)
                   /\ bind_value v = Ok (cell_value c).
Proof.
  induction vals as [|v vals IH]; intros start Hacc; simpl.
  - exists []. split; [reflexivity|]. intros [|j] v H; discriminate.
  - destruct (Hacc v (or_introl eq_refl)) as [v' Hv]. rewrite Hv. simpl.
    destruct (IH (S start)) as (cells & -> & Hcells).
    { intros w Hw. apply Hacc. now right. }
    simpl. eexists. split; [reflexivity|].
    intros [|j] w Hw; simpl in *.
    + inv Hw. rewrite Nat.add_0_r. eexists. split; [reflexivity|]. exact Hv.
    + destruct (Hcells j w Hw) as (c & Hc & Hb).
      exists c. split; [|exact Hb]. rewrite Hc. do 3 f_equal. lia.
Qed.

Lemma cells_accept_get ck k default :
  cells_accept ck -> In k schema_fields ->
  (exists d, bind_value default = Ok d) ->
  exists v', bind_value (dict_get ck k default) = Ok v'.
Proof.
  intros Hacc Hk Hd. unfold dict_get.
  destruct (dict_lookup ck k) as [v|] eqn:E; eauto.
Qed.

Lemma xlsx_row_Ok i ck :
  cells_accept ck ->
  exists cells,
    xlsx_row (i, ck) = Ok cells
    /\ forall j v, nth_error (xlsx_values i ck) j = Some v ->
         exists c, nth_error cells j = Some (((i + 1)%nat, (1 + j)%nat), c)
                   /\ bind_value v = Ok (cell_value c).
Proof.
  intros Hacc. unfold xlsx_row. apply map_res_data_cells.
  assert (exists d, bind_value empty = Ok d) as He by (eexists; reflexivity).
  assert (exists d, bind_value (PInt 0) = Ok d) as Hz by (eexists; reflexivity).
  intros v Hv. simpl in Hv.
  repeat (destruct Hv as [<-|Hv];
          [first [ eexists; reflexivity
                 | apply cells_accept_get; auto; unfold schema_fields; simpl; tauto ]|]).
  contradiction.
Qed.

Lemma map_res_xlsx_rows checks : forall start,
  Forall cells_accept checks ->
  exists rows,
    map_res xlsx_row (enumerate start checks) = Ok rows
    /\ length rows = length checks
    /\ forall i ck, nth_error checks i = Some ck ->
         exists cells,
           nth_error rows i = Some cells
           /\ forall j v, nth_error (xlsx_values (start + i) ck) j = Some v ->
                exists c, nth_error cells j
                          = Some (((start + i + 1)%nat, (1 + j)%nat), c)
                          /\ bind_value v = Ok (cell_value c).
Proof.
  induction checks as [|ck checks IH]; intros start Hall; cbn [enumerate map_res].
  - exists []. repeat split. intros [|i] ck H; discriminate.
  - inv Hall. destruct (xlsx_row_Ok start ck H1) as (cells & -> & Hcells).
    cbn [bind].
    destruct (IH (S start) H2) as (rows & -> & Hlen & Hrows). cbn [bind].
    eexists. split; [reflexivity|]. split; [simpl; now rewrite Hlen|].
    intros [|i] ck' Hi; simpl in *.
    + inv Hi. rewrite Nat.add_0_r. eauto.
    + destruct (Hrows i ck' Hi) as (cells' & Hc & Hv).
      exists cells'. split; [exact Hc|].
      replace (start + S i)%nat with (S start + i)%nat by lia. exact Hv.
Qed.

(** C10, as amended.  No writer fails for want of a key.  Whatever keys
    the records lack, [generate_csv] succeeds when the amounts that are
    present are numbers in range, and [generate_xlsx] fills its worksheet
    without failure when the fields that are present are values a cell
    accepts; it then returns what openpyxl's [save] makes of that
    worksheet, bytes or an exception.  A missing text field comes out as
    the empty string; a missing amount comes out as 0, which the CSV prints
    as 0.00.  The defaults are those of the [get] calls inside the
    writers. *)
Theorem C10_missing_fields_take_defaults
  (wb_save : worksheet -> res bytes) (checks : list dict) :
  (amounts_in_range checks ->
   exists rows,
     generate_csv checks = Ok rows
     /\ forall i ck, nth_error checks i = Some ck ->
          exists row,
            nth_error rows (S i) = Some row
            /\ (forall k col, In (k, col) text_columns ->
                  dict_lookup ck k = None -> nth_error row col = Some empty)
            /\ (dict_lookup ck Amount = None ->
                  nth_error row 3 = Some (PStr (text "0.00"))))
  /\ (Forall cells_accept checks ->
      exists ws hdr rows totals,
        fill_worksheet checks = Ok ws
        /\ generate_xlsx wb_save checks = wb_save ws
        /\ ws_cells ws = hdr ++ concat rows ++ totals
        /\ length rows = length checks
        /\ forall i ck, nth_error checks i = Some ck ->
             exists cells,
               nth_error rows i = Some cells
               /\ (forall k col, In (k, col) text_columns ->
                     dict_lookup ck k = None ->
                     exists c,
                       nth_error cells col
                       = Some (((i + 2)%nat, (col + 1)%nat), c)
                       /\ cell_value c = empty)
               /\ (dict_lookup ck Amount = None ->
                     exists c,
                       nth_error cells 3 = Some (((i + 2)%nat, 4%nat), c)
                       /\ cell_value c = PInt 0)).
Proof.
  split.
  - intros Hrange.
    destruct (generate_csv_numbers checks Hrange) as (total & _ & Hcsv).
    eexists. split; [exact Hcsv|].
    intros i ck Hi. exists (csv_line (S i, ck)). split; [|split].
    + change ([headers] ++ ?l) with (headers :: l). simpl nth_error.
      rewrite nth_error_app1
        by (rewrite length_map, enumerate_length; apply nth_error_Some; congruence).
      rewrite nth_error_map, (enumerate_nth checks 1 i ck Hi). reflexivity.
    + intros k col Hin Hnone. unfold text_columns in Hin. simpl in Hin.
      repeat (destruct Hin as [Hin|Hin];
              [inv Hin; simpl; unfold dict_get; now rewrite Hnone|]).
      contradiction.
    + intros Hnone. simpl. unfold amount_of, dict_get. now rewrite Hnone.
  - intros Hall. unfold generate_xlsx, fill_worksheet.
    destruct (map_res header_cell (enumerate 1 headers)) as [hdr|] eqn:Hhdr;
      [|vm_compute in Hhdr; discriminate].
    cbn [bind].
    destruct (map_res_xlsx_rows checks 1 Hall) as (rows & -> & Hlen & Hrows).
    cbn [bind].
    destruct (bind_value (PStr (text "TOTAL"))) as [label|] eqn:Hlabel;
      [|vm_compute in Hlabel; discriminate].
    cbn [bind].
    destruct (bind_value_formula (length checks + 2 - 1)) as [formula ->].
    cbn [bind].
    eexists. exists hdr, rows. eexists.
    split; [reflexivity|]. split; [reflexivity|]. split; [reflexivity|].
    split; [exact Hlen|].
    intros i ck Hi. destruct (Hrows i ck Hi) as (cells & Hcells & Hvals).
    exists cells. split; [exact Hcells|]. split.
    + intros k col Hin Hnone. unfold text_columns in Hin. simpl in Hin.
      repeat (destruct Hin as [Hin|Hin];
              [inv Hin;
               match goal with
               | |- exists c, nth_error cells ?j = _ /\ _ =>
                   destruct (Hvals j empty) as (c & Hc & Hb);
                   [simpl; unfold dict_get; now rewrite Hnone|];
                   exists c; split;
                   [rewrite Hc; do 3 f_equal; lia
                   |symmetry in Hb; now apply bind_value_empty]
               end|]).
      contradiction.
    + intros Hnone.
      destruct (Hvals 3%nat (PInt 0)) as (c & Hc & Hb).
      { simpl. unfold amount_of, dict_get. now rewrite Hnone. }
      exists c. split; [rewrite Hc; do 3 f_equal; lia|].
      symmetry in Hb. now apply bind_value_zero.
Qed.

Lemma C10_missing_fields_take_defaults_witness :
  amounts_in_range [payer_only]
  /\ Forall cells_accept [payer_only]
  /\ (exists rows, generate_csv [payer_only] = Ok rows
                   /\ nth_error rows 1
                      = Some [PInt 1; PStr (text "A"); empty; PStr (text "0.00");
                              empty; empty; empty; empty; empty])
  /\ is_ok (fill_worksheet [payer_only]) = true
  /\ generate_xlsx toy_wb_save [payer_only] = Ok (text "PK").
Proof.
  assert (amounts_in_range [payer_only]) as Hf
    by (split; [repeat constructor|vm_compute; reflexivity]).
  assert (Forall cells_accept [payer_only]) as Hc.
  { constructor; [|constructor]. intros k v _ Hk. unfold payer_only in Hk.
    simpl in Hk. destruct (str_eqb Payer k); [|discriminate].
    inv Hk. eexists. reflexivity. }
  split; [exact Hf|]. split; [exact Hc|].
  destruct (C10_missing_fields_take_defaults toy_wb_save [payer_only])
    as [Hcsv Hxlsx].
  split.
  - destruct (Hcsv Hf) as (rows & Hrows & _). exists rows. split; [exact Hrows|].
    vm_compute in Hrows. inv Hrows. reflexivity.
  - destruct (Hxlsx Hc) as (ws & _ & _ & _ & Hws & Hsave & _).
    split; [now rewrite Hws|]. rewrite Hsave. reflexivity.
Defined.

(** C10, as stated, fails.  Records that lack keys can still carry a field
    a writer does not take.  The extractor returns a record whose only
    field is the amount 10^400, an int beyond the range of floats, and the
    CSV writer raises [OverflowError] on it; it returns a record whose only
    field is a payer with a control character, and the workbook writer
    raises on it while it fills the worksheet, before anything is saved. *)
Lemma C10_present_fields_can_fail :
  (parse_response_text huge_amount_answer = Ok [(Amount, PInt (10 ^ 400))]
   /\ generate_csv [[(Amount, PInt (10 ^ 400))]] = Raise OverflowError)
  /\ (parse_response_text control_payer_answer = Ok [(Payer, PStr [65%N; 1%N])]
      /\ forall wb_save,
           generate_xlsx wb_save [[(Payer, PStr [65%N; 1%N])]]
           = Raise (LibraryError (text "IllegalCharacterError"))).
Proof.
  split; [split; vm_compute; reflexivity|].
  split; [vm_compute; reflexivity|].
  intros wb_save. vm_compute. reflexivity.
Qed.

(** * Further properties *)

(** ** Decomposition of the uploads *)

Section DecompositionFacts.

Variable Image : Type.
Variable convert_from_bytes : bytes -> Z -> res (list Image).
Variable Image_open : bytes -> res Image.
Variable image_mode : Image -> str.
Variable image_convert : Image -> str -> res Image.
Variable enhance_contrast : Image -> float -> res Image.
Variable enhance_sharpness : Image -> float -> res Image.
Variable save_png : Image -> res bytes.
Variable b64encode : bytes -> str.

Local Notation "'encode'" :=
  (image_to_base64 Image image_mode image_convert enhance_contrast
     enhance_sharpness save_png b64encode).
Local Notation "'images_of'" :=
  (images_of_upload Image convert_from_bytes Image_open image_mode
     image_convert enhance_contrast enhance_sharpness save_png b64encode).
Local Notation "'decompose'" :=
  (get_images_from_uploads Image convert_from_bytes Image_open image_mode
     image_convert enhance_contrast enhance_sharpness save_png b64encode).
Local Notation "'decompose_loop'" :=
  (get_images_loop Image convert_from_bytes Image_open image_mode
     image_convert enhance_contrast enhance_sharpness save_png b64encode).

Lemma get_images_loop_concat files : forall acc,
  decompose_loop files acc
  = (lists <- map_res images_of files ;; Ok (acc ++ concat lists)).
Proof.
  induction files as [|f files IH]; intros acc; simpl.
  - now rewrite app_nil_r.
  - destruct (images_of f) as [new|e]; simpl; [|reflexivity].
    rewrite IH. destruct (map_res images_of files); simpl; [|reflexivity].
    now rewrite app_assoc.
Qed.

(** X1.  The images of a batch are the images of its uploads, upload after
    upload in the order of the uploads, and within an upload in the order
    of its pages; the first upload that cannot be decomposed decides the
    exception. *)
Theorem X1_images_in_upload_order (files : list upload) :
  decompose files = (lists <- map_res images_of files ;; Ok (concat lists)).
Proof.
  unfold get_images_from_uploads. now rewrite get_images_loop_concat.
Qed.

(** X2.  An upload that is not a PDF always contributes exactly one image,
    provided the imaging library fails with ordinary errors only: the
    enhanced picture as PNG when the bytes decode and enhance, otherwise
    the bytes as they are under the declared media type, PNG when none is
    declared. *)
Theorem X2_image_upload_gives_one_image (f : upload) :
  str_eqb (upload_type f) pdf_type = false ->
  ordinary (img <- Image_open (upload_raw f) ;; encode img) = true ->
  images_of f
  = Ok [match (img <- Image_open (upload_raw f) ;; encode img) with
        | Ok b64 => (b64, png_type)
        | Raise _ => (b64encode (upload_raw f), declared_type f)
        end].
Proof.
  intros Hpdf Hord. unfold images_of_upload. rewrite Hpdf.
  unfold bytes_to_base64, try_except, bind in *.
  destruct (Image_open (upload_raw f)) as [img|e]; simpl in *.
  - fold encode. destruct (encode img) as [b64|e]; simpl in *; [reflexivity|].
    rewrite Hord. reflexivity.
  - rewrite Hord. reflexivity.
Qed.

(** X3.  A PDF whose pages all encode contributes one PNG image per page,
    in page order. *)
Theorem X3_pdf_gives_one_image_per_page
  (f : upload) (pages : list Image) (b64s : list str) :
  upload_type f = pdf_type ->
  convert_from_bytes (upload_raw f) 300 = Ok pages ->
  map_res encode pages = Ok b64s ->
  images_of f = Ok (map (fun b64 => (b64, png_type)) b64s)
  /\ length b64s = length pages.
Proof.
  intros Hpdf Hconv Henc. split; [|now apply map_res_length in Henc].
  unfold images_of_upload. rewrite Hpdf. simpl. rewrite Hconv. simpl.
  fold encode. clear Hconv. revert b64s Henc.
  induction pages as [|p pages IH]; intros b64s Henc; simpl in *.
  - now inv Henc.
  - destruct (encode p) as [b|e]; simpl in *; [|discriminate].
    destruct (map_res encode pages) as [bs|e]; simpl in *; [|discriminate].
    inv Henc. now rewrite (IH bs eq_refl).
Qed.

End DecompositionFacts.

Lemma X2_image_upload_gives_one_image_witness :
  str_eqb (upload_type good_scan) pdf_type = false
  /\ toy_images_of good_scan = Ok [(text "page-1", png_type)].
Proof.
  split; [reflexivity|].
  unfold toy_images_of.
  rewrite (X2_image_upload_gives_one_image bytes toy_convert_from_bytes
             (fun raw => Ok raw) (fun _ => text "RGB") (fun img _ => Ok img)
             (fun img _ => Ok img) (fun img _ => Ok img) (fun img => Ok img)
             (fun raw => raw) good_scan); reflexivity.
Defined.

Lemma X3_pdf_gives_one_image_per_page_witness :
  upload_type one_page_pdf = pdf_type
  /\ toy_images_of one_page_pdf = Ok [(upload_raw one_page_pdf, png_type)].
Proof.
  split; [reflexivity|].
  exact (proj1 (X3_pdf_gives_one_image_per_page bytes toy_convert_from_bytes
                  (fun raw => Ok raw) (fun _ => text "RGB") (fun img _ => Ok img)
                  (fun img _ => Ok img) (fun img _ => Ok img) (fun img => Ok img)
                  (fun raw => raw) one_page_pdf [upload_raw one_page_pdf]
                  [upload_raw one_page_pdf] eq_refl eq_refl eq_refl)).
Defined.

(** ** The text of the response *)

Lemma lstrip_spaces lead s :
  forallb isspace lead = true -> lstrip (lead ++ s) = lstrip s.
Proof.
  induction lead as [|c lead IH]; simpl; [reflexivity|].
  intros H. apply andb_true_iff in H as [Hc Hl]. rewrite Hc. auto.
Qed.

Lemma lstrip_nil_spaces s : lstrip s = [] -> forallb isspace s = true.
Proof.
  induction s as [|c s IH]; simpl; [reflexivity|].
  destruct (isspace c); [auto|discriminate].
Qed.

Lemma lstrip_app s t : lstrip s <> [] -> lstrip (s ++ t) = lstrip s ++ t.
Proof.
  induction s as [|c s IH]; simpl; [congruence|].
  destruct (isspace c); auto.
Qed.

Lemma forallb_reversed {A : Type} (f : A -> bool) (l : list A) :
  forallb f (rev l) = forallb f l.
Proof.
  induction l as [|x l IH]; simpl; [reflexivity|].
  rewrite forallb_app, IH. simpl. rewrite andb_true_r. apply andb_comm.
Qed.

Lemma rstrip_spaces s trail :
  forallb isspace trail = true -> rstrip (s ++ trail) = rstrip s.
Proof.
  intros H. unfold rstrip. rewrite rev_app_distr, lstrip_spaces; [reflexivity|].
  now rewrite forallb_reversed.
Qed.

Lemma rstrip_all_spaces s : forallb isspace s = true -> rstrip s = [].
Proof.
  intros H. unfold rstrip.
  rewrite <- (app_nil_r (rev s)), lstrip_spaces; [reflexivity|].
  now rewrite forallb_reversed.
Qed.

Lemma strip_surrounded lead s trail :
  forallb isspace lead = true -> forallb isspace trail = true ->
  strip (lead ++ s ++ trail) = strip s.
Proof.
  intros Hl Ht. unfold strip. rewrite lstrip_spaces by assumption.
  destruct (lstrip s) as [|c r] eqn:E.
  - apply lstrip_nil_spaces in E. rewrite lstrip_spaces by assumption.
    rewrite (rstrip_all_spaces []) by reflexivity.
    destruct (lstrip trail) eqn:Et; [apply rstrip_all_spaces; reflexivity|].
    apply rstrip_all_spaces.
    assert (forallb isspace (lstrip trail) = true) as Hs.
    { clear -Ht. induction trail as [|c t IH]; simpl in *; [reflexivity|].
      apply andb_true_iff in Ht as [Hc Ht]. rewrite Hc. auto. }
    now rewrite Et in Hs.
  - rewrite lstrip_app by (rewrite E; discriminate).
    rewrite E. now apply rstrip_spaces.
Qed.

(** X4.  White space around the text of the response makes no difference
    to what the extractor returns or raises. *)
Theorem X4_surrounding_space_is_ignored (lead raw trail : str) :
  forallb isspace lead = true -> forallb isspace trail = true ->
  parse_response_text (lead ++ raw ++ trail) = parse_response_text raw.
Proof.
  intros Hl Ht. unfold parse_response_text. now rewrite strip_surrounded.
Qed.

Lemma X4_surrounding_space_is_ignored_witness :
  forallb isspace (text "  ") = true
  /\ forallb isspace newline = true
  /\ parse_response_text (text "  " ++ answer_3 ++ newline) = Ok record_3.
Proof.
  split; [reflexivity|]. split; [reflexivity|].
  rewrite (X4_surrounding_space_is_ignored (text "  ") answer_3 newline);
    vm_compute; reflexivity.
Defined.

(** *** The code fence *)

Lemma find_char_absent c s : ~ In c s -> find s [c] = None.
Proof.
  induction s as [|b s IH]; intros H; simpl; [reflexivity|].
  destruct (c =? b)%N eqn:E.
  - apply N.eqb_eq in E. subst. exfalso. apply H. now left.
  - simpl. rewrite IH; [reflexivity|]. intros Hin. apply H. now right.
Qed.

Lemma find_char_present c s : In c s -> exists i, find s [c] = Some i.
Proof.
  induction s as [|b s IH]; intros H; simpl; [contradiction|].
  destruct (c =? b)%N eqn:E; simpl; [eauto|].
  destruct H as [->|H]; [now rewrite N.eqb_refl in E|].
  destruct (IH H) as [i ->]. simpl. eauto.
Qed.

Lemma find_char_first c pre rest :
  ~ In c pre -> find (pre ++ c :: rest) [c] = Some (length pre).
Proof.
  induction pre as [|b pre IH]; intros H; simpl.
  - now rewrite N.eqb_refl.
  - destruct (c =? b)%N eqn:E.
    + apply N.eqb_eq in E. subst. exfalso. apply H. now left.
    + simpl. rewrite IH; [reflexivity|]. intros Hin. apply H. now right.
Qed.

Lemma startswith_length s : forall p,
  startswith s p = true -> (length p <= length s)%nat.
Proof.
  induction s as [|b s IH]; intros [|a p] H; simpl in *; try lia; try discriminate.
  apply andb_true_iff in H as [_ H]. apply IH in H. lia.
Qed.

Lemma startswith_prefix p : forall s, startswith (p ++ s) p = true.
Proof.
  induction p as [|a p IH]; intros s; simpl; [reflexivity|].
  now rewrite N.eqb_refl, IH.
Qed.

Lemma rfind_short s : forall p,
  (length s < length p)%nat -> rfind s p = None.
Proof.
  induction s as [|b s IH]; intros p H; simpl.
  - destruct p; [simpl in H; lia|reflexivity].
  - simpl in H. rewrite IH by lia.
    destruct (startswith (b :: s) p) eqn:E; [|reflexivity].
    apply startswith_length in E. simpl in E. lia.
Qed.

(** The last occurrence of [p] in a text that ends with [p] is that end. *)
Lemma rfind_suffix b p :
  p <> [] -> rfind (b ++ p) p = Some (length b).
Proof.
  intros Hp. induction b as [|c b IH]; simpl.
  - assert (startswith p p = true) as Hself
      by (rewrite <- (app_nil_r p) at 1; apply startswith_prefix).
    destruct p as [|a p]; [congruence|]. cbn [rfind].
    rewrite rfind_short by (simpl; lia). now rewrite Hself.
  - now rewrite IH.
Qed.

Lemma rsplit1_first s sep : exists piece rest, rsplit1 s sep = piece :: rest.
Proof. unfold rsplit1. destruct (rfind s sep); eauto. Qed.

Lemma strip_fence_fails t :
  strip_fence t = Raise IndexError
  <-> startswith t fence = true /\ ~ In 10%N t.
Proof.
  unfold strip_fence, bind, getitem, split1. split.
  - intros H. destruct (startswith t fence); [|discriminate]. split; [reflexivity|].
    intros Hin. apply find_char_present in Hin as [i Hi].
    assert (find t newline = Some i) as Hi' by exact Hi.
    rewrite Hi' in H. simpl in H.
    destruct (rsplit1_first (skipn (i + 1) t) fence) as (piece & rest & E).
    rewrite E in H. discriminate.
  - intros [Hs Hn]. rewrite Hs.
    assert (find t newline = None) as Hnone by exact (find_char_absent _ _ Hn).
    now rewrite Hnone.
Qed.

(** X5.  The extractor raises [IndexError] exactly when the stripped
    response opens with a code fence and has no line break: a fenced
    answer written on one line fails whatever it holds. *)
Theorem X5_one_line_fence_fails (raw : str) :
  parse_response_text raw = Raise IndexError
  <-> startswith (strip raw) fence = true /\ ~ In 10%N (strip raw).
Proof.
  rewrite <- strip_fence_fails. unfold parse_response_text, bind. split.
  - intros H. destruct (strip_fence (strip raw)) as [t|e] eqn:E1.
    + exfalso. destruct (json_loads (find_object t)) as [v|e] eqn:E2.
      * destruct (as_dict v) as [d|e] eqn:E3.
        -- apply ensure_amount_raises in H. discriminate.
        -- apply as_dict_raises in E3. congruence.
      * apply json_loads_raises in E2. congruence.
    + congruence.
  - intros H. now rewrite H.
Qed.

(** X6.  Of an answer made of a fence line, a body and a closing fence,
    the clean-up keeps the body, stripped of surrounding white space,
    whatever the body holds. *)
Theorem X6_fenced_body_is_kept (lang body : str) :
  ~ In 10%N lang ->
  strip_fence (fence ++ lang ++ newline ++ body ++ fence) = Ok (strip body).
Proof.
  intros Hlang. unfold strip_fence. rewrite startswith_prefix.
  assert (split1 (fence ++ lang ++ newline ++ body ++ fence) newline
          = [fence ++ lang; body ++ fence]) as ->.
  { unfold split1.
    assert (find (fence ++ lang ++ newline ++ body ++ fence) newline
            = Some (length (fence ++ lang))) as ->.
    { rewrite (app_assoc fence lang). apply (find_char_first 10%N).
      intros Hin. apply in_app_or in Hin as [Hin|Hin]; [|auto].
      simpl in Hin. repeat (destruct Hin as [Hin|Hin]; [discriminate|]).
      contradiction. }
    rewrite (app_assoc fence lang).
    rewrite firstn_app, firstn_all, Nat.sub_diag. simpl firstn at 1.
    rewrite app_nil_r. f_equal. f_equal.
    rewrite skipn_app, skipn_all2 by lia.
    replace (length (fence ++ lang) + length newline - length (fence ++ lang))%nat
      with 1%nat by (simpl; lia).
    reflexivity. }
  cbn [getitem nth_error bind].
  assert (rsplit1 (body ++ fence) fence = [body; []]) as ->.
  { unfold rsplit1. rewrite rfind_suffix by discriminate.
    rewrite firstn_app, firstn_all, Nat.sub_diag. simpl firstn at 1.
    rewrite app_nil_r. f_equal. f_equal.
    apply skipn_all2. rewrite length_app. lia. }
  reflexivity.
Qed.

Lemma X6_fenced_body_is_kept_witness :
  ~ In 10%N (text "json")
  /\ strip_fence fenced_answer = Ok fenced_body.
Proof.
  assert (~ In 10%N (text "json")) as H.
  { simpl. intros Hin.
    repeat (destruct Hin as [Hin|Hin]; [discriminate|]). contradiction. }
  split; [exact H|].
  unfold fenced_answer.
  rewrite (app_assoc fenced_body newline fence).
  rewrite (X6_fenced_body_is_kept (text "json") (fenced_body ++ newline) H).
  vm_compute. reflexivity.
Defined.

(** *** The record *)

Lemma ensure_amount_no_string d data :
  ensure_amount d = Ok data ->
  forall s, dict_lookup data Amount <> Some (PStr s).
Proof.
  unfold ensure_amount, bind. intros H s.
  destruct (dict_lookup d Amount) as [a|] eqn:Ha.
  - destruct a; try (inv H; rewrite Ha; discriminate).
    destruct (float_of_str _); [|discriminate]. inv H.
    rewrite dict_lookup_set, str_eqb_refl. discriminate.
  - inv H. rewrite Ha. discriminate.
Qed.

Lemma ensure_amount_others d data :
  ensure_amount d = Ok data ->
  forall k, k <> Amount -> dict_lookup data k = dict_lookup d k.
Proof.
  unfold ensure_amount, bind. intros H k Hk.
  destruct (dict_lookup d Amount) as [a|] eqn:Ha.
  - destruct a; try (inv H; reflexivity).
    destruct (float_of_str _); [|discriminate]. inv H.
    rewrite dict_lookup_set. destruct (str_eqb Amount k) eqn:E; [|reflexivity].
    apply str_eqb_eq in E. congruence.
  - inv H. reflexivity.
Qed.

Lemma parse_response_text_Ok raw data :
  parse_response_text raw = Ok data ->
  exists t d,
    strip_fence (strip raw) = Ok t
    /\ json_loads (find_object t) = Ok (PDict d)
    /\ ensure_amount d = Ok data.
Proof.
  unfold parse_response_text, bind. intros H.
  destruct (strip_fence (strip raw)) as [t|] eqn:Ht; [|discriminate].
  destruct (json_loads (find_object t)) as [v|] eqn:Hv; [|discriminate].
  destruct v; try discriminate. simpl in H. eauto.
Qed.

(** X7.  The amount of a record the extractor returns is never a string,
    and the record is left as it is by a second coercion of its amount. *)
Theorem X7_amount_is_never_a_string (raw : str) (data : dict) :
  parse_response_text raw = Ok data ->
  (forall s, dict_lookup data Amount <> Some (PStr s))
  /\ ensure_amount data = Ok data.
Proof.
  intros H. destruct (parse_response_text_Ok raw data H) as (t & d & _ & _ & He).
  pose proof (ensure_amount_no_string d data He) as Hno.
  split; [exact Hno|].
  unfold ensure_amount. destruct (dict_lookup data Amount) as [[]|] eqn:E;
    try reflexivity.
  now destruct (Hno s).
Qed.

Lemma X7_amount_is_never_a_string_witness :
  parse_response_text dollar_answer = Ok [(Amount, PFloat float_1204_50)]
  /\ ensure_amount [(Amount, PFloat float_1204_50)]
     = Ok [(Amount, PFloat float_1204_50)].
Proof.
  assert (parse_response_text dollar_answer = Ok [(Amount, PFloat float_1204_50)])
    as H by (vm_compute; reflexivity).
  split; [exact H|].
  exact (proj2 (X7_amount_is_never_a_string dollar_answer _ H)).
Defined.

(** X8.  Apart from the amount, every field of the record has the value
    the decoder gave it: payer, date, bank, check number, account, routing
    and claim pass through untouched, and so does any other key; and when
    the decoded amount is not a string the record is the decoded object
    itself. *)
Theorem X8_other_fields_pass_through (raw : str) (data : dict) :
  parse_response_text raw = Ok data ->
  exists t d,
    strip_fence (strip raw) = Ok t
    /\ json_loads (find_object t) = Ok (PDict d)
    /\ (forall k, k <> Amount -> dict_lookup data k = dict_lookup d k)
    /\ ((forall s, dict_lookup d Amount <> Some (PStr s)) -> data = d).
Proof.
  intros H. destruct (parse_response_text_Ok raw data H) as (t & d & Ht & Hd & He).
  exists t, d. split; [exact Ht|]. split; [exact Hd|]. split.
  - now apply ensure_amount_others.
  - intros Hno. unfold ensure_amount in He.
    destruct (dict_lookup d Amount) as [[]|] eqn:E; try (now inv He).
    now destruct (Hno s).
Qed.

Lemma X8_other_fields_pass_through_witness :
  parse_response_text answer_3 = Ok record_3
  /\ dict_lookup record_3 Payer = Some (PStr (text "C")).
Proof.
  assert (parse_response_text answer_3 = Ok record_3) as H
    by (vm_compute; reflexivity).
  split; [exact H|].
  destruct (X8_other_fields_pass_through answer_3 record_3 H)
    as (t & d & Ht & Hd & Hk & _).
  rewrite Hk by discriminate.
  vm_compute in Ht. inv Ht. vm_compute in Hd. inv Hd. reflexivity.
Defined.

(** *** Distinct keys *)

Lemma dict_set_keys_in d k v x :
  In x (dict_keys (dict_set d k v)) -> x = k \/ In x (dict_keys d).
Proof.
  induction d as [|[k0 v0] d IH]; simpl.
  - intros [<-|[]]. now left.
  - destruct (str_eqb k0 k); simpl; [tauto|].
    intros [<-|H]; [tauto|]. apply IH in H. tauto.
Qed.

Lemma dict_set_NoDup d k v :
  NoDup (dict_keys d) -> NoDup (dict_keys (dict_set d k v)).
Proof.
  induction d as [|[k0 v0] d IH]; simpl; intros H.
  - constructor; [intros []|constructor].
  - destruct (str_eqb k0 k) eqn:E; simpl; [exact H|].
    inv H. constructor; [|auto].
    intros Hin. apply dict_set_keys_in in Hin as [->|Hin]; [|contradiction].
    now rewrite str_eqb_refl in E.
Qed.

Lemma dict_lookup_In d : forall k v,
  NoDup (dict_keys d) -> In (k, v) d -> dict_lookup d k = Some v.
Proof.
  induction d as [|[k0 v0] d IH]; intros k v Hnd Hin; simpl in *; [contradiction|].
  inv Hnd. destruct Hin as [Hin|Hin].
  - inv Hin. now rewrite str_eqb_refl.
  - destruct (str_eqb k0 k) eqn:E; [|auto].
    apply str_eqb_eq in E. subst k0. exfalso. apply H1.
    change k with (fst (k, v)). now apply in_map.
Qed.

(** The members of an object are gathered in a dict of distinct keys. *)
Lemma object_members_distinct n : forall s acc v r,
  object_members n s acc = Some (v, r) -> NoDup (dict_keys acc) ->
  exists d, v = PDict d /\ NoDup (dict_keys d).
Proof.
  induction n as [|n IH]; intros s acc v r H Hnd; [discriminate|].
  cbn [scan_once object_members array_items] in H.
  destruct (scanstring (S (length s)) s) as [[key r1]|]; [|discriminate].
  destruct (skip_ws r1) as [|c r2]; [discriminate|].
  destruct (c =? 58)%N; [|discriminate].
  destruct (scan_once n (skip_ws r2)) as [[v0 r3]|]; [|discriminate].
  destruct (skip_ws r3) as [|c2 r4]; [discriminate|].
  destruct (c2 =? 125)%N.
  { inv H. eexists. split; [reflexivity|]. now apply dict_set_NoDup. }
  destruct (c2 =? 44)%N; [|discriminate].
  destruct (skip_ws r4) as [|c3 r5]; [discriminate|].
  destruct (c3 =? 34)%N; [|discriminate].
  apply IH in H; [exact H|]. now apply dict_set_NoDup.
Qed.

Lemma array_items_list n : forall s acc v r,
  array_items n s acc = Some (v, r) -> exists l, v = PList l.
Proof.
  induction n as [|n IH]; intros s acc v r H; [discriminate|].
  cbn [scan_once object_members array_items] in H.
  destruct (scan_once n s) as [[v0 r0]|]; [|discriminate].
  destruct (skip_ws r0) as [|c r1]; [discriminate|].
  destruct (c =? 93)%N; [inv H; eauto|].
  destruct (c =? 44)%N; [|discriminate]. eauto.
Qed.

Lemma match_number_value s v r :
  match_number s = Some (v, r) ->
  (exists z, v = PInt z) \/ (exists x, v = PFloat x).
Proof.
  unfold match_number. intros H.
  destruct (match s with
            | [] => (false, [])
            | c :: r0 => if (c =? 45)%N then (true, r0) else (false, s)
            end) as [neg s1].
  destruct s1 as [|c r0]; [discriminate|].
  destruct (is_digit c); [|discriminate].
  destruct (if (c =? 48)%N then ([], r0) else take_digits r0) as [ds r1].
  destruct (take_fraction r1) as [frac r2].
  destruct (take_exponent r2) as [exp r3].
  destruct frac, exp; inv H; eauto.
Qed.

Lemma scan_once_distinct n s v r d :
  scan_once n s = Some (v, r) -> v = PDict d -> NoDup (dict_keys d).
Proof.
  destruct n as [|n]; [discriminate|]. intros H ->.
  cbn [scan_once object_members array_items] in H.
  destruct s as [|c s0]; [discriminate|].
  destruct (c =? 34)%N.
  { destruct (scanstring _ _) as [[t r']|]; discriminate. }
  destruct (c =? 123)%N.
  { destruct (skip_ws s0) as [|c1 r1]; [discriminate|].
    destruct (c1 =? 125)%N; [inv H; constructor|].
    destruct (c1 =? 34)%N; [|discriminate].
    apply object_members_distinct in H as (d' & Hd & Hnd); [|constructor].
    now inv Hd. }
  destruct (c =? 91)%N.
  { destruct (skip_ws s0) as [|c1 r1]; [discriminate|].
    destruct (c1 =? 93)%N; [discriminate|].
    apply array_items_list in H as [l Hl]. discriminate. }
  destruct (startswith (c :: s0) (text "null")); [discriminate|].
  destruct (startswith (c :: s0) (text "true")); [discriminate|].
  destruct (startswith (c :: s0) (text "false")); [discriminate|].
  destruct (match_number (c :: s0)) as [[v0 r0]|] eqn:E.
  { inv H. apply match_number_value in E as [[z Hz]|[x Hx]]; discriminate. }
  destruct (startswith (c :: s0) (text "NaN")); [discriminate|].
  destruct (startswith (c :: s0) (text "Infinity")); [discriminate|].
  destruct (startswith (c :: s0) (text "-Infinity")); discriminate.
Qed.

Lemma json_loads_distinct s d :
  json_loads s = Ok (PDict d) -> NoDup (dict_keys d).
Proof.
  unfold json_loads. intros H.
  destruct (scan_once _ _) as [[v r]|] eqn:E; [|discriminate].
  destruct (skip_ws r); [|discriminate]. inv H.
  eapply scan_once_distinct; [exact E|reflexivity].
Qed.

(** X9.  The keys of a record the extractor returns are distinct, even
    when the response repeats a key: every binding of the record is the
    one [get] finds. *)
Theorem X9_record_keys_are_distinct (raw : str) (data : dict) :
  parse_response_text raw = Ok data ->
  NoDup (dict_keys data)
  /\ forall k v, In (k, v) data -> dict_lookup data k = Some v.
Proof.
  intros H. destruct (parse_response_text_Ok raw data H) as (t & d & _ & Hd & He).
  assert (NoDup (dict_keys data)) as Hnd.
  { apply json_loads_distinct in Hd. unfold ensure_amount, bind in He.
    destruct (dict_lookup d Amount) as [[]|]; try (now inv He).
    destruct (float_of_str _); [|discriminate]. inv He.
    now apply dict_set_NoDup. }
  split; [exact Hnd|]. intros k v. now apply dict_lookup_In.
Qed.

Lemma X9_record_keys_are_distinct_witness :
  parse_response_text repeated_key_answer
  = Ok [(Payer, PStr (text "B")); (Amount, PInt 1)]
  /\ NoDup (dict_keys [(Payer, PStr (text "B")); (Amount, PInt 1)]).
Proof.
  assert (parse_response_text repeated_key_answer
          = Ok [(Payer, PStr (text "B")); (Amount, PInt 1)]) as H
    by (vm_compute; reflexivity).
  split; [exact H|].
  exact (proj1 (X9_record_keys_are_distinct repeated_key_answer _ H)).
Defined.

(** *** The search for the object *)

Lemma brace_free_block_flat mid rest :
  brace_free mid ->
  brace_free_block (mid ++ 125%N :: rest) = Some (mid ++ [125%N]).
Proof.
  induction mid as [|c mid IH]; intros H; simpl; [reflexivity|].
  apply brace_free_cons in H as [[H1 H2] H].
  apply N.eqb_neq in H1, H2. rewrite H1, H2, IH by assumption. reflexivity.
Qed.

Lemma re_search_object_flat m :
  flat_object_text m -> re_search_object m = Some m.
Proof.
  intros (mid & -> & Hfree). simpl.
  now rewrite brace_free_block_flat.
Qed.

(** X10.  Searching the found object again finds the same object: what
    the extractor decodes is either the whole text or a substring that has
    exactly one opening and one closing brace, at its two ends. *)
Theorem X10_found_object_is_stable (t : str) :
  find_object (find_object t) = find_object t
  /\ (find_object t = t \/ flat_object_text (find_object t)).
Proof.
  unfold find_object. destruct (re_search_object t) as [m|] eqn:E.
  - apply re_search_object_Some in E as (pre & post & _ & Hflat & _).
    rewrite (re_search_object_flat m Hflat). auto.
  - rewrite E. auto.
Qed.

(** *** The decoder *)

Lemma skip_ws_spaces ws s :
  forallb is_json_ws ws = true -> skip_ws (ws ++ s) = skip_ws s.
Proof.
  induction ws as [|c ws IH]; simpl; [reflexivity|].
  intros H. apply andb_true_iff in H as [Hc Hw]. rewrite Hc. auto.
Qed.

(** X11.  Blanks, tabs and line breaks before a JSON document do not
    change what [json.loads] makes of it. *)
Theorem X11_json_leading_space (ws s : str) :
  forallb is_json_ws ws = true -> json_loads (ws ++ s) = json_loads s.
Proof.
  intros H. unfold json_loads. rewrite skip_ws_spaces by assumption.
  rewrite (proj1 (scan_fuel (2 * length s + 2)) (skip_ws s)
             (2 * length (ws ++ s) + 2)%nat).
  - reflexivity.
  - pose proof (skip_ws_length s). lia.
  - rewrite length_app. lia.
Qed.

Lemma X11_json_leading_space_witness :
  forallb is_json_ws (text "  ") = true
  /\ json_loads (text "  " ++ answer_3) = Ok (PDict record_3).
Proof.
  split; [reflexivity|].
  rewrite (X11_json_leading_space (text "  ") answer_3); vm_compute; reflexivity.
Defined.

(** *** Commentary around the object *)

Lemma lstrip_In c s : In c (lstrip s) -> In c s.
Proof.
  induction s as [|b s IH]; simpl; [auto|].
  destruct (isspace b); [auto|]. simpl. auto.
Qed.

Lemma lstrip_before c pre s :
  isspace c = false -> lstrip (pre ++ c :: s) = lstrip pre ++ c :: s.
Proof.
  intros Hc. induction pre as [|b pre IH]; simpl.
  - now rewrite Hc.
  - destruct (isspace b); [exact IH|reflexivity].
Qed.

Lemma rstrip_after c s post :
  isspace c = false -> rstrip ((s ++ [c]) ++ post) = (s ++ [c]) ++ rstrip post.
Proof.
  intros Hc. unfold rstrip.
  rewrite rev_app_distr, (rev_app_distr s [c]). simpl rev at 2. simpl app at 2.
  rewrite lstrip_before by assumption.
  rewrite rev_app_distr. simpl rev at 1. now rewrite rev_involutive.
Qed.

Lemma strip_around_object pre mid post :
  strip (pre ++ (123%N :: mid ++ [125%N]) ++ post)
  = lstrip pre ++ (123%N :: mid ++ [125%N]) ++ rstrip post.
Proof.
  unfold strip.
  assert (lstrip (pre ++ (123%N :: mid ++ [125%N]) ++ post)
          = ((lstrip pre ++ 123%N :: mid) ++ [125%N]) ++ post) as ->.
  { change ((123%N :: mid ++ [125%N]) ++ post)
      with (123%N :: (mid ++ [125%N]) ++ post).
    rewrite lstrip_before by reflexivity.
    rewrite <- !app_assoc. reflexivity. }
  rewrite rstrip_after by reflexivity.
  rewrite <- !app_assoc. simpl. rewrite <- app_assoc. reflexivity.
Qed.

Lemma re_search_object_skip pre m post :
  brace_free pre -> flat_object_text m ->
  re_search_object (pre ++ m ++ post) = Some m.
Proof.
  intros Hpre (mid & -> & Hfree). induction pre as [|c pre IH]; simpl.
  - rewrite <- app_assoc. simpl. now rewrite brace_free_block_flat.
  - apply brace_free_cons in Hpre as [[Hc _] Hpre]. apply N.eqb_neq in Hc.
    rewrite Hc. auto.
Qed.

Lemma startswith_fence_head c s :
  c <> 96%N -> startswith (c :: s) fence = false.
Proof.
  intros Hc. apply N.eqb_neq in Hc. rewrite N.eqb_sym in Hc.
  change fence with [96%N; 96%N; 96%N]. cbn [startswith]. now rewrite Hc.
Qed.

(** X12.  Commentary around a flat JSON object does not matter: when the
    text before the object has no brace and no backquote, the extractor
    returns for the whole response what it returns for the object alone,
    whatever follows the object. *)
Theorem X12_commentary_is_ignored (pre obj post : str) :
  brace_free pre -> backquote_free pre -> flat_object_text obj ->
  parse_response_text (pre ++ obj ++ post) = parse_response_text obj.
Proof.
  intros Hbrace Hquote Hflat.
  assert (forall a b,
            brace_free a -> backquote_free a ->
            parse_response_text (a ++ obj ++ b)
            = (v <- json_loads obj ;; data <- as_dict v ;; ensure_amount data))
    as Hgen.
  { intros a b Ha Hq. destruct Hflat as (mid & -> & Hfree).
    unfold parse_response_text. rewrite strip_around_object.
    assert (strip_fence (lstrip a ++ (123%N :: mid ++ [125%N]) ++ rstrip b)
            = Ok (lstrip a ++ (123%N :: mid ++ [125%N]) ++ rstrip b)) as ->.
    { unfold strip_fence. destruct (lstrip a) as [|c r] eqn:E.
      - reflexivity.
      - simpl app. rewrite startswith_fence_head; [reflexivity|].
        intros ->. apply Hq. apply lstrip_In. rewrite E. now left. }
    cbn [bind]. unfold find_object.
    rewrite re_search_object_skip.
    - reflexivity.
    - intros c Hc. apply Ha. now apply lstrip_In.
    - now exists mid. }
  rewrite (Hgen pre post Hbrace Hquote).
  rewrite <- (Hgen [] []); [|apply brace_free_nil|intros []].
  simpl. now rewrite app_nil_r.
Qed.

Lemma X12_commentary_is_ignored_witness :
  parse_response_text chatty_answer
  = parse_response_text (jtext "{'Payer': 'A', 'Amount': 7}").
Proof.
  apply (X12_commentary_is_ignored (text "Here is the data: ")
           (jtext "{'Payer': 'A', 'Amount': 7}") (text " I hope this helps.")).
  - intros c Hc. simpl in Hc.
    repeat (destruct Hc as [<-|Hc]; [split; discriminate|]). contradiction.
  - intros Hc. simpl in Hc.
    repeat (destruct Hc as [Hc|Hc]; [discriminate|]). contradiction.
  - exists (jtext "'Payer': 'A', 'Amount': 7"). split; [reflexivity|].
    intros c Hc. simpl in Hc.
    repeat (destruct Hc as [<-|Hc]; [split; discriminate|]). contradiction.
Defined.

(** *** The two formats of an amount *)

Lemma digits_without_commas s :
  forallb is_digit s = true -> without_commas s = s.
Proof.
  induction s as [|c s IH]; simpl; [reflexivity|].
  intros H. apply andb_prop in H as [Hc Hs].
  unfold is_digit in Hc. apply andb_prop in Hc as [H1 H2].
  apply N.leb_le in H1, H2.
  destruct (N.eqb_spec c 44) as [->|_]; [lia|].
  simpl. f_equal. auto.
Qed.

Lemma without_commas_app a b :
  without_commas (a ++ b) = without_commas a ++ without_commas b.
Proof. apply filter_app. Qed.

Lemma without_commas_rev s : without_commas (rev s) = rev (without_commas s).
Proof.
  induction s as [|c s IH]; [reflexivity|].
  simpl rev. rewrite without_commas_app, IH.
  unfold without_commas at 2 3. simpl.
  destruct (negb (c =? 44)%N); simpl; [reflexivity|now rewrite app_nil_r].
Qed.

Lemma group3_without_commas n : forall l,
  (length l <= n)%nat -> forallb is_digit l = true ->
  without_commas (group3 l) = l.
Proof.
  induction n as [|n IH]; intros l Hlen Hdig.
  - destruct l; [reflexivity|simpl in Hlen; lia].
  - destruct l as [|a [|b [|c [|d rest]]]];
      try (simpl group3; now apply digits_without_commas).
    change (group3 (a :: b :: c :: d :: rest))
      with ([a; b; c] ++ [44%N] ++ group3 (d :: rest)).
    rewrite !without_commas_app.
    change (a :: b :: c :: d :: rest) with ([a; b; c] ++ d :: rest) in Hdig.
    rewrite forallb_app in Hdig. apply andb_prop in Hdig as [H3 Hrest].
    rewrite (digits_without_commas [a; b; c]) by assumption.
    rewrite IH; [reflexivity| |assumption].
    simpl in Hlen |- *. lia.
Qed.

Lemma sign_without_commas s : without_commas (sign_str s) = sign_str s.
Proof. now destruct s. Qed.

Lemma format_without_commas x : without_commas (format_comma_2f x) = format_2f x.
Proof.
  destruct x as [s|s| |s m e]; try (destruct s; reflexivity); [reflexivity|].
  unfold format_comma_2f, format_2f.
  set (h := Z.to_N (hundredths m e)).
  rewrite !without_commas_app, sign_without_commas, without_commas_rev.
  rewrite (group3_without_commas (length (rev (digits_of_N (h / 100))))).
  - rewrite rev_involutive. f_equal. f_equal. f_equal.
    destruct (two_digits_shape (h mod 100)) as (d1 & d2 & -> & H1 & H2).
    + apply N.mod_lt. discriminate.
    + apply digits_without_commas. simpl. now rewrite H1, H2.
  - apply Nat.le_refl.
  - rewrite forallb_forall. intros c Hc. apply in_rev in Hc.
    pose proof (digits_of_N_are_digits (h / 100)) as Hd.
    rewrite forallb_forall in Hd. auto.
Qed.

Lemma format_spec_without_commas v :
  format_spec_2f v = (t <- format_spec_comma_2f v ;; Ok (without_commas t)).
Proof.
  destruct v as [|b|z|x|s|l|d]; simpl; try reflexivity.
  - destruct (float_of_int (if b then 1 else 0)) as [x|e]; simpl;
      [now rewrite format_without_commas|reflexivity].
  - destruct (float_of_int z) as [x|e]; simpl;
      [now rewrite format_without_commas|reflexivity].
  - now rewrite format_without_commas.
Qed.

(** X13.  The amount as the page displays it (with thousands separators)
    and as the CSV file has it (without) are the same digits: formatting
    a value with [,.2f] succeeds or fails as formatting it with [.2f]
    does, with the same exception, and taking the commas out of the one
    text gives the other. *)
Theorem X13_display_and_csv_amounts_agree (v : pyval) :
  format_spec_2f v = (t <- format_spec_comma_2f v ;; Ok (without_commas t)).
Proof. exact (format_spec_without_commas v). Qed.

(** *** What the reports read of a record *)

Lemma same_fields_get a b k default :
  same_fields a b -> In k schema_fields ->
  dict_get a k default = dict_get b k default.
Proof. intros H Hk. unfold dict_get. now rewrite (H k Hk). Qed.

Ltac field := simpl; tauto.

Ltac same_gets H :=
  rewrite ?(same_fields_get _ _ Payer _ H), ?(same_fields_get _ _ Date _ H),
    ?(same_fields_get _ _ Amount _ H), ?(same_fields_get _ _ Bank _ H),
    ?(same_fields_get _ _ Check_Number _ H), ?(same_fields_get _ _ Account _ H),
    ?(same_fields_get _ _ Routing _ H), ?(same_fields_get _ _ Claim _ H)
    by field.

Lemma map_res_enumerate_same {B : Type} (f : nat * dict -> res B) a b :
  Forall2 same_fields a b ->
  (forall i x y, same_fields x y -> f (i, x) = f (i, y)) ->
  forall start, map_res f (enumerate start a) = map_res f (enumerate start b).
Proof.
  intros Hab Hf. induction Hab as [|x y a b Hxy _ IH]; intros start; simpl.
  - reflexivity.
  - now rewrite (Hf start x y Hxy), IH.
Qed.

Lemma same_fields_amounts a b :
  Forall2 same_fields a b -> map amount_of a = map amount_of b.
Proof.
  induction 1 as [|x y a b Hxy _ IH]; simpl; [reflexivity|].
  unfold amount_of at 1 3. same_gets Hxy. now rewrite IH.
Qed.

Lemma same_fields_length a b :
  Forall2 same_fields a b -> length a = length b.
Proof. induction 1; simpl; congruence. Qed.

Lemma same_fields_csv a b :
  Forall2 same_fields a b -> generate_csv a = generate_csv b.
Proof.
  intros H. unfold generate_csv.
  rewrite (map_res_enumerate_same csv_row a b H), (same_fields_amounts a b H).
  - reflexivity.
  - intros i x y Hxy. unfold csv_row, amount_of. same_gets Hxy. reflexivity.
Qed.

Lemma same_fields_xlsx a b :
  Forall2 same_fields a b -> fill_worksheet a = fill_worksheet b.
Proof.
  intros H. unfold fill_worksheet.
  rewrite (map_res_enumerate_same xlsx_row a b H), (same_fields_length a b H).
  - reflexivity.
  - intros i x y Hxy. unfold xlsx_row, amount_of. same_gets Hxy. reflexivity.
Qed.

(** X14.  The reports read the eight fields of a record and nothing else:
    two lists of records that agree, record by record, on the eight fields
    (whatever other keys they hold, in whatever order) give the same CSV
    rows, the same worksheet, hence the same workbook, and the same results
    on the page. *)
Theorem X14_reports_read_the_eight_fields
  (st_table : list dict -> res unit) (wb_save : worksheet -> res bytes)
  (a b : list dict) :
  Forall2 same_fields a b ->
  generate_csv a = generate_csv b
  /\ fill_worksheet a = fill_worksheet b
  /\ generate_xlsx wb_save a = generate_xlsx wb_save b
  /\ results_block st_table wb_save a = results_block st_table wb_save b.
Proof.
  intros H. split; [now apply same_fields_csv|].
  split; [now apply same_fields_xlsx|].
  split; [unfold generate_xlsx; now rewrite (same_fields_xlsx a b H)|].
  unfold results_block, generate_xlsx.
  destruct H as [|x y a b Hxy Hab]; [reflexivity|].
  assert (Forall2 same_fields (x :: a) (y :: b)) as H by now constructor.
  change (map (fun c => dict_get c Amount (PInt 0)) (x :: a))
    with (map amount_of (x :: a)).
  change (map (fun c => dict_get c Amount (PInt 0)) (y :: b))
    with (map amount_of (y :: b)).
  rewrite (same_fields_amounts _ _ H), (same_fields_csv _ _ H),
    (same_fields_xlsx _ _ H).
  rewrite (map_res_enumerate_same display_row _ _ H).
  - reflexivity.
  - intros i u v Huv. unfold display_row. same_gets Huv. reflexivity.
Qed.

Lemma X14_reports_read_the_eight_fields_witness :
  generate_csv [annotated_record_1; record_3] = generate_csv [record_1; record_3]
  /\ fill_worksheet [annotated_record_1; record_3] = fill_worksheet [record_1; record_3]
  /\ generate_xlsx toy_wb_save [annotated_record_1; record_3]
     = generate_xlsx toy_wb_save [record_1; record_3]
  /\ results_block toy_st_table toy_wb_save [annotated_record_1; record_3]
     = results_block toy_st_table toy_wb_save [record_1; record_3].
Proof.
  apply (X14_reports_read_the_eight_fields toy_st_table toy_wb_save
           [annotated_record_1; record_3] [record_1; record_3]).
  repeat constructor; intros k Hk; simpl in Hk;
    repeat (destruct Hk as [<-|Hk]; [reflexivity|]); contradiction.
Defined.

(** *** The layout of the worksheet *)

Lemma map_res_Ok_cons {A B : Type} (f : A -> res B) x xs ys :
  map_res f (x :: xs) = Ok ys ->
  exists y ys', f x = Ok y /\ map_res f xs = Ok ys' /\ ys = y :: ys'.
Proof.
  simpl. destruct (f x) as [y|e]; [|discriminate]. simpl.
  destruct (map_res f xs) as [ys'|e]; [|discriminate]. simpl.
  intros [= <-]. now exists y, ys'.
Qed.

Lemma header_addresses hs : forall start hdr,
  map_res header_cell (enumerate start hs) = Ok hdr ->
  map fst hdr = map (pair 1%nat) (seq start (length hs)).
Proof.
  induction hs as [|h hs IH]; intros start hdr H.
  - injection H as <-. reflexivity.
  - apply map_res_Ok_cons in H as (y & ys & Hy & Hys & ->).
    unfold header_cell in Hy. destruct (bind_value h); [|discriminate].
    injection Hy as <-. simpl. f_equal. now apply IH.
Qed.

Lemma data_addresses i r vals : forall start cells,
  map_res (data_cell i r) (enumerate start vals) = Ok cells ->
  map fst cells = map (pair r) (seq start (length vals)).
Proof.
  induction vals as [|v vals IH]; intros start cells H.
  - injection H as <-. reflexivity.
  - apply map_res_Ok_cons in H as (y & ys & Hy & Hys & ->).
    unfold data_cell in Hy. destruct (bind_value v); [|discriminate].
    injection Hy as <-. simpl. f_equal. now apply IH.
Qed.

Lemma rows_addresses checks : forall start rows,
  map_res xlsx_row (enumerate start checks) = Ok rows ->
  map fst (concat rows)
  = list_prod (seq (start + 1) (length checks)) (seq 1 9).
Proof.
  induction checks as [|ck checks IH]; intros start rows H.
  - injection H as <-. reflexivity.
  - apply map_res_Ok_cons in H as (y & ys & Hy & Hys & ->).
    unfold xlsx_row in Hy. apply data_addresses in Hy.
    simpl concat. rewrite map_app, Hy, (IH _ _ Hys).
    replace (S start + 1)%nat with (S (start + 1)) by lia.
    reflexivity.
Qed.

Lemma list_prod_NoDup {A B : Type} (l : list A) (l' : list B) :
  NoDup l -> NoDup l' -> NoDup (list_prod l l').
Proof.
  intros Hl Hl'. induction Hl as [|x l Hx Hl IH]; simpl; [constructor|].
  apply NoDup_app.
  - apply NoDup_map_NoDup_ForallPairs; [|assumption].
    intros a b _ _ [= ->]. reflexivity.
  - exact IH.
  - intros [a b] Ha Hb. apply in_map_iff in Ha as (y & [= <- <-] & _).
    apply in_prod_iff in Hb as [Hb _]. contradiction.
Qed.

Lemma fill_worksheet_Ok checks ws :
  fill_worksheet checks = Ok ws ->
  exists hdr rows label formula,
    map_res header_cell (enumerate 1 headers) = Ok hdr
    /\ map_res xlsx_row (enumerate 1 checks) = Ok rows
    /\ bind_value (PStr (text "TOTAL")) = Ok label
    /\ bind_value (PStr (text "=SUM(D2:D"
                          ++ str_of_nat (length checks + 2 - 1) ++ text ")"))
       = Ok formula
    /\ ws = mkSheet (text "Check Register")
              (hdr ++ concat rows
               ++ [(((length checks + 2)%nat, 3%nat),
                    mkCell label (Some bold_font) None false None None None);
                   (((length checks + 2)%nat, 4%nat),
                    mkCell formula (Some bold_font) None true None None
                      (Some money_fmt))])
              (map (fun iw => (get_column_letter (fst iw + 1), snd iw))
                   (enumerate 0 col_widths))
              (text "A1:I" ++ str_of_nat (length checks + 2 - 1))
              (text "A2").
Proof.
  unfold fill_worksheet.
  destruct (map_res header_cell (enumerate 1 headers)) as [hdr|]; [|discriminate].
  destruct (map_res xlsx_row (enumerate 1 checks)) as [rows|]; [|discriminate].
  cbn [bind].
  destruct (bind_value (PStr (text "TOTAL"))) as [label|]; [|discriminate].
  cbn [bind].
  destruct (bind_value _) as [formula|]; [|discriminate].
  cbn [bind]. intros [= <-]. now exists hdr, rows, label, formula.
Qed.

(** X15.  The worksheet [generate_xlsx] builds for N checks has its cells
    at the addresses of rows 1 to N+1, columns 1 to 9, row by row, followed
    by the two cells of the total row N+2 in columns 3 and 4: 9(N+1)+2
    cells, and no address is written twice.  The filter spans A1 to the
    last check's row, the panes are frozen below the header row, and the
    nine columns A to I have their widths. *)
Theorem X15_worksheet_layout (checks : list dict) (ws : worksheet) :
  fill_worksheet checks = Ok ws ->
  map fst (ws_cells ws)
  = list_prod (seq 1 (length checks + 1)) (seq 1 9)
    ++ [((length checks + 2)%nat, 3%nat); ((length checks + 2)%nat, 4%nat)]
  /\ NoDup (map fst (ws_cells ws))
  /\ length (ws_cells ws) = (9 * (length checks + 1) + 2)%nat
  /\ ws_title ws = text "Check Register"
  /\ ws_auto_filter ws = text "A1:I" ++ str_of_nat (length checks + 1)
  /\ ws_freeze_panes ws = text "A2"
  /\ ws_column_widths ws
     = [(text "A", 4); (text "B", 45); (text "C", 12); (text "D", 13);
        (text "E", 35); (text "F", 16); (text "G", 12); (text "H", 12);
        (text "I", 20)].
Proof.
  intros H.
  apply fill_worksheet_Ok in H as (hdr & rows & label & formula & Hh & Hr & _ & _ & ->).
  apply header_addresses in Hh. apply rows_addresses in Hr.
  cbn [ws_cells ws_title ws_auto_filter ws_freeze_panes ws_column_widths].
  assert (map fst
            (hdr ++ concat rows
             ++ [(((length checks + 2)%nat, 3%nat),
                  mkCell label (Some bold_font) None false None None None);
                 (((length checks + 2)%nat, 4%nat),
                  mkCell formula (Some bold_font) None true None None
                    (Some money_fmt))])
          = list_prod (seq 1 (length checks + 1)) (seq 1 9)
            ++ [((length checks + 2)%nat, 3%nat); ((length checks + 2)%nat, 4%nat)])
    as Haddr.
  { rewrite !map_app, Hh, Hr.
    replace (length checks + 1)%nat with (S (length checks)) by lia.
    change (1 + 1)%nat with 2%nat.
    cbn [seq list_prod map]. rewrite <- app_assoc. reflexivity. }
  split; [exact Haddr|].
  split.
  { rewrite Haddr. apply NoDup_app.
    - apply list_prod_NoDup; apply seq_NoDup.
    - constructor; [|constructor; [intros []|constructor]].
      intros [[=]|[]].
    - intros [r c] Hin Hlast. apply in_prod_iff in Hin as [Hrow _].
      apply in_seq in Hrow.
      destruct Hlast as [[= <- _]|[[= <- _]|[]]]; lia. }
  split.
  { rewrite <- (length_map fst), Haddr, length_app, length_prod, !length_seq.
    simpl. lia. }
  replace (length checks + 2 - 1)%nat with (length checks + 1)%nat by lia.
  repeat split; reflexivity.
Qed.

Lemma X15_worksheet_layout_witness :
  fill_worksheet [record_1; record_3] = Ok two_checks_sheet
  /\ length (ws_cells two_checks_sheet) = 29%nat
  /\ NoDup (map fst (ws_cells two_checks_sheet))
  /\ ws_auto_filter two_checks_sheet = text "A1:I3".
Proof.
  assert (fill_worksheet [record_1; record_3] = Ok two_checks_sheet) as H
    by (vm_compute; reflexivity).
  split; [exact H|].
  destruct (X15_worksheet_layout [record_1; record_3] two_checks_sheet H)
    as (_ & Hn & Hl & _ & Hf & _).
  split; [exact Hl|]. split; [exact Hn|exact Hf].
Defined.

(** *** The looks of the worksheet *)

Lemma header_cells_style hs : forall start hdr a cl,
  map_res header_cell (enumerate start hs) = Ok hdr ->
  In (a, cl) hdr -> fst a = 1%nat /\ header_style cl.
Proof.
  induction hs as [|h hs IH]; intros start hdr a cl H Hin.
  - injection H as <-. destruct Hin.
  - apply map_res_Ok_cons in H as (y & ys & Hy & Hys & ->).
    destruct Hin as [->|Hin]; [|now apply (IH _ _ _ _ Hys)].
    unfold header_cell in Hy. destruct (bind_value h); [|discriminate].
    injection Hy as <- <-. unfold header_style. simpl. tauto.
Qed.

Lemma data_cells_style i vals : forall start cells a cl,
  map_res (data_cell i (i + 1)) (enumerate start vals) = Ok cells ->
  In (a, cl) cells -> fst a = (i + 1)%nat /\ data_style (i + 1) (snd a) cl.
Proof.
  induction vals as [|v vals IH]; intros start cells a cl H Hin.
  - injection H as <-. destruct Hin.
  - apply map_res_Ok_cons in H as (y & ys & Hy & Hys & ->).
    destruct Hin as [->|Hin]; [|now apply (IH _ _ _ _ Hys)].
    unfold data_cell in Hy. destruct (bind_value v); [|discriminate].
    injection Hy as <- <-. unfold data_style. simpl.
    replace (i + 1)%nat with (S i) by lia. rewrite Nat.odd_succ. tauto.
Qed.

Lemma rows_style checks : forall start rows a cl,
  map_res xlsx_row (enumerate start checks) = Ok rows ->
  In (a, cl) (concat rows) ->
  (start + 1 <= fst a <= start + length checks)%nat
  /\ data_style (fst a) (snd a) cl.
Proof.
  induction checks as [|ck checks IH]; intros start rows a cl H Hin.
  - injection H as <-. destruct Hin.
  - apply map_res_Ok_cons in H as (y & ys & Hy & Hys & ->).
    simpl in Hin. apply in_app_or in Hin as [Hin|Hin].
    + unfold xlsx_row in Hy.
      destruct (data_cells_style _ _ _ _ _ _ Hy Hin) as [-> Hs].
      simpl. split; [lia|exact Hs].
    + destruct (IH _ _ _ _ Hys Hin) as [Hr Hs].
      simpl. split; [lia|exact Hs].
Qed.

(** X16.  Every cell of the worksheet has the looks of its row: a header
    cell is bold white on the header colour, bordered and centred; a cell
    of a check's row is bordered, shaded in every second row (the checks
    with an even number, which stand in the odd rows), centred in columns
    1, 3 and 6 and in money format in column 4 only; the two cells of the
    total row are bold, and the sum alone is bordered and in money
    format. *)
Theorem X16_worksheet_styles (checks : list dict) (ws : worksheet)
  (r c : nat) (cl : cell) :
  fill_worksheet checks = Ok ws ->
  In ((r, c), cl) (ws_cells ws) ->
  (r = 1%nat /\ header_style cl)
  \/ ((2 <= r <= length checks + 1)%nat /\ data_style r c cl)
  \/ (r = (length checks + 2)%nat /\ total_style c cl).
Proof.
  intros H Hin.
  apply fill_worksheet_Ok in H as (hdr & rows & label & formula & Hh & Hr & _ & _ & ->).
  cbn [ws_cells] in Hin.
  apply in_app_or in Hin as [Hin|Hin]; [|apply in_app_or in Hin as [Hin|Hin]].
  - left. exact (header_cells_style _ _ _ _ _ Hh Hin).
  - right; left. destruct (rows_style _ _ _ _ _ Hr Hin) as [Hrow Hs].
    simpl in Hrow, Hs. split; [lia|exact Hs].
  - right; right.
    destruct Hin as [[= <- <- <-]|[[= <- <- <-]|[]]];
      (split; [reflexivity|unfold total_style; simpl; tauto]).
Qed.

Lemma X16_worksheet_styles_witness :
  fill_worksheet [record_1; record_3] = Ok two_checks_sheet
  /\ In ((3%nat, 4%nat),
         mkCell (PInt 20) None (Some alt_fill) true None None (Some money_fmt))
        (ws_cells two_checks_sheet)
  /\ ((3 = 1)%nat
        /\ header_style
             (mkCell (PInt 20) None (Some alt_fill) true None None (Some money_fmt))
      \/ (2 <= 3 <= 2 + 1)%nat
         /\ data_style 3 4
              (mkCell (PInt 20) None (Some alt_fill) true None None (Some money_fmt))
      \/ (3 = 2 + 2)%nat
         /\ total_style 4
              (mkCell (PInt 20) None (Some alt_fill) true None None (Some money_fmt))).
Proof.
  assert (fill_worksheet [record_1; record_3] = Ok two_checks_sheet) as H
    by (vm_compute; reflexivity).
  assert (In ((3%nat, 4%nat),
              mkCell (PInt 20) None (Some alt_fill) true None None (Some money_fmt))
             (ws_cells two_checks_sheet)) as Hin
    by (apply (nth_error_In _ 21); vm_compute; reflexivity).
  split; [exact H|]. split; [exact Hin|].
  exact (X16_worksheet_styles [record_1; record_3] two_checks_sheet 3 4 _ H Hin).
Defined.

(** *** When the worksheet cannot be written *)

Lemma map_res_Raise {A B : Type} (f : A -> res B) xs e :
  map_res f xs = Raise e -> exists x, In x xs /\ f x = Raise e.
Proof.
  induction xs as [|x xs IH]; simpl; [discriminate|].
  destruct (f x) as [y|e'] eqn:E; simpl.
  - destruct (map_res f xs) as [ys|e'']; simpl; [discriminate|].
    intros [= ->]. destruct IH as (x' & Hin & Hx'); [reflexivity|].
    exists x'. auto.
  - intros [= ->]. exists x. auto.
Qed.

Lemma bind_value_Raise v e :
  bind_value v = Raise e ->
  e = ValueError \/ e = LibraryError (text "IllegalCharacterError").
Proof.
  destruct v; unfold bind_value; try discriminate.
  - destruct (existsb _ _); [|discriminate]. intros [= <-]. now right.
  - intros [= <-]. now left.
  - intros [= <-]. now left.
Qed.

Lemma get_refused ck k default e :
  bind_value (dict_get ck k default) = Raise e ->
  is_ok (bind_value default) = true ->
  exists v, dict_lookup ck k = Some v /\ bind_value v = Raise e.
Proof.
  unfold dict_get. destruct (dict_lookup ck k) as [v|].
  - intros H _. now exists v.
  - intros H Hd. rewrite H in Hd. discriminate.
Qed.

Lemma xlsx_row_Raise i ck e :
  xlsx_row (i, ck) = Raise e ->
  exists k v, In k schema_fields /\ dict_lookup ck k = Some v
              /\ bind_value v = Raise e.
Proof.
  unfold xlsx_row. intros H.
  apply map_res_Raise in H as ([col v] & Hin & Hv).
  apply enumerate_In in Hin.
  unfold data_cell in Hv. destruct (bind_value v) as [|e'] eqn:E; [discriminate|].
  injection Hv as ->.
  unfold amount_of in Hin. simpl in Hin.
  destruct Hin as [<-|Hin]; [discriminate|].
  repeat (destruct Hin as [<-|Hin];
          [apply get_refused in E as (v' & Hl & Hv'); [|reflexivity];
           eexists; exists v'; split; [|split; [exact Hl|exact Hv']];
           simpl; tauto|]).
  destruct Hin.
Qed.

Lemma fill_worksheet_Raise checks e :
  fill_worksheet checks = Raise e ->
  exists ck k v,
    In ck checks /\ In k schema_fields
    /\ dict_lookup ck k = Some v /\ bind_value v = Raise e.
Proof.
  unfold fill_worksheet. intros H.
  assert (exists hdr, map_res header_cell (enumerate 1 headers) = Ok hdr)
    as [hdr Hh] by (eexists; vm_compute; reflexivity).
  rewrite Hh in H. cbn [bind] in H.
  destruct (map_res xlsx_row (enumerate 1 checks)) as [rows|e'] eqn:E.
  - exfalso. cbn [bind] in H.
    assert (exists l, bind_value (PStr (text "TOTAL")) = Ok l)
      as [l Hl] by (eexists; vm_compute; reflexivity).
    rewrite Hl in H. cbn [bind] in H.
    destruct (bind_value_formula (length checks + 2 - 1)) as [f Hf].
    rewrite Hf in H. discriminate.
  - injection H as ->.
    apply map_res_Raise in E as ([i ck] & Hin & Hrow).
    apply enumerate_In in Hin.
    apply xlsx_row_Raise in Hrow as (k & v & Hk & Hl & Hv).
    now exists ck, k, v.
Qed.

(** X17.  [generate_xlsx] fails in two ways only.  Either it fails while
    it fills the worksheet, and then over a field that a record holds:
    some record has, under one of the eight keys, a value that a cell
    refuses, and the failure is the one of that value, [ValueError] for a
    list or an object, [IllegalCharacterError] for a text with a control
    character; a missing field, or an amount of any scalar type, never
    makes the filling fail.  Or the worksheet is filled, and the failure is
    the one openpyxl raises when it saves it. *)
Theorem X17_worksheet_failure
  (wb_save : worksheet -> res bytes) (checks : list dict) (e : exc) :
  generate_xlsx wb_save checks = Raise e ->
  (fill_worksheet checks = Raise e
   /\ (exists ck k v,
         In ck checks /\ In k schema_fields
         /\ dict_lookup ck k = Some v /\ bind_value v = Raise e)
   /\ (e = ValueError \/ e = LibraryError (text "IllegalCharacterError")))
  \/ (exists ws, fill_worksheet checks = Ok ws /\ wb_save ws = Raise e).
Proof.
  unfold generate_xlsx. intros H.
  destruct (fill_worksheet checks) as [ws|e'] eqn:E; cbn [bind] in H.
  - right. now exists ws.
  - left. injection H as ->. split; [reflexivity|].
    destruct (fill_worksheet_Raise checks e E) as (ck & k & v & Hck & Hk & Hl & Hv).
    split; [now exists ck, k, v|].
    exact (bind_value_Raise v e Hv).
Qed.

Lemma X17_worksheet_failure_witness :
  generate_xlsx toy_wb_save [record_1; list_claim_record] = Raise ValueError
  /\ fill_worksheet [record_1; list_claim_record] = Raise ValueError
  /\ forall ws, toy_wb_save ws <> Raise ValueError.
Proof.
  assert (generate_xlsx toy_wb_save [record_1; list_claim_record]
          = Raise ValueError) as H by (vm_compute; reflexivity).
  split; [exact H|].
  destruct (X17_worksheet_failure toy_wb_save [record_1; list_claim_record]
              ValueError H) as [(Hfill & _)|(ws & _ & Hsave)].
  - split; [exact Hfill|]. discriminate.
  - discriminate Hsave.
Defined.

(** *** When the CSV file cannot be written *)

Lemma float_of_int_Raise z e : float_of_int z = Raise e -> e = OverflowError.
Proof.
  unfold float_of_int. destruct (_ <? _); [discriminate|]. now intros [= <-].
Qed.

Lemma format_is_ok_number v :
  is_ok (format_spec_2f v) = true -> is_number v = true.
Proof. now destruct v. Qed.

Lemma format_number_Raise v e :
  is_number v = true -> format_spec_2f v = Raise e -> e = OverflowError.
Proof.
  destruct v as [|b|z|x|s|l|d]; try discriminate; intros _; simpl.
  - destruct (float_of_int _) eqn:E; simpl; [discriminate|].
    intros [= <-]. exact (float_of_int_Raise _ _ E).
  - destruct (float_of_int _) eqn:E; simpl; [discriminate|].
    intros [= <-]. exact (float_of_int_Raise _ _ E).
Qed.

Lemma py_add_numbers a b :
  is_number a = true -> is_number b = true ->
  match py_add a b with
  | Ok c => is_number c = true
  | Raise e => e = OverflowError
  end.
Proof.
  destruct a as [|p|y|x|s|l|d]; try discriminate;
    destruct b as [|q|z|w|t|m|g]; try discriminate; intros _ _; simpl;
    try reflexivity;
    match goal with
    | |- context [float_of_int ?n] =>
        destruct (float_of_int n) eqn:E; simpl;
        [reflexivity|exact (float_of_int_Raise _ _ E)]
    end.
Qed.

Lemma sum_from_all_numbers xs : forall acc,
  is_number acc = true -> forallb is_number xs = true ->
  match sum_from acc xs with
  | Ok c => is_number c = true
  | Raise e => e = OverflowError
  end.
Proof.
  induction xs as [|x xs IH]; intros acc Hacc Hxs; simpl.
  - exact Hacc.
  - simpl in Hxs. apply andb_prop in Hxs as [Hx Hxs].
    pose proof (py_add_numbers acc x Hacc Hx) as Hadd.
    destruct (py_add acc x) as [acc'|e]; simpl; [|exact Hadd].
    now apply IH.
Qed.

Lemma csv_rows_numbers checks : forall start rows,
  map_res csv_row (enumerate start checks) = Ok rows ->
  forallb is_number (map amount_of checks) = true.
Proof.
  induction checks as [|ck checks IH]; intros start rows H; [reflexivity|].
  apply map_res_Ok_cons in H as (y & ys & Hy & Hys & ->).
  simpl. rewrite (IH _ _ Hys), andb_true_r.
  apply format_is_ok_number. unfold csv_row in Hy.
  destruct (format_spec_2f (amount_of ck)); [reflexivity|discriminate].
Qed.

(** X18.  [generate_csv] fails only over an amount: with [ValueError] when
    a record holds a text as its amount, with [TypeError] when it holds
    [None], a list or an object, and otherwise with [OverflowError] (an
    int, or a sum, beyond the range of a float).  The text fields never
    make it fail. *)
Theorem X18_csv_failure (checks : list dict) (e : exc) :
  generate_csv checks = Raise e ->
  (e = ValueError
   /\ exists ck s, In ck checks /\ dict_lookup ck Amount = Some (PStr s))
  \/ (e = TypeError
      /\ exists ck v, In ck checks /\ dict_lookup ck Amount = Some v
                      /\ is_number v = false
                      /\ forall s, v <> PStr s)
  \/ e = OverflowError.
Proof.
  unfold generate_csv. intros H.
  destruct (map_res csv_row (enumerate 1 checks)) as [rows|e'] eqn:E.
  - right; right. cbn [bind] in H.
    pose proof (sum_from_all_numbers (map amount_of checks) (PInt 0) eq_refl
                  (csv_rows_numbers _ _ _ E)) as Hsum.
    unfold sum in H.
    destruct (sum_from (PInt 0) (map amount_of checks)) as [total|e''];
      cbn [bind] in H.
    + destruct (format_spec_2f total) as [t|e''] eqn:Et; [discriminate|].
      injection H as <-. exact (format_number_Raise _ _ Hsum Et).
    + injection H as <-. exact Hsum.
  - injection H as ->.
    apply map_res_Raise in E as ([i ck] & Hin & Hrow).
    apply enumerate_In in Hin. unfold csv_row in Hrow.
    destruct (format_spec_2f (amount_of ck)) as [|e'] eqn:Ef; [discriminate|].
    injection Hrow as ->. unfold amount_of, dict_get in Ef.
    destruct (dict_lookup ck Amount) as [v|] eqn:El.
    + destruct v as [|b|z|x|s|l|d].
      * injection Ef as <-. right; left. split; [reflexivity|].
        exists ck, PNone; repeat split; auto; discriminate.
      * right; right. exact (format_number_Raise (PBool b) _ eq_refl Ef).
      * right; right. exact (format_number_Raise (PInt z) _ eq_refl Ef).
      * discriminate.
      * injection Ef as <-. left. split; [reflexivity|]. now exists ck, s.
      * injection Ef as <-. right; left. split; [reflexivity|].
        exists ck, (PList l); repeat split; auto; discriminate.
      * injection Ef as <-. right; left. split; [reflexivity|].
        exists ck, (PDict d); repeat split; auto; discriminate.
    + right; right. exact (format_number_Raise (PInt 0) _ eq_refl Ef).
Qed.

Lemma X18_csv_failure_witness :
  generate_csv [record_1; null_amount_record] = Raise TypeError
  /\ ((TypeError = ValueError
       /\ exists ck s, In ck [record_1; null_amount_record]
                       /\ dict_lookup ck Amount = Some (PStr s))
      \/ (TypeError = TypeError
          /\ exists ck v, In ck [record_1; null_amount_record]
                          /\ dict_lookup ck Amount = Some v
                          /\ is_number v = false
                          /\ forall s, v <> PStr s)
      \/ TypeError = OverflowError).
Proof.
  assert (generate_csv [record_1; null_amount_record] = Raise TypeError) as H
    by (vm_compute; reflexivity).
  split; [exact H|].
  exact (X18_csv_failure [record_1; null_amount_record] TypeError H).
Defined.

(** *** The page and the CSV file *)

Lemma map_res_nth {A B : Type} (f : A -> res B) xs : forall ys i x,
  map_res f xs = Ok ys -> nth_error xs i = Some x ->
  exists y, nth_error ys i = Some y /\ f x = Ok y.
Proof.
  induction xs as [|x0 xs IH]; intros ys i x H Hi.
  - destruct i; discriminate.
  - apply map_res_Ok_cons in H as (y & ys' & Hy & Hys & ->).
    destruct i as [|i]; simpl in Hi.
    + injection Hi as <-. now exists y.
    + exact (IH _ _ _ Hys Hi).
Qed.

Lemma results_block_Ok st_table wb_save ck checks r :
  results_block st_table wb_save (ck :: checks) = Ok (Some r) ->
  exists metric,
    sum (map amount_of (ck :: checks)) = Ok (res_total r)
    /\ format_spec_comma_2f (res_total r) = Ok metric
    /\ res_metric r = text "$" ++ metric
    /\ map_res display_row (enumerate 1 (ck :: checks)) = Ok (res_table r)
    /\ st_table (res_table r) = Ok tt
    /\ generate_xlsx wb_save (ck :: checks) = Ok (res_xlsx r)
    /\ generate_csv (ck :: checks) = Ok (res_csv r).
Proof.
  unfold results_block.
  change (map (fun c => dict_get c Amount (PInt 0)) (ck :: checks))
    with (map amount_of (ck :: checks)).
  destruct (sum _) as [total|]; [|discriminate]. cbn [bind].
  destruct (format_spec_comma_2f total) as [metric|] eqn:Em; [|discriminate].
  cbn [bind].
  destruct (map_res display_row _) as [table|]; [|discriminate]. cbn [bind].
  destruct (st_table table) as [[]|] eqn:Et; [|discriminate]. cbn [bind].
  destruct (generate_xlsx _ _) as [buf|]; [|discriminate]. cbn [bind].
  destruct (generate_csv _) as [rows|]; [|discriminate]. cbn [bind].
  intros [= <-]. exists metric. cbn [res_total res_metric res_table res_xlsx res_csv].
  repeat split; first [exact Em|exact Et|reflexivity].
Qed.

(** X19.  The table on the page and the CSV file show the same checks:
    whenever the results are produced, the table has one row per check
    and the CSV file the same rows between its header and its total line;
    row by row the number, payer, date, bank and check number are the
    same values, and the amount of the CSV row is the amount of the table
    without its dollar sign and its commas.  The total of the CSV file is
    likewise the total shown on the page without dollar sign and commas. *)
Theorem X19_page_and_csv_agree
  (st_table : list dict -> res unit) (wb_save : worksheet -> res bytes)
  (checks : list dict) (r : results) :
  results_block st_table wb_save checks = Ok (Some r) ->
  length (res_table r) = length checks
  /\ length (res_csv r) = (length checks + 2)%nat
  /\ (exists t,
        res_metric r = text "$" ++ t
        /\ nth_error (res_csv r) (length checks + 1)
           = Some [empty; empty; PStr (text "TOTAL"); PStr (without_commas t);
                   empty; empty; empty; empty; empty])
  /\ forall i ck,
       nth_error checks i = Some ck ->
       exists t,
         nth_error (res_table r) i
         = Some [(text "#", int_of_nat (S i));
                 (text "Payer", dict_get ck Payer empty);
                 (text "Date", dict_get ck Date empty);
                 (text "Amount", PStr (text "$" ++ t));
                 (text "Bank", dict_get ck Bank empty);
                 (text "Check #", dict_get ck Check_Number empty)]
         /\ nth_error (res_csv r) (S i)
            = Some [int_of_nat (S i); dict_get ck Payer empty;
                    dict_get ck Date empty; PStr (without_commas t);
                    dict_get ck Bank empty; dict_get ck Check_Number empty;
                    dict_get ck Account empty; dict_get ck Routing empty;
                    dict_get ck Claim empty].
Proof.
  intros H. destruct checks as [|ck0 checks0]; [discriminate|].
  apply results_block_Ok in H
    as (metric & Hsum & Hmetric & Hm & Htable & _ & _ & Hcsv).
  remember (ck0 :: checks0) as checks eqn:Echecks. clear Echecks ck0 checks0.
  apply generate_csv_Ok in Hcsv as (data & total & t & Hdata & Hsum' & Ht & Hrows).
  rewrite Hsum in Hsum'. injection Hsum' as <-.
  rewrite format_spec_without_commas, Hmetric in Ht. injection Ht as <-.
  pose proof (map_res_length _ _ _ Htable) as Hlt.
  pose proof (map_res_length _ _ _ Hdata) as Hld.
  rewrite enumerate_length in Hlt, Hld.
  split; [exact Hlt|].
  split; [rewrite Hrows, !length_app; simpl; lia|].
  split.
  { exists metric. split; [exact Hm|].
    rewrite Hrows. simpl app.
    replace (length checks + 1)%nat with (S (length data + 0)) by lia.
    simpl nth_error. rewrite nth_error_app2 by lia.
    replace (length data + 0 - length data)%nat with 0%nat by lia.
    reflexivity. }
  intros i ck Hi.
  pose proof (enumerate_nth _ 1 _ _ Hi) as Hn.
  destruct (map_res_nth _ _ _ _ _ Htable Hn) as (row & Hrow & Hd).
  destruct (map_res_nth _ _ _ _ _ Hdata Hn) as (line & Hline & Hc).
  change (1 + i)%nat with (S i) in Hd, Hc.
  unfold display_row in Hd. unfold csv_row, amount_of in Hc.
  rewrite format_spec_without_commas in Hc.
  destruct (format_spec_comma_2f (dict_get ck Amount (PInt 0))) as [t|];
    [|discriminate].
  cbn [bind] in Hd, Hc. injection Hd as <-. injection Hc as <-.
  exists t. split; [exact Hrow|].
  rewrite Hrows. simpl app. simpl nth_error.
  rewrite nth_error_app1; [exact Hline|].
  apply nth_error_Some. rewrite Hline. discriminate.
Qed.

Lemma X19_page_and_csv_agree_witness :
  results_block toy_st_table toy_wb_save [record_1; record_3]
  = Ok (Some two_checks_results)
  /\ length (res_table two_checks_results) = 2%nat
  /\ length (res_csv two_checks_results) = 4%nat
  /\ exists t,
       res_metric two_checks_results = text "$" ++ t
       /\ nth_error (res_csv two_checks_results) 3
          = Some [empty; empty; PStr (text "TOTAL"); PStr (without_commas t);
                  empty; empty; empty; empty; empty].
Proof.
  assert (results_block toy_st_table toy_wb_save [record_1; record_3]
          = Ok (Some two_checks_results)) as H
    by (vm_compute; reflexivity).
  split; [exact H|].
  destruct (X19_page_and_csv_agree toy_st_table toy_wb_save
              [record_1; record_3] two_checks_results H)
    as (Ht & Hc & Hm & _).
  split; [exact Ht|]. split; [exact Hc|exact Hm].
Defined.

(** *** An amount that is no number *)

Lemma sum_from_app xs ys : forall acc,
  sum_from acc (xs ++ ys) = (acc' <- sum_from acc xs ;; sum_from acc' ys).
Proof.
  induction xs as [|x xs IH]; intros acc; simpl; [reflexivity|].
  destruct (py_add acc x) as [acc'|e]; simpl; [apply IH|reflexivity].
Qed.

Lemma py_add_no_number acc v b :
  float_or_within b acc -> is_number v = false ->
  py_add acc v = Raise TypeError.
Proof.
  intros [[x ->]|(z & -> & _)] Hv; destruct v; try discriminate; reflexivity.
Qed.

(** X20.  One amount that is no number costs the whole report: when the
    records before it have numbers for amounts (or none) and one record
    holds [None], a text, a list or an object as its amount, adding up
    the total raises [TypeError], and with it the results block, whatever
    the other records are: no table, no workbook, no CSV file. *)
Theorem X20_non_number_amount_fails_the_report
  (st_table : list dict -> res unit) (wb_save : worksheet -> res bytes)
  (before after : list dict) (ck : dict) :
  amounts_in_range before ->
  is_number (amount_of ck) = false ->
  sum (map amount_of (before ++ ck :: after)) = Raise TypeError
  /\ results_block st_table wb_save (before ++ ck :: after) = Raise TypeError.
Proof.
  intros [Hnum Hsum] Hck.
  assert (sum (map amount_of (before ++ ck :: after)) = Raise TypeError) as H.
  { unfold sum. rewrite map_app, sum_from_app.
    destruct (sum_from_numbers before (PInt 0) 0) as (total & -> & Hin);
      [assumption|right; exists 0; split; [reflexivity|simpl; lia]|lia|lia|].
    cbn [bind map sum_from].
    now rewrite (py_add_no_number total _ _ Hin Hck). }
  split; [exact H|].
  unfold results_block.
  destruct (before ++ ck :: after) as [|c l] eqn:E.
  - destruct before; discriminate.
  - change (map (fun c => dict_get c Amount (PInt 0)) (c :: l))
      with (map amount_of (c :: l)).
    now rewrite H.
Qed.

Lemma X20_non_number_amount_fails_the_report_witness :
  results_block toy_st_table toy_wb_save [record_1; null_amount_record; record_3]
  = Raise TypeError.
Proof.
  apply (X20_non_number_amount_fails_the_report toy_st_table toy_wb_save
           [record_1] [record_3] null_amount_record).
  - split; [repeat constructor|vm_compute; reflexivity].
  - reflexivity.
Defined.

(** *** The batch loop *)

Lemma failures_sorted outs : forall first,
  StronglySorted lt (map error_page (failures first outs)).
Proof.
  induction outs as [|[d|e] outs IH]; intros first; simpl.
  - constructor.
  - apply IH.
  - constructor; [apply IH|].
    apply Forall_forall. intros p Hp.
    apply in_map_iff in Hp as (pe & <- & Hpe).
    apply failures_from in Hpe. lia.
Qed.

Lemma failures_below outs : forall first pe,
  In pe (failures first outs) -> (error_page pe < first + length outs)%nat.
Proof.
  induction outs as [|[d|e] outs IH]; intros first pe; simpl.
  - intros [].
  - intros H. apply IH in H. lia.
  - intros [<-|H]; [simpl; lia|]. apply IH in H. lia.
Qed.

Lemma failures_caught outs : forall first pe,
  first_fatal outs = None -> In pe (failures first outs) ->
  is_Exception (error_exc pe) = true.
Proof.
  induction outs as [|[d|e] outs IH]; intros first pe; simpl.
  - intros _ [].
  - apply IH.
  - destruct (is_Exception e) eqn:E; [|discriminate].
    intros Hf [<-|H]; [exact E|]. now apply (IH (S first)).
Qed.

Section LoopExtras.

Variable Client : Type.
Variable messages_create : Client -> request -> res response * Client.
Variable EXTRACTION_PROMPT : str.

Local Notation "'check'" := (parse_check Client messages_create EXTRACTION_PROMPT).
Local Notation "'loop'" := (parse_loop Client messages_create EXTRACTION_PROMPT).
Local Notation "'outcomes'" := (page_outcomes Client messages_create EXTRACTION_PROMPT).
Local Notation "'request_for'" := (request_of EXTRACTION_PROMPT).
Local Notation "'after'" := (client_after Client messages_create).

Lemma parse_check_client client img media :
  snd (check client img media) = snd (messages_create client (request_for (img, media))).
Proof.
  unfold parse_check, request_of. simpl.
  now destruct (messages_create _ _).
Qed.

Lemma parse_loop_first_fatal images : forall client idx checks errors,
  loop client idx images checks errors
  = match first_fatal (outcomes client images) with
    | Some e => Raise e
    | None => Ok (checks ++ successes (outcomes client images),
                  errors ++ failures (idx + 1) (outcomes client images))
    end.
Proof.
  induction images as [|[img media] rest IH]; intros client idx checks errors; simpl.
  - now rewrite !app_nil_r.
  - destruct (check client img media) as [[d|e] c] eqn:E; simpl.
    + rewrite IH. destruct (first_fatal _); [reflexivity|].
      rewrite <- app_assoc. simpl.
      now replace (S idx + 1)%nat with (S (idx + 1)) by lia.
    + destruct (is_Exception e); simpl; [|reflexivity].
      rewrite IH. destruct (first_fatal _); [reflexivity|].
      rewrite <- app_assoc. simpl.
      now replace (S idx + 1)%nat with (S (idx + 1)) by lia.
Qed.

(** X21.  The batch loop ends early in one case only: at the first page
    whose failure does not derive from [Exception] (an interrupt, for
    one), and then with that very failure.  In every other case it
    returns the records of the pages that succeeded and the messages of
    those that failed. *)
Theorem X21_loop_ends_at_the_first_fatal_failure
  (client : Client) (images : list (str * str)) :
  parse_all Client messages_create EXTRACTION_PROMPT client images
  = match first_fatal (outcomes client images) with
    | Some e => Raise e
    | None => Ok (successes (outcomes client images),
                  failures 1 (outcomes client images))
    end.
Proof. unfold parse_all. now rewrite parse_loop_first_fatal. Qed.

(** X22.  Whenever the batch loop returns, its messages name pages of the
    batch in strictly increasing order (no page twice, none beyond the
    last), each with a failure that derives from [Exception], and the
    records are no more than the pages. *)
Theorem X22_messages_are_in_page_order
  (client : Client) (images : list (str * str))
  (checks : list dict) (errors : list page_error) :
  parse_all Client messages_create EXTRACTION_PROMPT client images
  = Ok (checks, errors) ->
  StronglySorted lt (map error_page errors)
  /\ (forall pe, In pe errors ->
        (1 <= error_page pe <= length images)%nat
        /\ is_Exception (error_exc pe) = true)
  /\ (length checks <= length images)%nat.
Proof.
  unfold parse_all. rewrite parse_loop_first_fatal.
  destruct (first_fatal (outcomes client images)) eqn:Hf; [discriminate|].
  intros [= <- <-]. simpl app.
  pose proof (page_outcomes_length Client messages_create EXTRACTION_PROMPT
                client images) as Hlen.
  split; [apply failures_sorted|]. split.
  - intros pe Hpe. split.
    + pose proof (failures_from _ _ _ Hpe).
      pose proof (failures_below _ _ _ Hpe). lia.
    + exact (failures_caught _ _ _ Hf Hpe).
  - pose proof (successes_failures_length (outcomes client images) 1). lia.
Qed.

Lemma page_outcomes_app a : forall client b,
  outcomes client (a ++ b)
  = outcomes client a ++ outcomes (after client (map request_for a)) b.
Proof.
  induction a as [|[img media] a IH]; intros client b; simpl; [reflexivity|].
  pose proof (parse_check_client client img media) as Hc.
  destruct (check client img media) as [r c]. simpl in Hc. subst c.
  simpl. now rewrite IH.
Qed.

(** X23.  The loop sends one request per page, in page order, whatever
    the pages give: the outcomes of a batch are those of its first part
    followed by those of the rest, the rest being met by the client as the
    requests of the first part left it; and the loop over the whole batch
    is the loop over the first part, continued over the rest with the page
    counter, the records and the messages where the first part ended. *)
Theorem X23_loop_over_two_parts
  (client : Client) (a b : list (str * str)) (idx : nat)
  (checks : list dict) (errors : list page_error) :
  outcomes client (a ++ b)
  = outcomes client a ++ outcomes (after client (map request_for a)) b
  /\ loop client idx (a ++ b) checks errors
     = (st <- loop client idx a checks errors ;;
        loop (after client (map request_for a)) (idx + length a) b (fst st) (snd st)).
Proof.
  split; [apply page_outcomes_app|].
  revert client idx checks errors.
  induction a as [|[img media] a IH]; intros client idx checks errors; simpl.
  - now rewrite Nat.add_0_r.
  - pose proof (parse_check_client client img media) as Hc.
    destruct (check client img media) as [r c]. simpl in Hc. subst c.
    destruct (try_except _ _) as [st|e]; simpl; [|reflexivity].
    rewrite IH. now replace (S idx + length a)%nat with (idx + S (length a))%nat by lia.
Qed.

End LoopExtras.

Lemma X22_messages_are_in_page_order_witness :
  parse_all scripted_client scripted_create [] three_answers three_pages
  = Ok ([record_1; record_3], [mkPageError 2 JSONDecodeError])
  /\ StronglySorted lt (map error_page [mkPageError 2 JSONDecodeError])
  /\ (length [record_1; record_3] <= length three_pages)%nat.
Proof.
  assert (parse_all scripted_client scripted_create [] three_answers three_pages
          = Ok ([record_1; record_3], [mkPageError 2 JSONDecodeError])) as H
    by (vm_compute; reflexivity).
  split; [exact H|].
  destruct (X22_messages_are_in_page_order scripted_client scripted_create []
              three_answers three_pages _ _ H) as (Hs & _ & Hl).
  split; [exact Hs|exact Hl].
Defined.

(** *** A whole run *)

Lemma results_block_None st_table wb_save checks r :
  results_block st_table wb_save checks = Ok r -> (r = None <-> checks = []).
Proof.
  destruct checks as [|ck checks].
  - intros [= <-]. tauto.
  - intros H. destruct r as [r|].
    + split; discriminate.
    + exfalso. unfold results_block in H.
      destruct (sum _); [|discriminate]. cbn [bind] in H.
      destruct (format_spec_comma_2f _); [|discriminate]. cbn [bind] in H.
      destruct (map_res display_row _); [|discriminate]. cbn [bind] in H.
      destruct (st_table _); [|discriminate]. cbn [bind] in H.
      destruct (generate_xlsx _ _); [|discriminate]. cbn [bind] in H.
      destruct (generate_csv _); discriminate.
Qed.

Section RunFacts.

Variable Image : Type.
Variable convert_from_bytes : bytes -> Z -> res (list Image).
Variable Image_open : bytes -> res Image.
Variable image_mode : Image -> str.
Variable image_convert : Image -> str -> res Image.
Variable enhance_contrast : Image -> float -> res Image.
Variable enhance_sharpness : Image -> float -> res Image.
Variable save_png : Image -> res bytes.
Variable b64encode : bytes -> str.
Variable Client : Type.
Variable messages_create : Client -> request -> res response * Client.
Variable EXTRACTION_PROMPT : str.
Variable st_table : list dict -> res unit.
Variable wb_save : worksheet -> res bytes.

Local Notation "'decompose'" :=
  (get_images_from_uploads Image convert_from_bytes Image_open image_mode
     image_convert enhance_contrast enhance_sharpness save_png b64encode).
Local Notation "'run'" :=
  (process Image convert_from_bytes Image_open image_mode image_convert
     enhance_contrast enhance_sharpness save_png b64encode
     Client messages_create EXTRACTION_PROMPT st_table wb_save).
Local Notation "'outcomes'" := (page_outcomes Client messages_create EXTRACTION_PROMPT).

(** X24.  Whenever a run completes, every page image of the uploads has
    become either a record or a message, and the results (total, table,
    workbook, CSV file) are there exactly when at least one page gave a
    record; the table then has one row per record. *)
Theorem X24_completed_run (client : Client) (files : list upload) (out : outcome) :
  run client files = Ok out ->
  decompose files = Ok (out_images out)
  /\ (length (out_checks out) + length (out_errors out))%nat
     = length (out_images out)
  /\ (out_results out = None <-> out_checks out = [])
  /\ forall r, out_results out = Some r ->
               length (res_table r) = length (out_checks out)
               /\ length (res_csv r) = (length (out_checks out) + 2)%nat.
Proof.
  unfold process.
  destruct (decompose files) as [images|]; [|discriminate]. cbn [bind].
  destruct (parse_all _ _ _ _ _) as [st|] eqn:Hloop; [|discriminate]. cbn [bind].
  destruct (results_block _ _ (fst st)) as [r|] eqn:Hres; [|discriminate].
  cbn [bind].
  intros [= <-]. cbn [out_images out_checks out_errors out_results].
  unfold parse_all in Hloop. apply parse_loop_Ok in Hloop. subst st.
  simpl fst in *. simpl snd.
  split; [reflexivity|]. split.
  - rewrite successes_failures_length. apply page_outcomes_length.
  - split; [exact (results_block_None _ _ _ _ Hres)|].
    intros r' ->.
    destruct (successes (outcomes client images)) as [|ck checks] eqn:E;
      [discriminate|].
    apply results_block_Ok in Hres as (_ & _ & _ & _ & Htable & _ & _ & Hcsv).
    apply map_res_length in Htable. rewrite enumerate_length in Htable.
    split; [exact Htable|].
    apply generate_csv_Ok in Hcsv as (data & total & t & Hdata & _ & _ & Hrows).
    apply map_res_length in Hdata. rewrite enumerate_length in Hdata.
    rewrite Hrows, !length_app. simpl length in *. lia.
Qed.

End RunFacts.

Lemma X24_completed_run_witness :
  toy_process three_answers three_uploads = Ok three_uploads_outcome
  /\ (length (out_checks three_uploads_outcome)
      + length (out_errors three_uploads_outcome))%nat
     = length (out_images three_uploads_outcome)
  /\ (out_results three_uploads_outcome = None
      <-> out_checks three_uploads_outcome = []).
Proof.
  assert (toy_process three_answers three_uploads = Ok three_uploads_outcome)
    as H by (vm_compute; reflexivity).
  split; [exact H|].
  destruct (X24_completed_run _ _ _ _ _ _ _ _ _ _ _ _ _ _ _ _ _ H)
    as (_ & Hn & Hr & _).
  split; [exact Hn|exact Hr].
Defined.

(** *** When decomposition fails *)

Section DecompositionFailures.

Variable Image : Type.
Variable convert_from_bytes : bytes -> Z -> res (list Image).
Variable Image_open : bytes -> res Image.
Variable image_mode : Image -> str.
Variable image_convert : Image -> str -> res Image.
Variable enhance_contrast : Image -> float -> res Image.
Variable enhance_sharpness : Image -> float -> res Image.
Variable save_png : Image -> res bytes.
Variable b64encode : bytes -> str.

Local Notation "'encode'" :=
  (image_to_base64 Image image_mode image_convert enhance_contrast
     enhance_sharpness save_png b64encode).
Local Notation "'images_of'" :=
  (images_of_upload Image convert_from_bytes Image_open image_mode
     image_convert enhance_contrast enhance_sharpness save_png b64encode).
Local Notation "'decompose'" :=
  (get_images_from_uploads Image convert_from_bytes Image_open image_mode
     image_convert enhance_contrast enhance_sharpness save_png b64encode).
Local Notation "'decompose_loop'" :=
  (get_images_loop Image convert_from_bytes Image_open image_mode
     image_convert enhance_contrast enhance_sharpness save_png b64encode).

Lemma get_images_loop_Raise files : forall acc e,
  decompose_loop files acc = Raise e ->
  exists f, In f files /\ images_of f = Raise e.
Proof.
  induction files as [|f files IH]; intros acc e; simpl; [discriminate|].
  destruct (images_of f) as [new|e'] eqn:E; simpl.
  - intros H. apply IH in H as (f' & Hin & Hf'). exists f'. auto.
  - intros [= ->]. exists f. auto.
Qed.

(** X25.  Decomposition fails with an ordinary error only over a PDF:
    when [get_images_from_uploads] raises an exception that derives from
    [Exception], one of the uploads is a PDF, and the exception is the one
    of rasterizing it or of encoding one of its pages.  An upload of any
    other type never stops the batch in this way, unreadable as it may
    be. *)
Theorem X25_only_a_pdf_stops_decomposition (files : list upload) (e : exc) :
  decompose files = Raise e ->
  is_Exception e = true ->
  exists f,
    In f files /\ upload_type f = pdf_type
    /\ (convert_from_bytes (upload_raw f) 300 = Raise e
        \/ exists pages page,
             convert_from_bytes (upload_raw f) 300 = Ok pages
             /\ In page pages /\ encode page = Raise e).
Proof.
  unfold get_images_from_uploads. intros H He.
  apply get_images_loop_Raise in H as (f & Hin & Hf).
  exists f. split; [exact Hin|].
  unfold images_of_upload in Hf.
  destruct (str_eqb (upload_type f) pdf_type) eqn:Et.
  - apply str_eqb_eq in Et. split; [exact Et|].
    destruct (convert_from_bytes (upload_raw f) 300) as [pages|e'] eqn:Ec;
      cbn [bind] in Hf.
    + right. apply map_res_Raise in Hf as (page & Hp & Hpage).
      exists pages, page. split; [reflexivity|]. split; [exact Hp|].
      fold encode in Hpage.
      destruct (encode page) as [b64|e0]; [discriminate|].
      injection Hpage as ->. reflexivity.
    + left. congruence.
  - exfalso. unfold bytes_to_base64, try_except in Hf.
    destruct (img <- Image_open (upload_raw f) ;; _) as [p|e'];
      cbn [bind] in Hf; [discriminate|].
    destruct (is_Exception e') eqn:Ee; cbn [bind] in Hf; [discriminate|].
    injection Hf as ->. congruence.
Qed.

End DecompositionFailures.

Lemma X25_only_a_pdf_stops_decomposition_witness :
  toy_decompose [good_scan; torn_pdf] = Raise (LibraryError (text "PDFPageCountError"))
  /\ exists f,
       In f [good_scan; torn_pdf] /\ upload_type f = pdf_type
       /\ (toy_convert_from_bytes (upload_raw f) 300
           = Raise (LibraryError (text "PDFPageCountError"))
           \/ exists pages page,
                toy_convert_from_bytes (upload_raw f) 300 = Ok pages
                /\ In page pages
                /\ image_to_base64 bytes (fun _ => text "RGB") (fun img _ => Ok img)
                     (fun img _ => Ok img) (fun img _ => Ok img) (fun img => Ok img)
                     (fun raw => raw) page
                   = Raise (LibraryError (text "PDFPageCountError"))).
Proof.
  assert (toy_decompose [good_scan; torn_pdf]
          = Raise (LibraryError (text "PDFPageCountError"))) as H
    by (vm_compute; reflexivity).
  split; [exact H|].
  exact (X25_only_a_pdf_stops_decomposition bytes toy_convert_from_bytes
           (fun raw => Ok raw) (fun _ => text "RGB") (fun img _ => Ok img)
           (fun img _ => Ok img) (fun img _ => Ok img) (fun img => Ok img)
           (fun raw => raw) [good_scan; torn_pdf] _ H eq_refl).
Defined.

(** *** A response that is no object *)

Lemma json_loads_brace s v :
  json_loads (123%N :: s) = Ok v -> exists d, v = PDict d.
Proof.
  unfold json_loads.
  assert (skip_ws (123%N :: s) = 123%N :: s) as -> by reflexivity.
  match goal with
  | |- context [scan_once ?f _] =>
      assert (exists n, f = S n) as [n ->] by (eexists; simpl; reflexivity)
  end.
  cbn [scan_once object_members array_items].
  change (123 =? 34)%N with false. change (123 =? 123)%N with true. cbn iota.
  destruct (skip_ws s) as [|c1 r1]; [discriminate|].
  destruct (c1 =? 125)%N.
  - destruct (skip_ws r1); [|discriminate]. intros [= <-]. now exists [].
  - destruct (c1 =? 34)%N; [|discriminate].
    destruct (object_members n r1 []) as [[v' r]|] eqn:E; [|discriminate].
    destruct (skip_ws r); [|discriminate]. intros [= <-].
    destruct (object_members_distinct n r1 [] v' r E) as (d & -> & _);
      [constructor|]. now exists d.
Qed.

(** X26.  A page fails with [AttributeError] in one case only: the text of
    the response, stripped and freed of its fence, holds no pair of braces
    with brace-free text between them, and is as a whole a JSON document
    that is not an object (a number, a string, an array, true, false or
    null), so that the value has no [get]. *)
Theorem X26_attribute_error_means_no_object (raw : str) :
  parse_response_text raw = Raise AttributeError
  <-> exists t v,
        strip_fence (strip raw) = Ok t
        /\ re_search_object t = None
        /\ json_loads t = Ok v
        /\ forall d, v <> PDict d.
Proof.
  unfold parse_response_text. split.
  - intros H.
    destruct (strip_fence (strip raw)) as [t|e] eqn:Ht; cbn [bind] in H.
    2:{ apply strip_fence_raises in Ht. congruence. }
    destruct (json_loads (find_object t)) as [v|e] eqn:Hv; cbn [bind] in H.
    2:{ apply json_loads_raises in Hv. congruence. }
    destruct (as_dict v) as [d|e] eqn:Hd; cbn [bind] in H.
    { destruct (ensure_amount d) as [|e] eqn:He; [discriminate|].
      apply ensure_amount_raises in He. congruence. }
    exists t, v. split; [reflexivity|].
    assert (forall d, v <> PDict d) as Hnot.
    { intros d ->. discriminate. }
    unfold find_object in Hv.
    destruct (re_search_object t) as [m|] eqn:Hm.
    + exfalso. apply re_search_object_Some in Hm as (_ & _ & _ & Hflat & _).
      destruct Hflat as (mid & -> & _).
      apply json_loads_brace in Hv as [d Hd']. exact (Hnot d Hd').
    + auto.
  - intros (t & v & -> & Hm & Hv & Hnot). cbn [bind].
    unfold find_object. rewrite Hm, Hv. cbn [bind].
    destruct v; try reflexivity. now destruct (Hnot d).
Qed.

(** X27.  A response that is empty or all white space fails with
    [JSONDecodeError]. *)
Theorem X27_blank_response_fails (raw : str) :
  forallb isspace raw = true ->
  parse_response_text raw = Raise JSONDecodeError.
Proof.
  intros H.
  assert (strip raw = []) as Hs.
  { unfold strip.
    assert (lstrip raw = []) as ->; [|reflexivity].
    rewrite <- (app_nil_r raw). now rewrite lstrip_spaces. }
  unfold parse_response_text. rewrite Hs. reflexivity.
Qed.

Lemma X27_blank_response_fails_witness :
  parse_response_text (text "  ") = Raise JSONDecodeError.
Proof. apply (X27_blank_response_fails (text "  ")). reflexivity. Defined.
